(** * DebtClear webhook: statutory claim calculator and intake handler

    A shallow embedding of [debtclear_webhook.py] and the properties of
    its claim calculation and of its request handling.

    - Python [float] is IEEE 754 binary64; it is modelled with the
      Standard Library's [spec_float] at precision 53 and exponent
      bound 1024, every operation rounded to nearest, ties to even.
    - Python [str] is a sequence of Unicode code points: [list N].
    - [datetime.now()], [hash], the file system and the HTTP transport
      are the environment of the process: they are oracles of an [Env]
      record, and what the handler does to the outside is recorded in a
      [World] that every effectful function threads. *)

From Stdlib Require Import ZArith List String Ascii Bool Lia.
From Stdlib Require Import Floats.SpecFloat.
From stdpp Require Import base gmap.

Local Open Scope Z_scope.

(** ** Python strings *)

Definition pystr := list N.

(** An ASCII literal of the source as a Python string. *)
Definition str (s : string) : pystr :=
  map N_of_ascii (list_ascii_of_string s).

Definition pystr_eqb (a b : pystr) : bool := bool_decide (a = b).

(** [str(n)] for a non-negative integer: its decimal digits. *)
Fixpoint digits_fuel (fuel : nat) (n : Z) (acc : pystr) : pystr :=
  match fuel with
  | O => acc
  | S fuel' =>
      let acc' := Z.to_N (48 + n mod 10) :: acc in
      if n / 10 =? 0 then acc' else digits_fuel fuel' (n / 10) acc'
  end.

Definition str_of_nonneg (n : Z) : pystr :=
  digits_fuel (S (Z.to_nat (Z.log2 n))) n [].

(** [str(n)] for an integer. *)
Definition str_of_int (n : Z) : pystr :=
  if n <? 0 then 45%N :: str_of_nonneg (- n) else str_of_nonneg n.

(** [f"{n:0{w}d}"] for a non-negative integer: zero padding on the left
    up to width [w]. *)
Definition zero_pad (w : nat) (n : Z) : pystr :=
  let d := str_of_nonneg n in
  repeat 48%N (w - length d)%nat ++ d.

(** ** Python floats *)

Module Float64.

Definition prec : Z := 53.
Definition emax : Z := 1024.

Definition float := spec_float.

Definition mul : float -> float -> float := SFmul prec emax.
Definition div : float -> float -> float := SFdiv prec emax.
Definition add : float -> float -> float := SFadd prec emax.
Definition ltb : float -> float -> bool := SFltb.
Definition leb : float -> float -> bool := SFleb.

(** [float(n)] for an integer [n]: the nearest float, ties to even
    (infinite where Python raises [OverflowError]; the integers the
    program converts are far below that). *)
Definition of_int (n : Z) : float := binary_normalize prec emax n 0 false.

(** A decimal literal [n / 10^k] of the source, such as [0.1275]:
    the float nearest to the decimal value. Numerator and power of
    ten are below 2^53 for every literal used, so the correctly
    rounded quotient of the two exact floats is that float. *)
Definition of_decimal (n : Z) (k : Z) : float :=
  div (of_int n) (of_int (10 ^ k)).

Definition is_finite (x : float) : bool :=
  match x with
  | S754_zero _ | S754_finite _ _ _ => true
  | _ => false
  end.

Definition is_nan (x : float) : bool :=
  match x with S754_nan => true | _ => false end.

(** The floats of binary64 among the values of [spec_float]. *)
Definition valid (x : float) : bool := valid_binary prec emax x.

(** The integer nearest to [m * 2^e], ties to the even one. *)
Definition round_half_even (m : positive) (e : Z) : Z :=
  if 0 <=? e then Z.pos m * 2 ^ e
  else
    let d := 2 ^ (- e) in
    let q := Z.pos m / d in
    let r := Z.pos m mod d in
    match 2 * r ?= d with
    | Lt => q
    | Gt => q + 1
    | Eq => if Z.even q then q else q + 1
    end.

(** Why [round(x)] raises. *)
Inductive round_error :=
| round_nan        (* ValueError: cannot convert float NaN to integer *)
| round_infinity.  (* OverflowError: cannot convert float infinity to integer *)

(** [round(x)] with one argument: [float.__round__] rounds to the
    nearest integer, halfway cases to even, and returns an [int];
    it raises on NaN and on the infinities. *)
Definition round (x : float) : round_error + Z :=
  match x with
  | S754_nan => inl round_nan
  | S754_infinity _ => inl round_infinity
  | S754_zero _ => inr 0
  | S754_finite s m e => inr (cond_Zopp s (round_half_even m e))
  end.

(** [a / b] for two [int]s, [b > 0]: true division, the float nearest
    to the exact quotient (the quotient is rounded once, also when
    the integers themselves are no floats). *)
Definition int_truediv (a b : Z) : float :=
  match a with
  | Z0 => S754_zero false
  | _ =>
      let '(q, e, l) := SFdiv_core_binary prec emax (Z.abs a) 0 b 0 in
      binary_round_aux prec emax (a <? 0) q e l
  end.

End Float64.

Import Float64.

(** ** Calendar dates: [datetime] of the Python library *)

Record datetime := mk_datetime {
  year : Z; month : Z; day : Z;
  hour : Z; minute : Z; second : Z; microsecond : Z
}.

Definition is_leap (y : Z) : bool :=
  (y mod 4 =? 0) && (negb (y mod 100 =? 0) || (y mod 400 =? 0)).

Definition days_before_year (y : Z) : Z :=
  let y' := y - 1 in y' * 365 + y' / 4 - y' / 100 + y' / 400.

Definition DAYS_IN_MONTH : list Z :=
  [-1; 31; 28; 31; 30; 31; 30; 31; 31; 30; 31; 30; 31].

Definition DAYS_BEFORE_MONTH : list Z :=
  [-1; 0; 31; 59; 90; 120; 151; 181; 212; 243; 273; 304; 334].

Definition days_in_month (y m : Z) : Z :=
  if (m =? 2) && is_leap y then 29
  else nth (Z.to_nat m) DAYS_IN_MONTH 0.

Definition days_before_month (y m : Z) : Z :=
  nth (Z.to_nat m) DAYS_BEFORE_MONTH 0
  + (if (2 <? m) && is_leap y then 1 else 0).

Definition ymd2ord (y m d : Z) : Z :=
  days_before_year y + days_before_month y m + d.

Definition toordinal (t : datetime) : Z :=
  ymd2ord (year t) (month t) (day t).

(** The fields of a [datetime] object are always in range. *)
Definition datetime_ok (t : datetime) : bool :=
  (1 <=? year t) && (year t <=? 9999)
  && (1 <=? month t) && (month t <=? 12)
  && (1 <=? day t) && (day t <=? days_in_month (year t) (month t))
  && (0 <=? hour t) && (hour t <? 24)
  && (0 <=? minute t) && (minute t <? 60)
  && (0 <=? second t) && (second t <? 60)
  && (0 <=? microsecond t) && (microsecond t <? 1000000).

(** [(a - b).days]: the difference is a [timedelta] of the ordinals,
    the seconds of the day and the microseconds, normalised so that
    its seconds and microseconds are non-negative; [days] is then the
    floor of the difference in days. *)
Definition timedelta_days (a b : datetime) : Z :=
  let d := toordinal a - toordinal b in
  let s := (second a + minute a * 60 + hour a * 3600)
           - (second b + minute b * 60 + hour b * 3600) in
  let us := microsecond a - microsecond b in
  d + (s + us / 1000000) / 86400.

(** The calendar date of a moment, as [strftime('%Y%m%d')] and the
    comparison of dates see it. *)
Definition date_of (t : datetime) : Z * Z * Z := (year t, month t, day t).

(** Dates in calendar order. *)
Definition date_leb (a b : Z * Z * Z) : bool :=
  let '(y1, m1, d1) := a in
  let '(y2, m2, d2) := b in
  (y1 <? y2) || ((y1 =? y2) && ((m1 <? m2) || ((m1 =? m2) && (d1 <=? d2)))).

(** ** Exceptions *)

(** The [ValueError]s the flow can raise, by the text of the message. *)
Inductive value_error :=
| time_data_does_not_match (data : pystr)
    (* time data %r does not match format %r *)
| unconverted_data_remains (rest : pystr)
    (* unconverted data remains: %s *)
| year_is_out_of_range (y : Z)
    (* year %i is out of range *)
| day_is_out_of_range_for_month
    (* day is out of range for month *)
| cannot_convert_float_NaN_to_integer.

(** An exception raised inside a collaborator (the file system, the
    [requests] library): its class and [str(e)]. The two [try] blocks
    of the source run collaborators only, so these are the exceptions
    their [except Exception as e] handlers see. *)
Record pyexc := { exc_class : string; exc_str : pystr }.

Inductive exn :=
| ValueError (why : value_error)
| OverflowError     (* cannot convert float infinity to integer *)
| HTTPException (status_code : Z) (detail : pystr).

(** ** The environment of the process and the outside world *)

(** The JSON body and the headers of the POST to SendGrid. *)
Record http_post := {
  post_url : pystr;
  post_authorization : pystr;
  post_content_type : pystr;
  post_to : pystr;
  post_subject : pystr;
  post_from : pystr;
  post_body_type : pystr;
  post_body_value : pystr;
  post_timeout : Z
}.

Inductive post_result :=
| post_raises (e : pyexc)
| post_response (status_code : Z) (text : pystr).

Inductive write_result :=
| write_ok
| open_raises (e : pyexc)     (* the file is left as it was *)
| write_raises (e : pyexc).   (* the file was opened, hence truncated *)

Record Env := {
  (** the [n]-th reading of [datetime.now()] *)
  clock : nat -> datetime;
  (** [hash] on strings, fixed for the life of the process *)
  py_hash : pystr -> Z;
  (** the decimal value of a non-ASCII code point of category Nd *)
  unicode_decimal : N -> option Z;
  (** [os.getenv("SENDGRID_API_KEY")] at import *)
  SENDGRID_API_KEY : option pystr;
  (** what [open(path, "w")] and [f.write(content)] do *)
  file_write : pystr -> pystr -> write_result;
  (** [import requests]: the exception it raises, if any *)
  import_requests : option pyexc;
  (** what [requests.post] does with the request *)
  http_send : http_post -> post_result
}.

Inductive log_level := INFO | WARNING | ERROR.

Record World := {
  clock_reads : nat;
  files : gmap pystr pystr;
  outbox : list http_post;
  log : list (log_level * pystr)
}.

(** ** Effectful code: state and exceptions *)

(** A computation that changes the world and returns a value or
    raises an exception of type [E]. *)
Definition M (E A : Type) : Type := World -> (E + A) * World.

Definition ret {E A} (a : A) : M E A := fun w => (inr a, w).

Definition raise {E A} (e : E) : M E A := fun w => (inl e, w).

Definition bind {E A B} (m : M E A) (f : A -> M E B) : M E B :=
  fun w =>
    match m w with
    | (inl e, w') => (inl e, w')
    | (inr a, w') => f a w'
    end.

Notation "'let*' x ':=' m 'in' k" := (bind m (fun x => k))
  (at level 10, x name, m at level 100, k at level 200).

(** [try: m except Exception as e: h e] *)
Definition try_except {E E' A} (m : M E A) (h : E -> M E' A) : M E' A :=
  fun w =>
    match m w with
    | (inl e, w') => h e w'
    | (inr a, w') => (inr a, w')
    end.

(** [datetime.now()] *)
Definition now {E} (env : Env) : M E datetime :=
  fun w =>
    (inr (clock env (clock_reads w)),
     {| clock_reads := S (clock_reads w); files := files w;
        outbox := outbox w; log := log w |}).

(** [logger.info], [logger.warning], [logger.error] *)
Definition logger {E} (lvl : log_level) (msg : pystr) : M E unit :=
  fun w =>
    (inr tt,
     {| clock_reads := clock_reads w; files := files w;
        outbox := outbox w; log := log w ++ [(lvl, msg)] |}).

(** ** [datetime.strptime(s, "%Y-%m-%d")]

    The library turns the format into the regular expression
    [(?P<Y>\d\d\d\d)-(?P<m>1[0-2]|0[1-9]|[1-9])-(?P<d>3[0-1]|[1-2]\d|0[1-9]|[1-9]| [1-9])]
    and matches it at the start of the string, alternatives tried in
    order, the first complete match taken. Each piece below takes the
    rest of the expression as a continuation [k]. *)

Section Strptime.

Variable env : Env.

(** [\d]: a decimal digit of any script, with its value for [int]. *)
Definition decimal_digit (c : N) : option Z :=
  if ((48 <=? c) && (c <=? 57))%N then Some (Z.of_N c - 48)
  else match unicode_decimal env c with
       | Some v => if (0 <=? v) && (v <=? 9) then Some v else None
       | None => None
       end.

(** [[lo-hi]] for two ASCII digits. *)
Definition digit_between (lo hi : Z) (c : N) : option Z :=
  let v := Z.of_N c - 48 in
  if (lo <=? v) && (v <=? hi) then Some v else None.

Definition orelse {A} (a b : option A) : option A :=
  match a with Some _ => a | None => b end.

Definition re_char {A} (c : N) (s : pystr) (k : pystr -> option A)
  : option A :=
  match s with
  | c' :: r => if (c' =? c)%N then k r else None
  | [] => None
  end.

Definition re_Y {A} (s : pystr) (k : Z -> pystr -> option A) : option A :=
  match s with
  | c1 :: c2 :: c3 :: c4 :: r =>
      match decimal_digit c1, decimal_digit c2,
            decimal_digit c3, decimal_digit c4 with
      | Some a, Some b, Some c, Some d =>
          k (1000 * a + 100 * b + 10 * c + d) r
      | _, _, _, _ => None
      end
  | _ => None
  end.

(** Two characters, the first in [[lo1-hi1]], the second accepted
    by [snd]. *)
Definition re_two {A} (lo1 hi1 : Z) (snd : N -> option Z)
    (s : pystr) (k : Z -> pystr -> option A) : option A :=
  match s with
  | c1 :: c2 :: r =>
      match digit_between lo1 hi1 c1, snd c2 with
      | Some a, Some b => k (10 * a + b) r
      | _, _ => None
      end
  | _ => None
  end.

(** One character in [[1-9]]. *)
Definition re_one {A} (s : pystr) (k : Z -> pystr -> option A)
  : option A :=
  match s with
  | c :: r =>
      match digit_between 1 9 c with
      | Some a => k a r
      | None => None
      end
  | [] => None
  end.

Definition re_m {A} (s : pystr) (k : Z -> pystr -> option A) : option A :=
  orelse (re_two 1 1 (digit_between 0 2) s k)
 (orelse (re_two 0 0 (digit_between 1 9) s k)
         (re_one s k)).

Definition re_d {A} (s : pystr) (k : Z -> pystr -> option A) : option A :=
  orelse (re_two 3 3 (digit_between 0 1) s k)
 (orelse (re_two 1 2 decimal_digit s k)
 (orelse (re_two 0 0 (digit_between 1 9) s k)
 (orelse (re_one s k)
         (re_char 32 s (fun r => re_one r k))))).

(** The match: year, month, day and what is left of the string. *)
Definition format_regex_match (s : pystr) : option (Z * Z * Z * pystr) :=
  re_Y s (fun y s1 =>
  re_char 45 s1 (fun s2 =>
  re_m s2 (fun m s3 =>
  re_char 45 s3 (fun s4 =>
  re_d s4 (fun d rest => Some (y, m, d, rest)))))).

Definition strptime (s : pystr) : value_error + datetime :=
  match format_regex_match s with
  | None => inl (time_data_does_not_match s)
  | Some (y, m, d, rest) =>
      match rest with
      | _ :: _ => inl (unconverted_data_remains rest)
      | [] =>
          if y <? 1 then inl (year_is_out_of_range y)
          else if days_in_month y m <? d
               then inl day_is_out_of_range_for_month
               else inr (mk_datetime y m d 0 0 0 0)
      end
  end.

End Strptime.

(** ** The claim calculator *)

(** The dictionary the calculator returns. *)
Module Claim.
Record t := {
  days_overdue : Z;
  statutory_interest_gbp : float;
  compensation_gbp : Z;
  total_claim_gbp : float
}.
End Claim.

Definition annual_rate : float := of_decimal 1275 4.
Definition daily_rate : float := div annual_rate (of_int 365).

(** The tiers of the fixed compensation (source lines 70 to 75); the
    comparisons with the integers 1000 and 10000 are exact. *)
Definition compensation (amount_gbp : float) : Z :=
  if ltb amount_gbp (of_int 1000) then 40
  else if ltb amount_gbp (of_int 10000) then 70
  else 100.

(** The interest of source line 67, given the days overdue. *)
Definition interest (amount_gbp : float) (days : Z) : round_error + float :=
  match round (mul (mul (mul amount_gbp daily_rate) (of_int days))
                   (of_int 100)) with
  | inl e => inl e
  | inr cents => inr (int_truediv cents 100)
  end.

Definition calculate_statutory_claim (env : Env)
    (amount_gbp : float) (due_date_str : pystr) : M exn Claim.t :=
  match strptime env due_date_str with
  | inl why => raise (ValueError why)
  | inr due_date =>
      let* today := now env in
      let days_overdue := Z.max 0 (timedelta_days today due_date) in
      match interest amount_gbp days_overdue with
      | inl round_nan => raise (ValueError cannot_convert_float_NaN_to_integer)
      | inl round_infinity => raise OverflowError
      | inr interest =>
          let compensation := compensation amount_gbp in
          let total_claim :=
            add (add amount_gbp interest) (of_int compensation) in
          ret {| Claim.days_overdue := days_overdue;
                 Claim.statutory_interest_gbp := interest;
                 Claim.compensation_gbp := compensation;
                 Claim.total_claim_gbp := total_claim |}
      end
  end.

(** ** The schemas of the handler *)

(** [IntakeSubmission]: the validated form submission. *)
Module IntakeSubmission.
Record t := {
  client_email : pystr;
  client_name : pystr;
  client_business : pystr;
  debtor_name : pystr;
  debtor_address : pystr;
  debtor_type : pystr;
  amount_owed_gbp : float;
  invoice_date : pystr;
  due_date : pystr;
  description_of_debt : pystr;
  dpa_accepted : bool
}.
End IntakeSubmission.

(** The dictionary [case_data] of the handler; [lba_pdf_path] is the
    key added once the letter is written. *)
Module Case.
Record t := {
  case_id : pystr;
  client_email : pystr;
  client_name : pystr;
  client_business : pystr;
  debtor_name : pystr;
  debtor_address : pystr;
  amount_owed_gbp : float;
  invoice_date : pystr;
  due_date : pystr;
  description_of_debt : pystr;
  statutory_interest_gbp : float;
  compensation_gbp : Z;
  total_claim_gbp : float;
  days_overdue : Z;
  lba_pdf_path : option pystr
}.

Definition set_lba_pdf_path (c : t) (path : pystr) : t :=
  {| case_id := case_id c; client_email := client_email c;
     client_name := client_name c; client_business := client_business c;
     debtor_name := debtor_name c; debtor_address := debtor_address c;
     amount_owed_gbp := amount_owed_gbp c; invoice_date := invoice_date c;
     due_date := due_date c; description_of_debt := description_of_debt c;
     statutory_interest_gbp := statutory_interest_gbp c;
     compensation_gbp := compensation_gbp c;
     total_claim_gbp := total_claim_gbp c;
     days_overdue := days_overdue c;
     lba_pdf_path := Some path |}.
End Case.

(** The dictionary the intake endpoint returns. *)
Module Response.
Record t := {
  status : pystr;
  case_id : pystr;
  client_email : pystr;
  amount_owed_gbp : float;
  statutory_interest_gbp : float;
  compensation_gbp : Z;
  total_claim_gbp : float;
  lba_generated : bool;
  email_sent : bool;
  message : pystr
}.
End Response.

(** The dictionary the retrieval endpoint returns. *)
Module CaseStatus.
Record t := { case_id : pystr; status : pystr; document : pystr }.
End CaseStatus.

(** The dictionary the health endpoint returns. *)
Module HealthStatus.
Record t := { status : pystr; service : pystr; timestamp : pystr }.
End HealthStatus.

(** ** Formatting *)

Definition nl : pystr := [10%N].
Definition pound : pystr := [163%N].

(** Commas between groups of three digits, over the digits in reverse. *)
Fixpoint group3 (rev_digits : pystr) (k : nat) : pystr :=
  match rev_digits with
  | [] => []
  | c :: r =>
      match k with
      | 3%nat => 44%N :: c :: group3 r 1
      | _ => c :: group3 r (S k)
      end
  end.

Definition group_thousands (digits : pystr) : pystr :=
  rev (group3 (rev digits) 0).

(** [f"{x:,.2f}"]: the exact value of the float rounded to two
    decimals, ties to even, with thousands separators. *)
Definition format_comma_2f (x : float) : pystr :=
  match x with
  | S754_nan => str "nan"
  | S754_infinity s => (if s then str "-" else []) ++ str "inf"
  | S754_zero s => (if s then str "-" else []) ++ str "0.00"
  | S754_finite s m e =>
      let cents := round_half_even (m * 100) e in
      (if s then str "-" else [])
      ++ group_thousands (str_of_nonneg (cents / 100))
      ++ str "." ++ zero_pad 2 (cents mod 100)
  end.

Definition MONTH_NAMES : list string :=
  ["January"; "February"; "March"; "April"; "May"; "June"; "July";
   "August"; "September"; "October"; "November"; "December"]%string.

(** [t.strftime('%d %B %Y')], month names of the C locale. The clock
    gives years of four digits. *)
Definition strftime_d_B_Y (t : datetime) : pystr :=
  zero_pad 2 (day t) ++ str " "
  ++ str (nth (Z.to_nat (month t - 1)) MONTH_NAMES ""%string) ++ str " "
  ++ zero_pad 4 (year t).

(** [t.strftime('%Y%m%d')] *)
Definition strftime_Ymd (t : datetime) : pystr :=
  zero_pad 4 (year t) ++ zero_pad 2 (month t) ++ zero_pad 2 (day t).

(** [t.isoformat()] of a naive [datetime]: the microseconds are written
    only when they are not zero. *)
Definition isoformat (t : datetime) : pystr :=
  zero_pad 4 (year t) ++ str "-" ++ zero_pad 2 (month t) ++ str "-"
  ++ zero_pad 2 (day t) ++ str "T"
  ++ zero_pad 2 (hour t) ++ str ":" ++ zero_pad 2 (minute t) ++ str ":"
  ++ zero_pad 2 (second t)
  ++ (if microsecond t =? 0 then []
      else str "." ++ zero_pad 6 (microsecond t)).

(** ** The letter *)

Definition PDF_OUTPUT_DIR : pystr := str "/tmp/debtclear_pdfs".

(** A case identifier that is one plain component of a path: printable
    ASCII without a slash, of at most 200 characters. The source joins
    the directory and [<case id>.txt] with pathlib (lines 163 and 319).
    For these identifiers the join is the concatenation with a slash
    in between and the name is one the file system takes; the
    identifiers [handle_intake] builds are of this kind. For others
    pathlib normalises the path, an absolute identifier replaces the
    directory, and [Path.exists] raises [OSError] on a name that is
    too long: none of that is modelled, and what is proved of a case
    identifier the handler did not build is proved of plain ones. *)
Definition plain_case_id (case_id : pystr) : bool :=
  forallb (fun c => (32 <=? c)%N && (c <=? 126)%N && negb (c =? 47)%N) case_id
  && (length case_id <=? 200)%nat.

(** The text of the letter (source lines 97 to 159). *)
Definition lba_content (c : Case.t) (today : datetime) : pystr :=
  concat [
    nl;
    str "LETTER BEFORE ACTION"; nl;
    str "Reference: "; Case.case_id c; nl;
    str "Date: "; strftime_d_B_Y today; nl;
    nl;
    str "FROM:"; nl;
    Case.client_business c; nl;
    Case.client_email c; nl;
    nl;
    str "TO:"; nl;
    Case.debtor_name c; nl;
    Case.debtor_address c; nl;
    nl;
    str "RE: FORMAL DEMAND FOR PAYMENT - UNPAID INVOICE"; nl;
    nl;
    str "Dear "; Case.debtor_name c; str ","; nl;
    nl;
    str "This is a formal letter before action. This letter is issued in accordance with the Pre-Action Protocol for Debt Claims under the Civil Procedure Rules."; nl;
    nl;
    str "AMOUNT OWED:"; nl;
    str "Principal Amount: "; pound; format_comma_2f (Case.amount_owed_gbp c); nl;
    str "Statutory Interest (12.75% p.a.): "; pound; format_comma_2f (Case.statutory_interest_gbp c); nl;
    str "Fixed Compensation: "; pound; format_comma_2f (of_int (Case.compensation_gbp c)); nl;
    repeat 9472%N 30; nl;
    str "TOTAL AMOUNT DUE: "; pound; format_comma_2f (Case.total_claim_gbp c); nl;
    nl;
    str "LEGAL BASIS:"; nl;
    str "This claim is made under the Late Payment of Commercial Debts (Interest) Act 1998, which automatically entitles us to statutory interest and compensation for late payment of commercial debts."; nl;
    nl;
    str "STATUTORY INTEREST:"; nl;
    str "- Base rate: 8% per annum"; nl;
    str "- Bank of England base rate: 4.75%"; nl;
    str "- Combined rate: 12.75% per annum"; nl;
    str "- Interest calculated from due date to today"; nl;
    nl;
    str "FIXED COMPENSATION:"; nl;
    str "- Amount owed "; pound; str "1,000 - "; pound; str "9,999.99: "; pound; format_comma_2f (of_int (Case.compensation_gbp c)); nl;
    nl;
    str "WHAT YOU MUST DO:"; nl;
    str "You must pay the full amount of "; pound; format_comma_2f (Case.total_claim_gbp c); str " within 30 days of this letter."; nl;
    nl;
    str "Payment should be made to:"; nl;
    str "Bank Details: [To be provided by client]"; nl;
    nl;
    str "If you do not pay within 30 days, we will consider this a failure to respond to a letter before action and will commence proceedings at court without further notice. This will result in:"; nl;
    str "- County Court Judgment against you"; nl;
    str "- Damage to your business credit rating (lasting 6 years)"; nl;
    str "- Additional court fees and legal costs"; nl;
    str "- Enforcement proceedings"; nl;
    nl;
    str "ALTERNATIVE RESOLUTION:"; nl;
    str "If you dispute this debt or have difficulty paying, please contact us within 7 days to discuss."; nl;
    nl;
    str "This letter is a formal notice. Failure to respond or pay will be used as evidence of your failure to comply with the Pre-Action Protocol."; nl;
    nl;
    str "Yours faithfully,"; nl;
    nl;
    Case.client_business c; nl;
    nl;
    str "---"; nl;
    str "This letter has been prepared by DebtClear Ltd, a legal document preparation service."; nl;
    str "This is not legal advice. Please seek independent legal counsel if required."; nl
  ].

(** [with open(path, "w") as f: f.write(content)] *)
Definition write_file (env : Env) (path content : pystr) : M pyexc unit :=
  fun w =>
    match file_write env path content with
    | write_ok =>
        (inr tt,
         {| clock_reads := clock_reads w;
            files := <[path := content]> (files w);
            outbox := outbox w; log := log w |})
    | open_raises e => (inl e, w)
    | write_raises e =>
        (inl e,
         {| clock_reads := clock_reads w;
            files := <[path := []]> (files w);
            outbox := outbox w; log := log w |})
    end.

(** Source lines 86 to 169. The pathlib join of line 163 is written as
    it comes out for a [plain_case_id]. *)
Definition generate_lba_pdf (env : Env) (case_data : Case.t)
  : M pyexc pystr :=
  let case_id := Case.case_id case_data in
  let* today := now env in
  let lba_content := lba_content case_data today in
  let txt_path := PDF_OUTPUT_DIR ++ str "/" ++ case_id ++ str ".txt" in
  let* _ := write_file env txt_path lba_content in
  let* _ := logger INFO (str "LBA generated: " ++ txt_path) in
  ret txt_path.

(** ** The notifier *)

Definition sendgrid_request (env : Env) (to_email subject html_body : pystr)
  : http_post :=
  {| post_url := str "https://api.sendgrid.com/v3/mail/send";
     post_authorization :=
       str "Bearer "
       ++ match SENDGRID_API_KEY env with
          | Some key => key
          | None => str "None"
          end;
     post_content_type := str "application/json";
     post_to := to_email;
     post_subject := subject;
     post_from := str "noreply@debtclear.eu";
     post_body_type := str "text/html";
     post_body_value := html_body;
     post_timeout := 10 |}.

(** [requests.post(url, json=payload, headers=headers, timeout=10)]:
    the request is handed to the transport, which answers or raises. *)
Definition requests_post (env : Env) (req : http_post)
  : M pyexc (Z * pystr) :=
  fun w =>
    let w' := {| clock_reads := clock_reads w; files := files w;
                 outbox := outbox w ++ [req]; log := log w |} in
    match http_send env req with
    | post_raises e => (inl e, w')
    | post_response status_code text => (inr (status_code, text), w')
    end.

Definition send_email_via_sendgrid (env : Env)
    (to_email subject html_body : pystr) : M exn bool :=
  try_except
    (let* _ := match import_requests env with
               | Some e => raise e
               | None => ret tt
               end in
     let* response :=
       requests_post env (sendgrid_request env to_email subject html_body) in
     let '(status_code, text) := response in
     if existsb (Z.eqb status_code) [200; 201; 202] then
       let* _ := logger INFO (str "Email sent to " ++ to_email) in
       ret true
     else
       let* _ := logger ERROR (str "SendGrid error: " ++ str_of_int status_code
                               ++ str " - " ++ text) in
       ret false)
    (fun e =>
       let* _ := logger ERROR (str "Email send failed: " ++ exc_str e) in
       ret false).

(** ** The endpoints *)

(** The health check: the status of the service and the time. *)
Definition health (env : Env) : M exn HealthStatus.t :=
  let* t := now env in
  ret {| HealthStatus.status := str "ok";
         HealthStatus.service := str "debtclear-webhook";
         HealthStatus.timestamp := isoformat t |}.

Definition email_html (submission : IntakeSubmission.t) (case_data : Case.t)
    (case_id : pystr) : pystr :=
  concat [
    nl;
    str "    <h2>Your Letter Before Action has been prepared</h2>"; nl;
    str "    <p>Hello "; IntakeSubmission.client_name submission; str ",</p>"; nl;
    str "    <p>Your Letter Before Action (LBA) for "; pound; format_comma_2f (Case.total_claim_gbp case_data); str " has been prepared.</p>"; nl;
    str "    <p><strong>Case ID:</strong> "; case_id; str "</p>"; nl;
    str "    <p><strong>Total Amount Claimed:</strong> "; pound; format_comma_2f (Case.total_claim_gbp case_data); str "</p>"; nl;
    str "    <p>The LBA document is ready for download.</p>"; nl;
    str "    <p>Best regards,<br>DebtClear</p>"; nl;
    str "    "
  ].

Definition handle_intake (env : Env) (submission : IntakeSubmission.t)
  : M exn Response.t :=
  let* _ := logger INFO (str "Intake submission: "
                         ++ IntakeSubmission.client_email submission) in
  (* Gate 1: B2B only *)
  if negb (pystr_eqb (IntakeSubmission.debtor_type submission) (str "business"))
  then raise (HTTPException 422 (str "DebtClear processes B2B (business-to-business) debt only. Consumer debt uses a different legal framework."))
  else
  (* Gate 2: DPA acceptance required *)
  if negb (IntakeSubmission.dpa_accepted submission)
  then raise (HTTPException 422 (str "Data Processing Agreement must be accepted to proceed."))
  else
  (* Generate case ID *)
  let* today := now env in
  let case_id :=
    str "DC-" ++ strftime_Ymd today ++ str "-"
    ++ zero_pad 4
         (Z.abs (py_hash env (IntakeSubmission.client_email submission))
          mod 10000) in
  (* Calculate statutory claim *)
  let* claim_calc :=
    calculate_statutory_claim env
      (IntakeSubmission.amount_owed_gbp submission)
      (IntakeSubmission.due_date submission) in
  (* Prepare case data *)
  let case_data :=
    {| Case.case_id := case_id;
       Case.client_email := IntakeSubmission.client_email submission;
       Case.client_name := IntakeSubmission.client_name submission;
       Case.client_business := IntakeSubmission.client_business submission;
       Case.debtor_name := IntakeSubmission.debtor_name submission;
       Case.debtor_address := IntakeSubmission.debtor_address submission;
       Case.amount_owed_gbp := IntakeSubmission.amount_owed_gbp submission;
       Case.invoice_date := IntakeSubmission.invoice_date submission;
       Case.due_date := IntakeSubmission.due_date submission;
       Case.description_of_debt :=
         IntakeSubmission.description_of_debt submission;
       Case.statutory_interest_gbp := Claim.statutory_interest_gbp claim_calc;
       Case.compensation_gbp := Claim.compensation_gbp claim_calc;
       Case.total_claim_gbp := Claim.total_claim_gbp claim_calc;
       Case.days_overdue := Claim.days_overdue claim_calc;
       Case.lba_pdf_path := None |} in
  (* Generate LBA PDF *)
  let* case_data :=
    try_except
      (let* lba_path := generate_lba_pdf env case_data in
       ret (Case.set_lba_pdf_path case_data lba_path))
      (fun e =>
         let* _ := logger ERROR (str "PDF generation failed: " ++ exc_str e) in
         raise (HTTPException 500 (str "LBA generation failed"))) in
  (* Send email to client *)
  let email_html := email_html submission case_data case_id in
  let* email_sent :=
    send_email_via_sendgrid env
      (IntakeSubmission.client_email submission)
      (str "Your Letter Before Action - " ++ case_id)
      email_html in
  let* _ := if negb email_sent
            then logger WARNING (str "Email send failed but case processed")
            else ret tt in
  (* Return success *)
  ret {| Response.status := str "success";
         Response.case_id := case_id;
         Response.client_email := IntakeSubmission.client_email submission;
         Response.amount_owed_gbp :=
           IntakeSubmission.amount_owed_gbp submission;
         Response.statutory_interest_gbp :=
           Case.statutory_interest_gbp case_data;
         Response.compensation_gbp := Case.compensation_gbp case_data;
         Response.total_claim_gbp := Case.total_claim_gbp case_data;
         Response.lba_generated := true;
         Response.email_sent := email_sent;
         Response.message :=
           str "Case " ++ case_id
           ++ str " created successfully. LBA prepared and email sent." |}.

(** Source lines 316 to 328. The pathlib join and [Path.exists] are
    written as they come out for a [plain_case_id]: the concatenation,
    and whether a file stands there. *)
Definition get_case (case_id : pystr) : M exn CaseStatus.t :=
  fun w =>
    let pdf_file := PDF_OUTPUT_DIR ++ str "/" ++ case_id ++ str ".txt" in
    match files w !! pdf_file with
    | None => (inl (HTTPException 404 (str "Case not found")), w)
    | Some _ =>
        (inr {| CaseStatus.case_id := case_id;
                CaseStatus.status := str "lba_prepared";
                CaseStatus.document := pdf_file |}, w)
    end.

(** * Definitions for the statements *)

(** ** Rounding to cents, as the spec words it *)

(** [n] is the integer nearest to the value of the float [x], the even
    one of the two when [x] lies halfway: with [x = ± m * 2^e] and
    [e < 0], the distance [|n * 2^-e - (± m)|] is at most half of
    [2^-e]. *)
Definition nearest_integer (x : float) (n : Z) : Prop :=
  match x with
  | S754_zero _ => n = 0
  | S754_finite s m e =>
      if 0 <=? e then n = cond_Zopp s (Z.pos m * 2 ^ e)
      else
        let d := 2 ^ (- e) in
        let err := n * d - cond_Zopp s (Z.pos m) in
        2 * Z.abs err <= d /\ (2 * Z.abs err = d -> Z.even n = true)
  | _ => False
  end.

(** The spec's [round2] on an exact amount: the quotient [num / den]
    of two integers, a number of pence, rounded to the nearest whole
    penny. The spec leaves the rule for a tie open, half-up or
    banker's; both are given. *)
Definition spec_round2_half_up (num den : Z) : Z :=
  (2 * num + den) / (2 * den).

Definition spec_round2_half_even (num den : Z) : Z :=
  let q := num / den in
  let r := num mod den in
  match 2 * r ?= den with
  | Lt => q
  | Gt => q + 1
  | Eq => if Z.even q then q else q + 1
  end.

(** The product the calculator rounds: source line 67. *)
Definition scaled_product (amount_gbp : float) (days : Z) : float :=
  mul (mul (mul amount_gbp daily_rate) (of_int days)) (of_int 100).

(** ** Exact values of floats *)

(** The value of a finite float in units of [2^-1074], the smallest
    positive float: an integer for every float of binary64. *)
Definition units (x : float) : Z :=
  match x with
  | S754_finite s m e => cond_Zopp s (Z.pos m * 2 ^ (e + 1074))
  | _ => 0
  end.

(** A whole number of pounds in the same units. *)
Definition pounds (n : Z) : Z := n * 2 ^ 1074.

(** The spec's formula over the amounts themselves: the exact interest
    [p * (0.1275 / 365) * days] in pence is the quotient of
    [spec_interest_num p days] by [spec_interest_den], the principal
    taken at its exact value [units p / 2^1074]. *)
Definition spec_interest_num (p : float) (days : Z) : Z :=
  units p * 1275 * days * 100.

Definition spec_interest_den : Z := 3650000 * 2 ^ 1074.

(** The finite floats that are zero or positive, exponent in range. *)
Definition nonneg_finite (x : float) : Prop :=
  match x with
  | S754_zero _ => True
  | S754_finite s m e => s = false /\ -1074 <= e
  | _ => False
  end.

(** Neither negative nor a negative infinity: what the products of the
    calculator are when the principal is not negative. *)
Definition not_negative (x : float) : Prop :=
  match x with
  | S754_finite s _ _ | S754_infinity s => s = false
  | _ => True
  end.

(** A finite float with exponent at most [E] and below [2^M] in
    absolute value. *)
Definition bounded_by (E M : Z) (x : float) : Prop :=
  match x with
  | S754_zero _ => True
  | S754_finite _ m e => e <= E /\ Z.pos (digits2_pos m) + e <= M
  | _ => False
  end.

(** A finite float below [2^K] in absolute value. *)
Definition magnitude_le (K : Z) (x : float) : Prop :=
  match x with
  | S754_zero _ => True
  | S754_finite _ m e => Z.pos (digits2_pos m) + e <= K
  | _ => False
  end.

(** ** The stages of the intake handler *)

(** The world once the handler has logged the submission. *)
Definition logged_intake (submission : IntakeSubmission.t) (w : World)
  : World :=
  {| clock_reads := clock_reads w; files := files w; outbox := outbox w;
     log := log w ++ [(INFO, str "Intake submission: "
                             ++ IntakeSubmission.client_email submission)] |}.

Definition B2B_ONLY : pystr :=
  str "DebtClear processes B2B (business-to-business) debt only. Consumer debt uses a different legal framework.".

Definition DPA_REQUIRED : pystr :=
  str "Data Processing Agreement must be accepted to proceed.".

(** The case identifier the handler builds at the [n]-th reading of
    the clock. *)
Definition case_id_of (env : Env) (submission : IntakeSubmission.t)
    (n : nat) : pystr :=
  str "DC-" ++ strftime_Ymd (clock env n) ++ str "-"
  ++ zero_pad 4
       (Z.abs (py_hash env (IntakeSubmission.client_email submission))
        mod 10000).

(** The world once the handler has logged the submission and read the
    clock for the case identifier. *)
Definition after_case_id (submission : IntakeSubmission.t) (w : World)
  : World :=
  {| clock_reads := S (clock_reads w); files := files w;
     outbox := outbox w; log := log (logged_intake submission w) |}.

Definition case_data_of (submission : IntakeSubmission.t) (case_id : pystr)
    (claim_calc : Claim.t) : Case.t :=
  {| Case.case_id := case_id;
     Case.client_email := IntakeSubmission.client_email submission;
     Case.client_name := IntakeSubmission.client_name submission;
     Case.client_business := IntakeSubmission.client_business submission;
     Case.debtor_name := IntakeSubmission.debtor_name submission;
     Case.debtor_address := IntakeSubmission.debtor_address submission;
     Case.amount_owed_gbp := IntakeSubmission.amount_owed_gbp submission;
     Case.invoice_date := IntakeSubmission.invoice_date submission;
     Case.due_date := IntakeSubmission.due_date submission;
     Case.description_of_debt :=
       IntakeSubmission.description_of_debt submission;
     Case.statutory_interest_gbp := Claim.statutory_interest_gbp claim_calc;
     Case.compensation_gbp := Claim.compensation_gbp claim_calc;
     Case.total_claim_gbp := Claim.total_claim_gbp claim_calc;
     Case.days_overdue := Claim.days_overdue claim_calc;
     Case.lba_pdf_path := None |}.

Definition response_of (submission : IntakeSubmission.t) (case_id : pystr)
    (claim_calc : Claim.t) (email_sent : bool) : Response.t :=
  {| Response.status := str "success";
     Response.case_id := case_id;
     Response.client_email := IntakeSubmission.client_email submission;
     Response.amount_owed_gbp := IntakeSubmission.amount_owed_gbp submission;
     Response.statutory_interest_gbp := Claim.statutory_interest_gbp claim_calc;
     Response.compensation_gbp := Claim.compensation_gbp claim_calc;
     Response.total_claim_gbp := Claim.total_claim_gbp claim_calc;
     Response.lba_generated := true;
     Response.email_sent := email_sent;
     Response.message :=
       str "Case " ++ case_id
       ++ str " created successfully. LBA prepared and email sent." |}.

(** The request the handler hands to the notifier. *)
Definition notification_of (env : Env) (submission : IntakeSubmission.t)
    (case_id : pystr) (claim_calc : Claim.t) : http_post :=
  sendgrid_request env
    (IntakeSubmission.client_email submission)
    (str "Your Letter Before Action - " ++ case_id)
    (email_html submission (case_data_of submission case_id claim_calc)
       case_id).

(** The path of the letter of a case whose identifier is a
    [plain_case_id]. *)
Definition letter_path (case_id : pystr) : pystr :=
  PDF_OUTPUT_DIR ++ str "/" ++ case_id ++ str ".txt".

(** Whether the transport accepts the request: [requests] imports, the
    POST returns, and its status is 200, 201 or 202. *)
Definition delivery_accepted (env : Env) (req : http_post) : bool :=
  match import_requests env with
  | Some _ => false
  | None =>
      match http_send env req with
      | post_raises _ => false
      | post_response status_code _ =>
          existsb (Z.eqb status_code) [200; 201; 202]
      end
  end.

(** The same process with another transport. *)
Definition with_transport (imp : option pyexc)
    (send : http_post -> post_result) (env : Env) : Env :=
  {| clock := clock env;
     py_hash := py_hash env;
     unicode_decimal := unicode_decimal env;
     SENDGRID_API_KEY := SENDGRID_API_KEY env;
     file_write := file_write env;
     import_requests := imp;
     http_send := send |}.

Definition with_email_sent (b : bool) (r : Response.t) : Response.t :=
  {| Response.status := Response.status r;
     Response.case_id := Response.case_id r;
     Response.client_email := Response.client_email r;
     Response.amount_owed_gbp := Response.amount_owed_gbp r;
     Response.statutory_interest_gbp := Response.statutory_interest_gbp r;
     Response.compensation_gbp := Response.compensation_gbp r;
     Response.total_claim_gbp := Response.total_claim_gbp r;
     Response.lba_generated := Response.lba_generated r;
     Response.email_sent := b;
     Response.message := Response.message r |}.

(** ** A concrete process *)

Module Example.

(** The clock reads 11 March 2024, 15:30; the transport accepts. *)
Definition env : Env :=
  {| clock := fun _ => mk_datetime 2024 3 11 15 30 0 0;
     py_hash := fun s => Z.of_nat (length s) * 7919 - 100000;
     unicode_decimal := fun _ => None;
     SENDGRID_API_KEY := Some (str "SG.key");
     file_write := fun _ _ => write_ok;
     import_requests := None;
     http_send := fun _ => post_response 202 [] |}.

(** The same process a day later. *)
Definition env_next_day : Env :=
  {| clock := fun _ => mk_datetime 2024 3 12 9 0 0 0;
     py_hash := py_hash env;
     unicode_decimal := unicode_decimal env;
     SENDGRID_API_KEY := SENDGRID_API_KEY env;
     file_write := file_write env;
     import_requests := import_requests env;
     http_send := http_send env |}.

(** A process whose clock is a day further at every reading. *)
Definition env_days : Env :=
  {| clock := fun n => mk_datetime 2024 3 (11 + Z.of_nat n) 9 0 0 0;
     py_hash := py_hash env;
     unicode_decimal := unicode_decimal env;
     SENDGRID_API_KEY := SENDGRID_API_KEY env;
     file_write := file_write env;
     import_requests := import_requests env;
     http_send := http_send env |}.

(** The same process with a transport that times out. *)
Definition env_timeout : Env :=
  {| clock := clock env;
     py_hash := py_hash env;
     unicode_decimal := unicode_decimal env;
     SENDGRID_API_KEY := SENDGRID_API_KEY env;
     file_write := file_write env;
     import_requests := import_requests env;
     http_send := fun _ =>
       post_raises {| exc_class := "ConnectTimeout";
                      exc_str := str "timed out" |} |}.

Definition world : World :=
  {| clock_reads := 0; files := ∅; outbox := []; log := [] |}.

(** A submission due 40 days before the clock's date. *)
Definition submission : IntakeSubmission.t :=
  {| IntakeSubmission.client_email := str "ann@example.com";
     IntakeSubmission.client_name := str "Ann";
     IntakeSubmission.client_business := str "Ann Ltd";
     IntakeSubmission.debtor_name := str "Bob plc";
     IntakeSubmission.debtor_address := str "1 High Street";
     IntakeSubmission.debtor_type := str "business";
     IntakeSubmission.amount_owed_gbp := of_int 5000;
     IntakeSubmission.invoice_date := str "2024-01-01";
     IntakeSubmission.due_date := str "2024-01-31";
     IntakeSubmission.description_of_debt := str "goods";
     IntakeSubmission.dpa_accepted := true |}.

Definition with_amount (a : float) (s : IntakeSubmission.t)
  : IntakeSubmission.t :=
  {| IntakeSubmission.client_email := IntakeSubmission.client_email s;
     IntakeSubmission.client_name := IntakeSubmission.client_name s;
     IntakeSubmission.client_business := IntakeSubmission.client_business s;
     IntakeSubmission.debtor_name := IntakeSubmission.debtor_name s;
     IntakeSubmission.debtor_address := IntakeSubmission.debtor_address s;
     IntakeSubmission.debtor_type := IntakeSubmission.debtor_type s;
     IntakeSubmission.amount_owed_gbp := a;
     IntakeSubmission.invoice_date := IntakeSubmission.invoice_date s;
     IntakeSubmission.due_date := IntakeSubmission.due_date s;
     IntakeSubmission.description_of_debt :=
       IntakeSubmission.description_of_debt s;
     IntakeSubmission.dpa_accepted := IntakeSubmission.dpa_accepted s |}.

Definition with_debtor_type (ty : pystr) (s : IntakeSubmission.t)
  : IntakeSubmission.t :=
  {| IntakeSubmission.client_email := IntakeSubmission.client_email s;
     IntakeSubmission.client_name := IntakeSubmission.client_name s;
     IntakeSubmission.client_business := IntakeSubmission.client_business s;
     IntakeSubmission.debtor_name := IntakeSubmission.debtor_name s;
     IntakeSubmission.debtor_address := IntakeSubmission.debtor_address s;
     IntakeSubmission.debtor_type := ty;
     IntakeSubmission.amount_owed_gbp := IntakeSubmission.amount_owed_gbp s;
     IntakeSubmission.invoice_date := IntakeSubmission.invoice_date s;
     IntakeSubmission.due_date := IntakeSubmission.due_date s;
     IntakeSubmission.description_of_debt :=
       IntakeSubmission.description_of_debt s;
     IntakeSubmission.dpa_accepted := IntakeSubmission.dpa_accepted s |}.

Definition with_dpa_accepted (b : bool) (s : IntakeSubmission.t)
  : IntakeSubmission.t :=
  {| IntakeSubmission.client_email := IntakeSubmission.client_email s;
     IntakeSubmission.client_name := IntakeSubmission.client_name s;
     IntakeSubmission.client_business := IntakeSubmission.client_business s;
     IntakeSubmission.debtor_name := IntakeSubmission.debtor_name s;
     IntakeSubmission.debtor_address := IntakeSubmission.debtor_address s;
     IntakeSubmission.debtor_type := IntakeSubmission.debtor_type s;
     IntakeSubmission.amount_owed_gbp := IntakeSubmission.amount_owed_gbp s;
     IntakeSubmission.invoice_date := IntakeSubmission.invoice_date s;
     IntakeSubmission.due_date := IntakeSubmission.due_date s;
     IntakeSubmission.description_of_debt :=
       IntakeSubmission.description_of_debt s;
     IntakeSubmission.dpa_accepted := b |}.

(** What the calculator returns for 5000 pounds 40 days overdue. *)
Definition claim_5000 : Claim.t :=
  {| Claim.days_overdue := 40;
     Claim.statutory_interest_gbp := of_decimal 6986 2;
     Claim.compensation_gbp := 70;
     Claim.total_claim_gbp := of_decimal 513986 2 |}.

Definition world_after_calculation : World :=
  {| clock_reads := 1; files := ∅; outbox := []; log := [] |}.

End Example.

(** ** Decimal digits *)

Definition is_ascii_digit (c : N) : bool := ((48 <=? c) && (c <=? 57))%N.

(** [int(s)] for a string of ASCII digits. *)
Definition int_of_digits (s : pystr) : Z :=
  fold_left (fun a c => 10 * a + (Z.of_N c - 48)) s 0.

(** A date written [YYYY-MM-DD], zero padded. *)
Definition iso_date (y m d : Z) : pystr :=
  zero_pad 4 y ++ str "-" ++ zero_pad 2 m ++ str "-" ++ zero_pad 2 d.

(** ** Further processes *)

Module Example2.

(** The process of [Example] with no API key in its environment. *)
Definition env_no_key : Env :=
  {| clock := clock Example.env;
     py_hash := py_hash Example.env;
     unicode_decimal := unicode_decimal Example.env;
     SENDGRID_API_KEY := None;
     file_write := file_write Example.env;
     import_requests := import_requests Example.env;
     http_send := http_send Example.env |}.

(** The process of [Example] on a directory it may not write to. *)
Definition env_read_only : Env :=
  {| clock := clock Example.env;
     py_hash := py_hash Example.env;
     unicode_decimal := unicode_decimal Example.env;
     SENDGRID_API_KEY := SENDGRID_API_KEY Example.env;
     file_write := fun _ _ =>
       open_raises {| exc_class := "PermissionError";
                      exc_str := str "[Errno 13] Permission denied" |};
     import_requests := import_requests Example.env;
     http_send := http_send Example.env |}.

(** The process of [Example] with a file encoding that cannot write
    the pound sign. *)
Definition env_ascii_files : Env :=
  {| clock := clock Example.env;
     py_hash := py_hash Example.env;
     unicode_decimal := unicode_decimal Example.env;
     SENDGRID_API_KEY := SENDGRID_API_KEY Example.env;
     file_write := fun _ _ =>
       write_raises {| exc_class := "UnicodeEncodeError";
                       exc_str := str "'ascii' codec can't encode character" |};
     import_requests := import_requests Example.env;
     http_send := http_send Example.env |}.

Definition with_due_date (due : pystr) (s : IntakeSubmission.t)
  : IntakeSubmission.t :=
  {| IntakeSubmission.client_email := IntakeSubmission.client_email s;
     IntakeSubmission.client_name := IntakeSubmission.client_name s;
     IntakeSubmission.client_business := IntakeSubmission.client_business s;
     IntakeSubmission.debtor_name := IntakeSubmission.debtor_name s;
     IntakeSubmission.debtor_address := IntakeSubmission.debtor_address s;
     IntakeSubmission.debtor_type := IntakeSubmission.debtor_type s;
     IntakeSubmission.amount_owed_gbp := IntakeSubmission.amount_owed_gbp s;
     IntakeSubmission.invoice_date := IntakeSubmission.invoice_date s;
     IntakeSubmission.due_date := due;
     IntakeSubmission.description_of_debt :=
       IntakeSubmission.description_of_debt s;
     IntakeSubmission.dpa_accepted := IntakeSubmission.dpa_accepted s |}.

End Example2.

(** ** Principals the accuracy of the interest is stated for *)

(** Zero, or a positive finite float [m * 2^e] with [E <= e]. For
    [E = -900] these are zero and every positive float of binary64 from
    [2^-848] on. *)
Definition exponent_ge (E : Z) (x : float) : Prop :=
  match x with
  | S754_zero _ => True
  | S754_finite s _ e => s = false /\ E <= e
  | _ => False
  end.

(** * Properties *)

(** ** Dates *)

Lemma days_before_year_succ y :
  days_before_year (y + 1) = days_before_year y + 365 + (if is_leap y then 1 else 0).
Proof.
  unfold days_before_year, is_leap.
  replace (y + 1 - 1) with y by lia.
  destruct (Z.eqb_spec (y mod 4) 0), (Z.eqb_spec (y mod 100) 0),
    (Z.eqb_spec (y mod 400) 0); simpl; Z.div_mod_to_equations; lia.
Qed.

Lemma days_before_year_mono y1 y2 :
  y1 <= y2 -> days_before_year y1 <= days_before_year y2.
Proof.
  unfold days_before_year. intros H. Z.div_mod_to_equations. lia.
Qed.

Lemma month_cases m :
  1 <= m <= 12 ->
  m = 1 \/ m = 2 \/ m = 3 \/ m = 4 \/ m = 5 \/ m = 6 \/
  m = 7 \/ m = 8 \/ m = 9 \/ m = 10 \/ m = 11 \/ m = 12.
Proof. lia. Qed.

Ltac each_month H :=
  apply month_cases in H;
  repeat (destruct H as [H | H]); subst.

(** The days of a year before a month and in it stay within the year. *)
Lemma day_of_year_bound y m d :
  1 <= m <= 12 -> 1 <= d <= days_in_month y m ->
  1 <= days_before_month y m + d <= 365 + (if is_leap y then 1 else 0).
Proof.
  intros Hm Hd. unfold days_before_month, days_in_month in *.
  each_month Hm; destruct (is_leap y); simpl in *; lia.
Qed.

Lemma days_before_month_mono y m1 m2 d :
  1 <= m1 <= 12 -> 1 <= m2 <= 12 -> m1 < m2 ->
  1 <= d <= days_in_month y m1 ->
  days_before_month y m1 + d <= days_before_month y m2.
Proof.
  intros H1 H2 Hlt Hd. unfold days_before_month, days_in_month in *.
  each_month H1; each_month H2; try lia;
    destruct (is_leap y); simpl in *; lia.
Qed.

(** The ordinal of a date grows with the date. *)
Lemma toordinal_mono a b :
  datetime_ok a = true -> datetime_ok b = true ->
  date_leb (date_of a) (date_of b) = true ->
  toordinal a <= toordinal b.
Proof.
  unfold datetime_ok, date_leb, date_of, toordinal, ymd2ord.
  destruct a as [y1 m1 d1 ? ? ? ?], b as [y2 m2 d2 ? ? ? ?]; simpl.
  intros Ha Hb Hle.
  repeat (apply andb_prop in Ha; destruct Ha as [Ha ?]).
  repeat (apply andb_prop in Hb; destruct Hb as [Hb ?]).
  assert (Hd1 := day_of_year_bound y1 m1 d1 ltac:(lia) ltac:(lia)).
  assert (Hd2 := day_of_year_bound y2 m2 d2 ltac:(lia) ltac:(lia)).
  apply orb_prop in Hle. destruct Hle as [Hy | Hle].
  - assert (Hs := days_before_year_succ y1).
    assert (Hmono := days_before_year_mono (y1 + 1) y2 ltac:(lia)). lia.
  - apply andb_prop in Hle. destruct Hle as [Hy Hle].
    assert (y1 = y2) by lia. subst y2.
    apply orb_prop in Hle. destruct Hle as [Hm | Hle].
    + assert (Hmm := days_before_month_mono y1 m1 m2 d1
                       ltac:(lia) ltac:(lia) ltac:(lia) ltac:(lia)). lia.
    + apply andb_prop in Hle. destruct Hle as [Hm Hd].
      assert (m1 = m2) by lia. subst m2. lia.
Qed.

(** Whole days between a moment and a midnight: the difference of the
    ordinals of the two dates, whatever the time of the day. *)
Lemma timedelta_days_midnight a y m d :
  datetime_ok a = true ->
  timedelta_days a (mk_datetime y m d 0 0 0 0)
  = toordinal a - ymd2ord y m d.
Proof.
  unfold datetime_ok, timedelta_days, toordinal. simpl. intros Ha.
  repeat (apply andb_prop in Ha; destruct Ha as [Ha ?]).
  replace (microsecond a - 0) with (microsecond a) by lia.
  rewrite (Z.div_small (microsecond a)) by lia.
  rewrite Z.div_small by lia. lia.
Qed.

(** ** What [strptime] returns *)

Section StrptimeFacts.

Variable env : Env.

Lemma decimal_digit_range c v :
  decimal_digit env c = Some v -> 0 <= v <= 9.
Proof.
  unfold decimal_digit.
  destruct ((48 <=? c)%N && (c <=? 57)%N) eqn:E.
  - intros [= <-]. apply andb_prop in E as [E1 E2].
    apply N.leb_le in E1, E2. lia.
  - destruct (unicode_decimal env c) as [u|]; [|discriminate].
    destruct ((0 <=? u) && (u <=? 9)) eqn:E'; [|discriminate].
    intros [= <-]. apply andb_prop in E'. lia.
Qed.

Lemma digit_between_range lo hi c v :
  digit_between lo hi c = Some v -> lo <= v <= hi.
Proof.
  unfold digit_between.
  destruct ((lo <=? Z.of_N c - 48) && (Z.of_N c - 48 <=? hi)) eqn:E;
    [|discriminate].
  intros [= <-]. apply andb_prop in E. lia.
Qed.

Lemma orelse_Some {A} (a b : option A) r :
  orelse a b = Some r -> a = Some r \/ b = Some r.
Proof. destruct a; simpl; auto. Qed.

Lemma re_two_Some {A} lo hi (snd : N -> option Z) s
    (k : Z -> pystr -> option A) r :
  re_two lo hi snd s k = Some r ->
  exists c a b s', lo <= a <= hi /\ snd c = Some b /\ k (10 * a + b) s' = Some r.
Proof.
  unfold re_two. destruct s as [|c1 [|c2 s']]; try discriminate.
  destruct (digit_between lo hi c1) as [a|] eqn:Ea; [|discriminate].
  destruct (snd c2) as [b|] eqn:Eb; [|discriminate].
  intros H. exists c2, a, b, s'. eauto using digit_between_range.
Qed.

Lemma re_one_Some {A} s (k : Z -> pystr -> option A) r :
  re_one s k = Some r -> exists a s', 1 <= a <= 9 /\ k a s' = Some r.
Proof.
  unfold re_one. destruct s as [|c s']; try discriminate.
  destruct (digit_between 1 9 c) as [a|] eqn:Ea; [|discriminate].
  intros H. exists a, s'. eauto using digit_between_range.
Qed.

Lemma re_m_Some {A} s (k : Z -> pystr -> option A) r :
  re_m s k = Some r -> exists m s', 1 <= m <= 12 /\ k m s' = Some r.
Proof.
  unfold re_m. intros H.
  repeat (apply orelse_Some in H; destruct H as [H | H]).
  - apply re_two_Some in H as (c & a & b & s' & Ha & Hb & Hk).
    apply digit_between_range in Hb. exists (10 * a + b), s'. split; [lia | done].
  - apply re_two_Some in H as (c & a & b & s' & Ha & Hb & Hk).
    apply digit_between_range in Hb. exists (10 * a + b), s'. split; [lia | done].
  - apply re_one_Some in H as (a & s' & Ha & Hk). exists a, s'. split; [lia | done].
Qed.

Lemma re_d_Some {A} s (k : Z -> pystr -> option A) r :
  re_d env s k = Some r -> exists d s', 1 <= d <= 31 /\ k d s' = Some r.
Proof.
  unfold re_d. intros H.
  repeat (apply orelse_Some in H; destruct H as [H | H]).
  - apply re_two_Some in H as (c & a & b & s' & Ha & Hb & Hk).
    apply digit_between_range in Hb. exists (10 * a + b), s'. split; [lia | done].
  - apply re_two_Some in H as (c & a & b & s' & Ha & Hb & Hk).
    apply decimal_digit_range in Hb. exists (10 * a + b), s'. split; [lia | done].
  - apply re_two_Some in H as (c & a & b & s' & Ha & Hb & Hk).
    apply digit_between_range in Hb. exists (10 * a + b), s'. split; [lia | done].
  - apply re_one_Some in H as (a & s' & Ha & Hk). exists a, s'. split; [lia | done].
  - unfold re_char in H. destruct s as [|c s']; try discriminate.
    destruct (c =? 32)%N; [|discriminate].
    apply re_one_Some in H as (a & s'' & Ha & Hk). exists a, s''. split; [lia | done].
Qed.

Lemma re_Y_Some {A} s (k : Z -> pystr -> option A) r :
  re_Y env s k = Some r -> exists y s', 0 <= y <= 9999 /\ k y s' = Some r.
Proof.
  unfold re_Y. destruct s as [|c1 [|c2 [|c3 [|c4 s']]]]; try discriminate.
  destruct (decimal_digit env c1) as [a|] eqn:E1; [|discriminate].
  destruct (decimal_digit env c2) as [b|] eqn:E2; [|discriminate].
  destruct (decimal_digit env c3) as [c|] eqn:E3; [|discriminate].
  destruct (decimal_digit env c4) as [d|] eqn:E4; [|discriminate].
  apply decimal_digit_range in E1, E2, E3, E4.
  intros H. exists (1000 * a + 100 * b + 10 * c + d), s'. split; [lia | done].
Qed.

Lemma re_char_Some {A} c s (k : pystr -> option A) r :
  re_char c s k = Some r -> exists s', k s' = Some r.
Proof.
  unfold re_char. destruct s as [|c' s']; try discriminate.
  destruct (c' =? c)%N; [|discriminate]. eauto.
Qed.

Lemma format_regex_match_range s y m d rest :
  format_regex_match env s = Some (y, m, d, rest) ->
  0 <= y <= 9999 /\ 1 <= m <= 12 /\ 1 <= d <= 31.
Proof.
  unfold format_regex_match. intros H.
  apply re_Y_Some in H as (y' & s1 & Hy & H).
  apply re_char_Some in H as (s2 & H).
  apply re_m_Some in H as (m' & s3 & Hm & H).
  apply re_char_Some in H as (s4 & H).
  apply re_d_Some in H as (d' & s5 & Hd & H).
  injection H as <- <- <- <-. auto.
Qed.

(** A parsed due date is a date of the calendar, at midnight. *)
Lemma strptime_inr s t :
  strptime env s = inr t ->
  datetime_ok t = true /\
  t = mk_datetime (year t) (month t) (day t) 0 0 0 0.
Proof.
  unfold strptime.
  destruct (format_regex_match env s) as [[[[y m] d] rest]|] eqn:E;
    [|discriminate].
  apply format_regex_match_range in E as (Hy & Hm & Hd).
  destruct rest; [|discriminate].
  destruct (Z.ltb_spec y 1); [discriminate|].
  destruct (Z.ltb_spec (days_in_month y m) d); [discriminate|].
  intros [= <-]. split; [|reflexivity].
  unfold datetime_ok. simpl.
  repeat (apply andb_true_intro; split); lia.
Qed.

(** Why [strptime] fails: never for a float that is not a number. *)
Lemma strptime_inl s why :
  strptime env s = inl why -> why <> cannot_convert_float_NaN_to_integer.
Proof.
  unfold strptime.
  destruct (format_regex_match env s) as [[[[y m] d] rest]|];
    [|intros [= <-]; discriminate].
  destruct rest; [|intros [= <-]; discriminate].
  destruct (y <? 1); [intros [= <-]; discriminate|].
  destruct (days_in_month y m <? d); [intros [= <-]; discriminate|].
  discriminate.
Qed.

End StrptimeFacts.

(** ** Floats: comparison, rounding to an integer *)

Lemma compare_cont_antisym c p q :
  Pos.compare_cont (CompOpp c) q p = CompOpp (Pos.compare_cont c p q).
Proof. symmetry. apply Pos.compare_cont_antisym. Qed.

(** Comparing the other way round gives the opposite answer. *)
Lemma SFcompare_antisym x y c :
  SFcompare x y = Some c -> SFcompare y x = Some (CompOpp c).
Proof.
  destruct x as [sx|sx| |sx mx ex], y as [sy|sy| |sy my ey]; simpl;
    try discriminate; intros [= <-]; f_equal;
    repeat match goal with b : bool |- _ => destruct b end;
    try reflexivity;
    rewrite (Z.compare_antisym ex ey);
    destruct (Z.compare_spec ex ey); simpl; try reflexivity;
    rewrite <- (compare_cont_antisym Eq); simpl;
    try reflexivity; symmetry; apply CompOpp_involutive.
Qed.

(** [x < t] is false for a number [x] exactly when [t <= x]. *)
Lemma ltb_false_leb x t :
  is_nan x = false -> is_nan t = false ->
  ltb x t = false -> leb t x = true.
Proof.
  unfold ltb, leb, SFltb, SFleb. intros Hx Ht.
  destruct (SFcompare x t) as [c|] eqn:E.
  - apply SFcompare_antisym in E. rewrite E. destruct c; simpl; congruence.
  - destruct x, t; simpl in *; discriminate.
Qed.

Lemma leb_ltb_false x t : leb t x = true -> ltb x t = false.
Proof.
  unfold ltb, leb, SFltb, SFleb.
  destruct (SFcompare t x) as [c|] eqn:E; [|discriminate].
  apply SFcompare_antisym in E. rewrite E. destruct c; simpl; congruence.
Qed.

Lemma round_half_even_nearest m e :
  e < 0 ->
  let d := 2 ^ (- e) in
  let err := round_half_even m e * d - Z.pos m in
  2 * Z.abs err <= d /\ (2 * Z.abs err = d -> Z.even (round_half_even m e) = true).
Proof.
  intros He. unfold round_half_even.
  destruct (Z.leb_spec 0 e); [lia|].
  assert (Hd : 0 < 2 ^ (- e)) by (apply Z.pow_pos_nonneg; lia).
  set (d := 2 ^ (- e)) in *.
  assert (Hdm := Z.div_mod (Z.pos m) d ltac:(lia)).
  assert (Hr := Z.mod_pos_bound (Z.pos m) d Hd).
  set (q := Z.pos m / d) in *. set (r := Z.pos m mod d) in *.
  cbv zeta.
  destruct (Z.compare_spec (2 * r) d) as [Heq | Hlt | Hgt].
  - destruct (Z.even q) eqn:Hq.
    + split; [lia | auto].
    + split; [lia|]. intros _. rewrite Z.even_add, Hq. reflexivity.
  - split; lia.
  - split; lia.
Qed.

(** [round] returns the nearest integer, ties to even. *)
Lemma round_nearest x n : round x = inr n -> nearest_integer x n.
Proof.
  destruct x as [s|s| |s m e]; simpl; try discriminate.
  - intros [= <-]. reflexivity.
  - intros [= <-]. destruct (Z.leb_spec 0 e) as [He | He].
    + unfold round_half_even. destruct (Z.leb_spec 0 e); [reflexivity | lia].
    + destruct (round_half_even_nearest m e He) as [H1 H2].
      cbv zeta in H1, H2.
      destruct s; unfold cond_Zopp.
      * rewrite Z.even_opp. split; [lia | intros; apply H2; lia].
      * auto.
Qed.

(** ** Rounding in [spec_float]: what the shifts do *)

Lemma digits2_pos_size p : digits2_pos p = Pos.size p.
Proof. induction p as [p IH | p IH |]; cbn; congruence. Qed.

(** A positive number of [d] binary digits lies between [2^(d-1)] and
    [2^d]. *)
Lemma digits_bounds p :
  2 ^ (Z.pos (digits2_pos p) - 1) <= Z.pos p < 2 ^ Z.pos (digits2_pos p).
Proof.
  rewrite digits2_pos_size. split.
  - assert (H := Pos.size_le p).
    apply Pos2Z.pos_le_pos in H. rewrite Pos2Z.inj_pow in H.
    replace (Z.pos (Pos.size p)) with (Z.succ (Z.pos (Pos.size p) - 1)) in H
      by lia.
    rewrite Z.pow_succ_r in H by lia. lia.
  - assert (H := Pos.size_gt p).
    apply Pos2Z.pos_lt_pos in H. now rewrite Pos2Z.inj_pow in H.
Qed.

Lemma digits_unique p k :
  2 ^ (k - 1) <= Z.pos p < 2 ^ k -> Z.pos (digits2_pos p) = k.
Proof.
  intros [Hlo Hhi]. destruct (digits_bounds p) as [Dlo Dhi].
  set (d := Z.pos (digits2_pos p)) in *.
  assert (Hd : 0 < d) by (unfold d; lia).
  destruct (Z.lt_trichotomy d k) as [Hlt | [Heq | Hgt]]; [|exact Heq|].
  - assert (2 ^ d <= 2 ^ (k - 1)) by (apply Z.pow_le_mono_r; lia). lia.
  - assert (k < 0 \/ 0 <= k) as [Hk | Hk] by lia.
    + rewrite (Z.pow_neg_r 2 k) in Hhi by lia. lia.
    + assert (2 ^ k <= 2 ^ (d - 1)) by (apply Z.pow_le_mono_r; lia). lia.
Qed.

(** One step of the shift halves the mantissa. *)
Lemma shr_1_m mrs : 0 <= shr_m mrs -> shr_m (shr_1 mrs) = shr_m mrs / 2.
Proof.
  destruct mrs as [m r s]. cbn [shr_m]. intros Hm. unfold shr_1.
  destruct m as [|[p|p|]|p]; cbn [shr_m].
  - reflexivity.
  - rewrite (Pos2Z.inj_xI p). Z.div_mod_to_equations. lia.
  - rewrite (Pos2Z.inj_xO p). Z.div_mod_to_equations. lia.
  - reflexivity.
  - lia.
Qed.

Lemma pow2_xO n : 2 ^ Z.pos n~0 = 2 ^ Z.pos n * 2 ^ Z.pos n.
Proof.
  rewrite <- Z.pow_add_r by lia. f_equal. lia.
Qed.

Lemma pow2_xI n : 2 ^ Z.pos n~1 = 2 * 2 ^ Z.pos n * 2 ^ Z.pos n.
Proof.
  rewrite <- Z.mul_assoc, <- pow2_xO, <- Z.pow_succ_r by lia. reflexivity.
Qed.

Lemma iter_shr_1_m n mrs :
  0 <= shr_m mrs ->
  shr_m (SpecFloat.iter_pos shr_1 n mrs) = shr_m mrs / 2 ^ Z.pos n.
Proof.
  revert mrs. induction n as [n IH | n IH |]; intros mrs Hm; cbn [SpecFloat.iter_pos].
  - assert (H1 : 0 <= shr_m (shr_1 mrs))
      by (rewrite shr_1_m by exact Hm; apply Z.div_pos; lia).
    assert (H2 : 0 <= shr_m (SpecFloat.iter_pos shr_1 n (shr_1 mrs)))
      by (rewrite IH by exact H1; apply Z.div_pos; [exact H1 | lia]).
    rewrite IH by exact H2. rewrite IH by exact H1. rewrite shr_1_m by exact Hm.
    rewrite !Z.div_div by lia. rewrite pow2_xI. f_equal. ring.
  - assert (H1 : 0 <= shr_m (SpecFloat.iter_pos shr_1 n mrs))
      by (rewrite IH by exact Hm; apply Z.div_pos; [exact Hm | lia]).
    rewrite IH by exact H1. rewrite IH by exact Hm.
    rewrite Z.div_div by lia. rewrite pow2_xO. reflexivity.
  - rewrite shr_1_m by exact Hm. reflexivity.
Qed.

Lemma shr_record_of_loc_m m l : shr_m (shr_record_of_loc m l) = m.
Proof. destruct l as [|[]]; reflexivity. Qed.

(** The shift to the exponent of the format: the exponent does not
    go down, and the mantissa is divided by the power of two that the
    exponent went up by. *)
Lemma shr_fexp_m m e l :
  0 <= m ->
  let '(mrs, e') := shr_fexp prec emax m e l in
  e <= e' /\ shr_m mrs = m / 2 ^ (e' - e) /\
  e' = Z.max e (fexp prec emax (Zdigits2 m + e)).
Proof.
  intros Hm. unfold shr_fexp, shr.
  destruct (fexp prec emax (Zdigits2 m + e) - e) as [|n|n] eqn:En.
  - rewrite shr_record_of_loc_m. replace (e - e) with 0 by lia.
    rewrite Z.div_1_r. lia.
  - rewrite iter_shr_1_m by (rewrite shr_record_of_loc_m; exact Hm).
    rewrite shr_record_of_loc_m.
    replace (e + Z.pos n - e) with (Z.pos n) by lia. lia.
  - rewrite shr_record_of_loc_m. replace (e - e) with 0 by lia.
    rewrite Z.div_1_r. lia.
Qed.

Lemma round_nearest_even_cases m l :
  round_nearest_even m l = m \/ round_nearest_even m l = m + 1.
Proof.
  destruct l as [|[]]; cbn; auto. destruct (Z.even m); auto.
Qed.

(** Rounding never produces a NaN out of a non-negative mantissa, and
    keeps the sign it is given. *)
Lemma binary_round_aux_cases s m e l :
  0 <= m ->
  binary_round_aux prec emax s m e l = S754_zero s \/
  binary_round_aux prec emax s m e l = S754_infinity s \/
  exists m' e', binary_round_aux prec emax s m e l = S754_finite s m' e' /\
                e <= e'.
Proof.
  intros Hm. unfold binary_round_aux.
  assert (H1 := shr_fexp_m m e l Hm).
  destruct (shr_fexp prec emax m e l) as [mrs' e'].
  destruct H1 as (He' & Hm' & _).
  assert (Hr : 0 <= round_nearest_even (shr_m mrs') (loc_of_shr_record mrs')).
  { assert (0 <= shr_m mrs')
      by (rewrite Hm'; apply Z.div_pos; [lia | apply Z.pow_pos_nonneg; lia]).
    destruct (round_nearest_even_cases (shr_m mrs') (loc_of_shr_record mrs'));
      lia. }
  assert (H2 := shr_fexp_m _ e' loc_Exact Hr).
  destruct (shr_fexp prec emax _ e' loc_Exact) as [mrs'' e''].
  destruct H2 as (He'' & Hm'' & _).
  assert (0 <= shr_m mrs'')
    by (rewrite Hm''; apply Z.div_pos; [lia | apply Z.pow_pos_nonneg; lia]).
  destruct (shr_m mrs'') as [|p|p]; [auto | | lia].
  destruct (e'' <=? emax - prec); [|auto].
  right; right. exists p, e''. split; [reflexivity | lia].
Qed.

Lemma fexp_eq x : fexp prec emax x = Z.max (x - 53) (-1074).
Proof. reflexivity. Qed.

(** Nothing is shifted out of a mantissa that fits the format. *)
Lemma shr_fexp_fits m e l :
  fexp prec emax (Zdigits2 m + e) <= e ->
  shr_fexp prec emax m e l = (shr_record_of_loc m l, e).
Proof.
  intros H. unfold shr_fexp, shr.
  destruct (fexp prec emax (Zdigits2 m + e) - e) eqn:E; try reflexivity. lia.
Qed.

(** Rounding a positive mantissa at an exponent of the format: the
    finite result has the sign given, an exponent that is not lower,
    and differs from the exact value by at most [2^-52] of it. *)
Lemma binary_round_aux_close s m e :
  -1074 <= e ->
  match binary_round_aux prec emax s (Z.pos m) e loc_Exact with
  | S754_finite s' mR eR =>
      s' = s /\ e <= eR /\
      Z.abs (Z.pos mR * 2 ^ (eR - e) - Z.pos m) * 2 ^ 52 <= Z.pos m
  | S754_infinity s' => s' = s
  | _ => False
  end.
Proof.
  intros He. unfold binary_round_aux.
  set (d := Z.pos (digits2_pos m)).
  destruct (digits_bounds m) as [Dlo Dhi]. fold d in Dlo, Dhi.
  destruct (Z.le_gt_cases d 53) as [Hd | Hd].
  - (* the mantissa fits: the result is exact *)
    rewrite shr_fexp_fits by (cbn [Zdigits2]; fold d; rewrite fexp_eq; lia).
    cbn [shr_record_of_loc shr_m loc_of_shr_record round_nearest_even].
    rewrite shr_fexp_fits by (cbn [Zdigits2]; fold d; rewrite fexp_eq; lia).
    cbn [shr_record_of_loc shr_m].
    destruct (e <=? emax - prec); [|reflexivity].
    replace (e - e) with 0 by lia.
    split; [reflexivity|]. split; [lia|].
    rewrite Z.pow_0_r, Z.mul_1_r, Z.sub_diag. cbn. lia.
  - (* [d - 53] digits are shifted out *)
    assert (H1 := shr_fexp_m (Z.pos m) e loc_Exact ltac:(lia)).
    destruct (shr_fexp prec emax (Z.pos m) e loc_Exact) as [mrs' e'].
    destruct H1 as (_ & Hm' & He').
    cbn [Zdigits2] in He'. fold d in He'. rewrite fexp_eq in He'.
    assert (He'eq : e' - e = d - 53) by lia.
    rewrite He'eq in Hm'.
    set (N := 2 ^ (d - 53)) in *.
    assert (HN : 0 < N) by (apply Z.pow_pos_nonneg; lia).
    assert (Hhi : 2 ^ d = 2 ^ 53 * N).
    { unfold N. rewrite <- Z.pow_add_r by lia. f_equal. lia. }
    assert (Hlo : 2 ^ (d - 1) = 2 ^ 52 * N).
    { unfold N. rewrite <- Z.pow_add_r by lia. f_equal. lia. }
    rewrite Hhi in Dhi. rewrite Hlo in Dlo.
    assert (Hdm := Z.div_mod (Z.pos m) N ltac:(lia)).
    assert (Hr := Z.mod_pos_bound (Z.pos m) N HN).
    set (m' := Z.pos m / N) in *. set (r := Z.pos m mod N) in *.
    assert (Hm'lo : 2 ^ 52 <= m') by nia.
    assert (Hm'hi : m' < 2 ^ 53) by nia.
    rewrite Hm'.
    set (m'' := round_nearest_even m' (loc_of_shr_record mrs')).
    assert (Hm'' : m'' = m' \/ m'' = m' + 1)
      by apply round_nearest_even_cases.
    clearbody m''.
    assert (H2 := shr_fexp_m m'' e' loc_Exact ltac:(lia)).
    destruct (shr_fexp prec emax m'' e' loc_Exact) as [mrs'' e''].
    destruct H2 as (_ & Hm3 & He'').
    destruct m'' as [|q|q]; try lia.
    cbn [Zdigits2] in He''. rewrite fexp_eq in He''.
    destruct (Z.eq_dec (Z.pos q) (2 ^ 53)) as [Hq | Hq].
    + (* the mantissa was rounded up to the next power of two *)
      rewrite (digits_unique q 54) in He''
        by (rewrite Hq; change (54 - 1) with 53; split; [lia|];
            apply Z.pow_lt_mono_r; lia).
      assert (He''eq : e'' - e' = 1) by lia.
      rewrite He''eq, Hq in Hm3. change (2 ^ 53 / 2 ^ 1) with (2 ^ 52) in Hm3.
      rewrite Hm3. change (2 ^ 52) with (Z.pos (2 ^ 52)%positive) at 1.
      destruct (e'' <=? emax - prec); [|reflexivity].
      split; [reflexivity|]. split; [lia|].
      replace (e'' - e) with (1 + (d - 53)) by lia.
      rewrite Z.pow_add_r by lia. fold N.
      change (Z.pos (2 ^ 52)%positive) with (2 ^ 52).
      change (2 ^ 1) with 2. nia.
    + rewrite (digits_unique q 53) in He''
        by (change (53 - 1) with 52; lia).
      assert (He''eq : e'' - e' = 0) by lia.
      rewrite He''eq, Z.pow_0_r, Z.div_1_r in Hm3. rewrite Hm3.
      destruct (e'' <=? emax - prec); [|reflexivity].
      split; [reflexivity|]. split; [lia|].
      replace (e'' - e) with (d - 53) by lia. fold N. nia.
Qed.

(** ** Exact values and the accuracy of an addition *)

Lemma iter_xO_value d m : Z.pos (Pos.iter xO m d) = Z.pos m * 2 ^ Z.pos d.
Proof.
  induction d as [|d IH] using Pos.peano_ind.
  - cbn. lia.
  - rewrite Pos.iter_succ, Pos2Z.inj_xO, IH, Pos2Z.inj_succ, Z.pow_succ_r
      by lia. ring.
Qed.

(** Aligning a mantissa to a lower exponent keeps the value. *)
Lemma shl_align_value m e e' :
  let '(m', e'') := shl_align m e e' in
  e'' = Z.min e e' /\ Z.pos m' = Z.pos m * 2 ^ (e - e'').
Proof.
  unfold shl_align. destruct (e' - e) as [|d|d] eqn:E.
  - replace (e - e) with 0 by lia. rewrite Z.pow_0_r. lia.
  - replace (e - e) with 0 by lia. rewrite Z.pow_0_r. lia.
  - rewrite iter_xO_value. replace (e - e') with (Z.pos d) by lia. lia.
Qed.

(** Rounding a positive integer mantissa, whatever its size. *)
Lemma binary_round_close s m e :
  -1074 <= e ->
  match binary_round prec emax s m e with
  | S754_finite s' mR eR =>
      s' = s /\ -1074 <= eR /\
      Z.abs (Z.pos mR * 2 ^ (eR + 1074) - Z.pos m * 2 ^ (e + 1074)) * 2 ^ 52
      <= Z.pos m * 2 ^ (e + 1074)
  | S754_infinity s' => s' = s
  | _ => False
  end.
Proof.
  intros He. unfold binary_round.
  assert (Ha := shl_align_value m e
                  (fexp prec emax (Z.pos (digits2_pos m) + e))).
  destruct (shl_align m e _) as [mz ez]. destruct Ha as [Hez Hmz].
  assert (Hez' : -1074 <= ez) by (rewrite Hez, fexp_eq; lia).
  assert (Hc := binary_round_aux_close s mz ez Hez').
  destruct (binary_round_aux prec emax s (Z.pos mz) ez loc_Exact)
    as [| s' | | s' mR eR]; try exact Hc.
  destruct Hc as (Hs & HeR & Hclose).
  split; [exact Hs|]. split; [lia|].
  assert (HP : 0 < 2 ^ (ez + 1074)) by (apply Z.pow_pos_nonneg; lia).
  assert (E1 : 2 ^ (eR + 1074) = 2 ^ (eR - ez) * 2 ^ (ez + 1074)).
  { rewrite <- Z.pow_add_r by lia. f_equal. lia. }
  assert (E2 : Z.pos m * 2 ^ (e + 1074) = Z.pos mz * 2 ^ (ez + 1074)).
  { rewrite Hmz, <- Z.mul_assoc, <- Z.pow_add_r by lia. do 2 f_equal. lia. }
  rewrite E1, E2, Z.mul_assoc, <- Z.mul_sub_distr_r, Z.abs_mul.
  rewrite (Z.abs_eq (2 ^ (ez + 1074))) by lia.
  nia.
Qed.

(** The sum of two non-negative finite floats is not a NaN; when it is
    finite it differs from the exact sum by at most [2^-52] of it. *)
Lemma add_nonneg_close x y :
  nonneg_finite x -> nonneg_finite y ->
  match add x y with
  | S754_nan => False
  | S754_infinity s => s = false
  | r => nonneg_finite r /\
         Z.abs (units r - (units x + units y)) * 2 ^ 52 <= units x + units y
  end.
Proof.
  destruct x as [sx | sx | | sx mx ex], y as [sy | sy | | sy my ey];
    unfold nonneg_finite at 1 2; try tauto.
  - intros _ _. destruct sx, sy; cbn; lia.
  - intros _ [-> Hey]. cbn [add SFadd units cond_Zopp].
    split; [split; [reflexivity | lia]|].
    assert (0 < 2 ^ (ey + 1074)) by (apply Z.pow_pos_nonneg; lia). nia.
  - intros [-> Hex] _. cbn [add SFadd units cond_Zopp].
    split; [split; [reflexivity | lia]|].
    assert (0 < 2 ^ (ex + 1074)) by (apply Z.pow_pos_nonneg; lia). nia.
  - intros [-> Hex] [-> Hey]. unfold add, SFadd.
    assert (Hx := shl_align_value mx ex (Z.min ex ey)).
    assert (Hy := shl_align_value my ey (Z.min ex ey)).
    destruct (shl_align mx ex (Z.min ex ey)) as [mx' ex'].
    destruct (shl_align my ey (Z.min ex ey)) as [my' ey'].
    destruct Hx as [Hex' Hmx'], Hy as [Hey' Hmy'].
    cbn [fst cond_Zopp].
    change (Z.pos mx' + Z.pos my') with (Z.pos (mx' + my')).
    unfold binary_normalize.
    set (ez := Z.min ex ey) in *.
    assert (Hez : -1074 <= ez) by (unfold ez; lia).
    assert (Hc := binary_round_close false (mx' + my') ez Hez).
    destruct (binary_round prec emax false (mx' + my') ez)
      as [| s' | | s' mR eR]; try contradiction; try exact Hc.
    destruct Hc as (-> & HeR & Hclose).
    split; [split; [reflexivity | exact HeR]|].
    cbn [units cond_Zopp].
    assert (Hsum : Z.pos (mx' + my') * 2 ^ (ez + 1074)
                   = Z.pos mx * 2 ^ (ex + 1074) + Z.pos my * 2 ^ (ey + 1074)).
    { rewrite Pos2Z.inj_add, Hmx', Hmy', Z.mul_add_distr_r.
      rewrite <- !Z.mul_assoc, <- !Z.pow_add_r by lia.
      f_equal; f_equal; f_equal; lia. }
    rewrite Hsum in Hclose. exact Hclose.
Qed.

(** ** Magnitudes: when rounding does not overflow *)

(** A number below [2^t] has at most [t] binary digits. *)
Lemma Zdigits2_le x t : 0 <= x < 2 ^ t -> 0 <= t -> Zdigits2 x <= t.
Proof.
  intros [Hx Hlt] Ht. destruct x as [|p|p]; cbn [Zdigits2]; [lia | | lia].
  destruct (digits_bounds p) as [Dlo _].
  assert (H : 2 ^ (Z.pos (digits2_pos p) - 1) < 2 ^ t) by lia.
  apply Z.pow_lt_mono_r_iff in H; lia.
Qed.

Lemma Zdigits2_nonneg x : 0 <= Zdigits2 x.
Proof. destruct x; cbn; lia. Qed.

(** Dividing by [2^k] takes [k] digits away. *)
Lemma Zdigits2_div x k :
  0 <= x -> 0 <= k -> 0 < x / 2 ^ k -> Zdigits2 (x / 2 ^ k) <= Zdigits2 x - k.
Proof.
  intros Hx Hk Hq.
  assert (Hp : 0 < 2 ^ k) by (apply Z.pow_pos_nonneg; lia).
  destruct x as [|p|p]; [rewrite Z.div_0_l in Hq; lia | | lia].
  destruct (digits_bounds p) as [_ Dhi]. cbn [Zdigits2].
  set (d := Z.pos (digits2_pos p)) in *.
  assert (Hge : 2 ^ k <= Z.pos p).
  { destruct (Z.le_gt_cases (2 ^ k) (Z.pos p)) as [H | H]; [exact H|].
    rewrite Z.div_small in Hq; lia. }
  assert (Hkd : k < d).
  { assert (H : 2 ^ k < 2 ^ d) by lia.
    apply Z.pow_lt_mono_r_iff in H; lia. }
  apply Zdigits2_le; [|lia]. split; [lia|].
  apply Z.div_lt_upper_bound; [lia|].
  rewrite <- Z.pow_add_r by lia. replace (k + (d - k)) with d by lia. lia.
Qed.

(** Rounding a positive mantissa [m] of [d] digits at exponent [e]:
    the finite result has at most 53 digits, its exponent is between
    [e] and the largest of [e], [d + e - 52] and [-1074], and it
    overflows only when that bound exceeds [971]. *)
Lemma binary_round_aux_bounds s m e l :
  0 < m ->
  let B := Z.max e (Z.max (Zdigits2 m + e - 52) (-1074)) in
  match binary_round_aux prec emax s m e l with
  | S754_finite s' mR eR =>
      s' = s /\ e <= eR <= B /\ eR <= 971 /\
      Z.pos (digits2_pos mR) <= 53 /\
      Z.pos (digits2_pos mR) + eR <= Z.max (Zdigits2 m + e + 1) (-1073)
  | S754_infinity s' => s' = s /\ 971 < B
  | S754_zero s' => s' = s
  | S754_nan => False
  end.
Proof.
  intros Hm B. unfold binary_round_aux.
  assert (Hd := Zdigits2_nonneg m).
  set (d := Zdigits2 m) in *.
  assert (Dhi : m < 2 ^ d).
  { destruct m as [|p|p]; try lia. apply digits_bounds. }
  assert (H1 := shr_fexp_m m e l ltac:(lia)).
  destruct (shr_fexp prec emax m e l) as [mrs' e'].
  destruct H1 as (He' & Hm' & He'eq). fold d in He'eq.
  rewrite fexp_eq in He'eq.
  set (k := e' - e) in *.
  assert (Hk : 0 <= k) by lia.
  assert (Hpk : 0 < 2 ^ k) by (apply Z.pow_pos_nonneg; lia).
  set (j := Z.max (d - k) 0).
  assert (Hm'le : 0 <= shr_m mrs' /\ shr_m mrs' + 1 <= 2 ^ j).
  { rewrite Hm'. split; [apply Z.div_pos; lia|].
    destruct (Z.le_gt_cases k d) as [Hkd | Hkd].
    - unfold j. rewrite Z.max_l by lia.
      assert (m / 2 ^ k < 2 ^ (d - k)); [|lia].
      apply Z.div_lt_upper_bound; [lia|].
      rewrite <- Z.pow_add_r by lia. replace (k + (d - k)) with d by lia. lia.
    - unfold j. rewrite Z.max_r by lia.
      assert (2 ^ d <= 2 ^ k) by (apply Z.pow_le_mono_r; lia).
      rewrite Z.div_small by lia. cbn. lia. }
  set (m'' := round_nearest_even (shr_m mrs') (loc_of_shr_record mrs')).
  assert (Hm'' : 0 <= m'' <= 2 ^ j).
  { destruct (round_nearest_even_cases (shr_m mrs') (loc_of_shr_record mrs'))
      as [H | H]; fold m'' in H; lia. }
  clearbody m''.
  assert (Hd'' : Zdigits2 m'' <= j + 1).
  { apply Zdigits2_le; [|lia]. split; [lia|].
    rewrite Z.pow_add_r by lia. change (2 ^ 1) with 2.
    assert (0 < 2 ^ j); [|lia].
    apply Z.pow_pos_nonneg; lia. }
  assert (Hd''0 := Zdigits2_nonneg m'').
  assert (H2 := shr_fexp_m m'' e' loc_Exact ltac:(lia)).
  destruct (shr_fexp prec emax m'' e' loc_Exact) as [mrs'' e''].
  destruct H2 as (He'' & HmR & He''eq). rewrite fexp_eq in He''eq.
  assert (0 <= shr_m mrs'')
    by (rewrite HmR; apply Z.div_pos; [lia | apply Z.pow_pos_nonneg; lia]).
  destruct (shr_m mrs'') as [|mR|mR] eqn:EmR; [reflexivity | | lia].
  assert (HdR : Z.pos (digits2_pos mR) <= Zdigits2 m'' - (e'' - e')).
  { change (Z.pos (digits2_pos mR)) with (Zdigits2 (Z.pos mR)).
    rewrite HmR. apply Zdigits2_div; lia. }
  assert (HB : e'' <= B) by (unfold B; fold d; lia).
  destruct (Z.leb_spec e'' (emax - prec)) as [Hof | Hof].
  - change (emax - prec) with 971 in Hof.
    split; [reflexivity|]. split; [lia|]. split; [lia|].
    split; [lia|]. fold d. lia.
  - change (emax - prec) with 971 in Hof. split; [reflexivity | lia].
Qed.

Lemma mul_bounded Ex Mx Ey My x y :
  bounded_by Ex Mx x -> bounded_by Ey My y ->
  Z.max (Ex + Ey) (Z.max (Mx + My - 52) (-1074)) <= 971 ->
  bounded_by (Z.max (Ex + Ey) (Z.max (Mx + My - 52) (-1074)))
             (Z.max (Mx + My + 1) (-1073)) (mul x y).
Proof.
  destruct x as [sx | sx | | sx mx ex], y as [sy | sy | | sy my ey];
    unfold bounded_by at 1 2; try tauto; try (intros; exact I).
  intros [Hex Hmx] [Hey Hmy] HB. unfold mul, SFmul.
  assert (Hd : Zdigits2 (Z.pos (mx * my))
               <= Z.pos (digits2_pos mx) + Z.pos (digits2_pos my)).
  { apply Zdigits2_le; [|lia]. split; [lia|].
    rewrite Pos2Z.inj_mul, Z.pow_add_r by lia.
    destruct (digits_bounds mx) as [_ H1], (digits_bounds my) as [_ H2]. nia. }
  assert (H := binary_round_aux_bounds (xorb sx sy) (Z.pos (mx * my))
                 (ex + ey) loc_Exact ltac:(lia)).
  cbv zeta in H.
  destruct (binary_round_aux prec emax _ _ _ _) as [s' | s' | | s' mR eR];
    [exact I | | contradiction |].
  - destruct H as [_ H]. lia.
  - destruct H as (_ & HeR & _ & _ & HM). cbn [bounded_by]. lia.
Qed.

(** The integers the calculator converts are floats. *)
Lemma of_int_bounded n : 0 <= n < 2 ^ 22 -> bounded_by 0 23 (of_int n).
Proof.
  intros [Hn Hlt]. unfold of_int, binary_normalize.
  destruct n as [|p|p]; [exact I | | lia].
  unfold binary_round.
  assert (Hdp : Z.pos (digits2_pos p) <= 22)
    by (apply (Zdigits2_le (Z.pos p)); lia).
  destruct (digits_bounds p) as [_ Dhi].
  assert (Ha := shl_align_value p 0
                  (fexp prec emax (Z.pos (digits2_pos p) + 0))).
  destruct (shl_align p 0 _) as [mz ez]. destruct Ha as [Hez Hmz].
  rewrite fexp_eq in Hez.
  assert (Hdz : Zdigits2 (Z.pos mz) <= Z.pos (digits2_pos p) - ez).
  { apply Zdigits2_le; [|lia]. split; [lia|].
    rewrite Hmz. replace (Z.pos (digits2_pos p) - ez)
      with (Z.pos (digits2_pos p) + (0 - ez)) by lia.
    rewrite Z.pow_add_r by lia.
    assert (0 < 2 ^ (0 - ez)) by (apply Z.pow_pos_nonneg; lia). nia. }
  assert (H := binary_round_aux_bounds false (Z.pos mz) ez loc_Exact
                 ltac:(lia)).
  cbv zeta in H.
  destruct (binary_round_aux prec emax _ _ _ _) as [s' | s' | | s' mR eR];
    [exact I | | contradiction |].
  - destruct H as [_ H]. lia.
  - destruct H as (_ & HeR & _ & _ & HM). cbn [bounded_by]. lia.
Qed.

(** A float of binary64 below [2^K] in absolute value. *)
Lemma valid_bounded K p :
  valid p = true -> magnitude_le K p ->
  bounded_by (Z.max (K - 53) (-1074)) K p.
Proof.
  destruct p as [s | s | | s m e]; cbn [magnitude_le bounded_by]; try tauto.
  intros Hv HK. split; [|exact HK].
  unfold valid, valid_binary, bounded, canonical_mantissa in Hv.
  apply andb_prop in Hv as [Hc _]. apply Z.eqb_eq in Hc.
  rewrite fexp_eq in Hc. lia.
Qed.

Lemma daily_rate_bounded : bounded_by (-64) (-11) daily_rate.
Proof. vm_compute. split; discriminate. Qed.

Lemma of_int_100_bounded : bounded_by (-46) 7 (of_int 100).
Proof. vm_compute. split; discriminate. Qed.

(** The ordinal of a date of the calendar. *)
Lemma toordinal_range t :
  datetime_ok t = true -> 1 <= toordinal t <= 3652060.
Proof.
  unfold datetime_ok, toordinal, ymd2ord. intros Ht.
  repeat (apply andb_prop in Ht; destruct Ht as [Ht ?]).
  assert (Hd := day_of_year_bound (year t) (month t) (day t)
                  ltac:(lia) ltac:(lia)).
  assert (Hlo := days_before_year_mono 1 (year t) ltac:(lia)).
  assert (Hhi := days_before_year_mono (year t) 9999 ltac:(lia)).
  change (days_before_year 1) with 0 in Hlo.
  change (days_before_year 9999) with 3651694 in Hhi.
  destruct (is_leap (year t)); lia.
Qed.

(** The product the calculator rounds is finite for every principal of
    binary64 below [2^1000] in absolute value and every number of days
    between two dates of the calendar. *)
Lemma scaled_product_finite p days :
  valid p = true -> magnitude_le 1000 p -> 0 <= days < 2 ^ 22 ->
  is_finite (scaled_product p days) = true.
Proof.
  intros Hv Hp Hdays. unfold scaled_product.
  assert (H1 := mul_bounded _ _ _ _ p daily_rate
                  (valid_bounded 1000 p Hv Hp) daily_rate_bounded ltac:(lia)).
  assert (H2 := mul_bounded _ _ _ _ _ (of_int days) H1
                  (of_int_bounded days Hdays) ltac:(lia)).
  assert (H3 := mul_bounded _ _ _ _ _ (of_int 100) H2
                  of_int_100_bounded ltac:(lia)).
  destruct (mul (mul (mul p daily_rate) (of_int days)) (of_int 100));
    cbn in H3; try contradiction; reflexivity.
Qed.

(** ** Signs through the calculation *)

Lemma mul_not_negative x y :
  not_negative x -> not_negative y -> not_negative (mul x y).
Proof.
  destruct x as [sx | sx | | sx mx ex], y as [sy | sy | | sy my ey];
    unfold not_negative at 1 2; intros Hx Hy; subst; try exact I;
    try reflexivity.
  unfold mul, SFmul. cbn [xorb].
  destruct (binary_round_aux_cases false (Z.pos (mx * my)) (ex + ey) loc_Exact
              ltac:(lia)) as [-> | [-> | (m' & e' & -> & _)]];
    cbn; auto.
Qed.

Lemma of_int_not_negative n : 0 <= n -> nonneg_finite (of_int n) \/
                                        of_int n = S754_infinity false.
Proof.
  intros Hn. unfold of_int, binary_normalize.
  destruct n as [|m|m]; [left; exact I | | lia].
  assert (H := binary_round_close false m 0 ltac:(lia)).
  destruct (binary_round prec emax false m 0) as [| s' | | s' mR eR];
    try contradiction.
  - right. now subst.
  - left. cbn. tauto.
Qed.

Lemma round_half_even_nonneg m e : 0 <= round_half_even m e.
Proof.
  unfold round_half_even. destruct (0 <=? e).
  - apply Z.mul_nonneg_nonneg; [lia | apply Z.pow_nonneg; lia].
  - assert (Hd : 0 < 2 ^ (- e) \/ 2 ^ (- e) = 0).
    { assert (0 <= 2 ^ (- e)) by (apply Z.pow_nonneg; lia). lia. }
    assert (0 <= Z.pos m / 2 ^ (- e)).
    { destruct Hd as [Hd | ->]; [apply Z.div_pos; lia|].
      rewrite Z.div_0_r. lia. }
    cbv zeta. destruct (_ ?= _); [destruct (Z.even _)| |]; lia.
Qed.

Lemma round_not_negative x cents :
  not_negative x -> round x = inr cents -> 0 <= cents.
Proof.
  destruct x as [s | s | | s m e]; cbn; try discriminate.
  - intros _ [= <-]. lia.
  - intros -> [= <-]. apply round_half_even_nonneg.
Qed.

(** True division of a non-negative integer by 100. *)
Lemma int_truediv_100_not_negative cents :
  0 <= cents ->
  nonneg_finite (int_truediv cents 100) \/
  int_truediv cents 100 = S754_infinity false.
Proof.
  intros Hc. unfold int_truediv.
  destruct cents as [|c|c]; [left; exact I | | lia].
  unfold SFdiv_core_binary. change (Z.abs (Z.pos c)) with (Z.pos c).
  change (Z.pos c <? 0) with false.
  set (e' := Z.min _ _).
  assert (He' : -1074 <= e').
  { unfold e'. rewrite fexp_eq. lia. }
  set (m' := match 0 - 0 - e' with
             | 0 => Z.pos c
             | Z.pos _ => Z.shiftl (Z.pos c) (0 - 0 - e')
             | Z.neg _ => 0
             end).
  assert (Hm' : 0 <= m').
  { unfold m'. destruct (0 - 0 - e'); try lia.
    apply Z.shiftl_nonneg. lia. }
  assert (Hq : 0 <= fst (IntDef.Z.div_eucl m' 100)).
  { change (fst (IntDef.Z.div_eucl m' 100)) with (m' / 100).
    apply Z.div_pos; lia. }
  destruct (IntDef.Z.div_eucl m' 100) as [q r]. cbn [fst] in Hq.
  cbv beta iota.
  destruct (binary_round_aux_cases false q e' (new_location 100 r) Hq)
    as [-> | [-> | (m'' & e'' & -> & He'')]].
  - left. exact I.
  - right. reflexivity.
  - left. cbn. split; [reflexivity | lia].
Qed.

Lemma daily_rate_not_negative : not_negative daily_rate.
Proof. vm_compute. reflexivity. Qed.

Lemma of_int_100_not_negative : not_negative (of_int 100).
Proof. vm_compute. reflexivity. Qed.

(** The interest on a principal that is not negative. *)
Lemma interest_not_negative p days i :
  not_negative p -> 0 <= days -> interest p days = inr i ->
  nonneg_finite i \/ i = S754_infinity false.
Proof.
  intros Hp Hdays. unfold interest.
  assert (Hd : not_negative (of_int days)).
  { destruct (of_int_not_negative days Hdays) as [H | ->]; [|reflexivity].
    destruct (of_int days); cbn in *; tauto. }
  assert (Hx : not_negative
                 (mul (mul (mul p daily_rate) (of_int days)) (of_int 100))).
  { apply mul_not_negative; [|exact of_int_100_not_negative].
    apply mul_not_negative; [|exact Hd].
    apply mul_not_negative; [exact Hp | exact daily_rate_not_negative]. }
  destruct (round _) as [e | cents] eqn:Hr; [discriminate|].
  intros [= <-]. apply int_truediv_100_not_negative.
  exact (round_not_negative _ _ Hx Hr).
Qed.

(** A float of binary64 that is at least zero. *)
Lemma valid_nonneg p :
  valid p = true -> leb (S754_zero false) p = true ->
  nonneg_finite p \/ p = S754_infinity false.
Proof.
  destruct p as [s | s | | s m e]; cbn; try discriminate.
  - auto.
  - destruct s; [discriminate | auto].
  - intros Hv Hs. left. destruct s; [discriminate|].
    split; [reflexivity|].
    unfold valid, valid_binary, bounded, canonical_mantissa in Hv.
    apply andb_prop in Hv as [Hc _]. apply Z.eqb_eq in Hc.
    rewrite fexp_eq in Hc. lia.
Qed.

Lemma nonneg_finite_leb x :
  nonneg_finite x \/ x = S754_infinity false ->
  leb (S754_zero false) x = true.
Proof.
  intros [H | ->]; [|reflexivity].
  destruct x as [s | s | | s m e]; cbn in H; try contradiction.
  - reflexivity.
  - destruct H as [-> _]. reflexivity.
Qed.

Lemma nonneg_finite_not_negative x :
  nonneg_finite x \/ x = S754_infinity false -> not_negative x.
Proof.
  intros [H | ->]; [|reflexivity].
  destruct x; cbn in *; tauto.
Qed.

(** The compensation as a float. *)
Lemma compensation_float p :
  0 < compensation p /\
  nonneg_finite (of_int (compensation p)) /\
  units (of_int (compensation p)) = pounds (compensation p).
Proof.
  unfold compensation.
  destruct (ltb p (of_int 1000)); [|destruct (ltb p (of_int 10000))];
    (split; [lia|]); (split; [vm_compute; split; [reflexivity | discriminate]|]);
    vm_compute; reflexivity.
Qed.

Lemma daily_rate_eq : daily_rate = S754_finite false 6443725669583474 (-64).
Proof. vm_compute. reflexivity. Qed.

Lemma of_int_100_eq : of_int 100 = S754_finite false 7036874417766400 (-46).
Proof. vm_compute. reflexivity. Qed.

(** The calculator does not return for an infinite principal. *)
Lemma interest_infinite s days i : interest (S754_infinity s) days = inr i -> False.
Proof.
  unfold interest. rewrite daily_rate_eq, of_int_100_eq.
  destruct (of_int days) as [s' | s' | | s' m' e']; unfold mul, SFmul, round;
    discriminate.
Qed.

Lemma add_infinity_r x :
  nonneg_finite x -> add x (S754_infinity false) = S754_infinity false.
Proof. destruct x; cbn; tauto. Qed.

Lemma add_infinity_l y :
  nonneg_finite y -> add (S754_infinity false) y = S754_infinity false.
Proof. destruct y; cbn; tauto. Qed.

(** ** The interest is a finite float *)

Lemma round_half_even_lt m e :
  Z.pos (digits2_pos m) <= 53 -> e <= 971 -> round_half_even m e < 2 ^ 1025.
Proof.
  intros Hd He. destruct (digits_bounds m) as [_ Dhi].
  assert (Hm : Z.pos m < 2 ^ 53).
  { assert (2 ^ Z.pos (digits2_pos m) <= 2 ^ 53)
      by (apply Z.pow_le_mono_r; lia). lia. }
  unfold round_half_even. destruct (Z.leb_spec 0 e) as [H0 | H0].
  - assert (2 ^ e <= 2 ^ 971) by (apply Z.pow_le_mono_r; lia).
    assert (0 < 2 ^ e) by (apply Z.pow_pos_nonneg; lia).
    change (2 ^ 1025) with (2 ^ 53 * 2 ^ 971 * 2). nia.
  - assert (Hp : 0 < 2 ^ (- e)) by (apply Z.pow_pos_nonneg; lia).
    assert (Z.pos m / 2 ^ (- e) <= Z.pos m)
      by (apply Z.div_le_upper_bound; nia).
    assert (2 ^ 53 + 1 < 2 ^ 1025) by (vm_compute; reflexivity).
    cbv zeta. destruct (_ ?= _); [destruct (Z.even _)| |]; lia.
Qed.

(** A product by a finite float, when finite, is a float of binary64. *)
Lemma mul_finite_canonical x sy my ey :
  match mul x (S754_finite sy my ey) with
  | S754_finite _ m e => Z.pos (digits2_pos m) <= 53 /\ e <= 971
  | _ => True
  end.
Proof.
  destruct x as [sx | sx | | sx mx ex]; cbn [mul SFmul]; try exact I.
  unfold mul, SFmul.
  assert (H := binary_round_aux_bounds (xorb sx sy) (Z.pos (mx * my))
                 (ex + ey) loc_Exact ltac:(lia)).
  cbv zeta in H.
  destruct (binary_round_aux prec emax _ _ _ _); try exact I. tauto.
Qed.

Lemma div_core_100_finite sgn c :
  Z.pos c < 2 ^ 1025 ->
  is_finite
    (let '(q, e, l) := SFdiv_core_binary prec emax (Z.pos c) 0 100 0 in
     binary_round_aux prec emax sgn q e l) = true.
Proof.
  intros Ha. unfold SFdiv_core_binary. cbn [Zdigits2].
  change (Z.pos (digits2_pos 100)) with 7.
  set (d1 := Z.pos (digits2_pos c)).
  destruct (digits_bounds c) as [Dlo Dhi]. fold d1 in Dlo, Dhi.
  assert (Hd1 : d1 <= 1025).
  { apply (Zdigits2_le (Z.pos c)); [split; [lia | exact Ha] | lia]. }
  assert (Hd0 : 0 < d1) by (unfold d1; lia).
  rewrite fexp_eq.
  set (e' := Z.min (Z.max (d1 + 0 - (7 + 0) - 53) (-1074)) (0 - 0)).
  assert (He' : e' <= 0 /\ 60 <= d1 - e') by (unfold e'; lia).
  set (m' := match 0 - 0 - e' with
             | 0 => Z.pos c
             | Z.pos _ => Z.shiftl (Z.pos c) (0 - 0 - e')
             | Z.neg _ => 0
             end).
  assert (Hm' : m' = Z.pos c * 2 ^ (- e')).
  { unfold m'. destruct (0 - 0 - e') eqn:E.
    - replace (- e') with 0 by lia. rewrite Z.pow_0_r. lia.
    - rewrite Z.shiftl_mul_pow2 by lia. do 2 f_equal. lia.
    - lia. }
  assert (Hp : 0 < 2 ^ (- e')) by (apply Z.pow_pos_nonneg; lia).
  assert (Hlo : 2 ^ 59 <= m').
  { rewrite Hm'.
    assert (2 ^ 59 <= 2 ^ (d1 - 1) * 2 ^ (- e')).
    { rewrite <- Z.pow_add_r by lia. apply Z.pow_le_mono_r; lia. }
    nia. }
  assert (Hhi : m' < 64 * 2 ^ (d1 - e' - 6)).
  { rewrite Hm'. change 64 with (2 ^ 6). rewrite <- Z.pow_add_r by lia.
    replace (6 + (d1 - e' - 6)) with (d1 + - e') by lia.
    rewrite Z.pow_add_r by lia. nia. }
  clearbody m'.
  assert (Hq : 0 < fst (IntDef.Z.div_eucl m' 100)
               /\ fst (IntDef.Z.div_eucl m' 100) < 2 ^ (d1 - e' - 6)).
  { change (fst (IntDef.Z.div_eucl m' 100)) with (m' / 100).
    assert (0 < 2 ^ (d1 - e' - 6)) by (apply Z.pow_pos_nonneg; lia).
    change (2 ^ 59) with 576460752303423488 in Hlo.
    split; [apply Z.div_str_pos; lia | apply Z.div_lt_upper_bound; lia]. }
  destruct (IntDef.Z.div_eucl m' 100) as [q r]. cbn [fst] in Hq.
  cbv beta iota.
  assert (Hdq : Zdigits2 q <= d1 - e' - 6) by (apply Zdigits2_le; lia).
  assert (H := binary_round_aux_bounds sgn q e' (new_location 100 r)
                 ltac:(lia)).
  cbv zeta in H.
  destruct (binary_round_aux prec emax sgn q e' (new_location 100 r));
    try reflexivity; try contradiction. destruct H as [_ H]. lia.
Qed.

(** The quotient by 100 of an integer below [2^1025] in absolute value
    is a finite float: true division never overflows where the
    calculator uses it. *)
Lemma int_truediv_100_finite a :
  Z.abs a < 2 ^ 1025 -> is_finite (int_truediv a 100) = true.
Proof.
  intros Ha. unfold int_truediv. destruct a as [|c|c]; [reflexivity | |].
  - exact (div_core_100_finite _ c Ha).
  - exact (div_core_100_finite _ c Ha).
Qed.

(** Whatever the principal, the interest the calculator returns is a
    finite float. *)
Lemma interest_finite p days i :
  interest p days = inr i -> is_finite i = true.
Proof.
  unfold interest. rewrite of_int_100_eq.
  assert (Hc := mul_finite_canonical (mul (mul p daily_rate) (of_int days))
                  false 7036874417766400 (-46)).
  destruct (mul _ (S754_finite false 7036874417766400 (-46)))
    as [s | s | | s m e]; cbn [round]; try discriminate.
  - intros [= <-]. reflexivity.
  - intros [= <-]. destruct Hc as [Hd He].
    apply int_truediv_100_finite.
    assert (H1 := round_half_even_lt m e Hd He).
    assert (H2 := round_half_even_nonneg m e).
    destruct s; cbn [cond_Zopp]; lia.
Qed.

(** ** The calculator *)

(** What a returning call of the calculator went through. *)
Lemma calculate_inr env p s w r w' :
  calculate_statutory_claim env p s w = (inr r, w') ->
  exists due i,
    strptime env s = inr due /\
    Claim.days_overdue r
      = Z.max 0 (timedelta_days (clock env (clock_reads w)) due) /\
    interest p (Claim.days_overdue r) = inr i /\
    Claim.statutory_interest_gbp r = i /\
    Claim.compensation_gbp r = compensation p /\
    Claim.total_claim_gbp r = add (add p i) (of_int (compensation p)) /\
    clock_reads w' = S (clock_reads w) /\
    files w' = files w /\ outbox w' = outbox w /\ log w' = log w.
Proof.
  unfold calculate_statutory_claim.
  destruct (strptime env s) as [why | due] eqn:Es; [discriminate|].
  unfold bind, now, ret, raise. simpl.
  destruct (interest p _) as [[] | i] eqn:Ei; try discriminate.
  intros [= <- <-]. exists due, i. simpl. auto 12.
Qed.

(** No days overdue, no interest. *)
Lemma interest_zero_days p i : interest p 0 = inr i -> i = S754_zero false.
Proof.
  unfold interest. change (of_int 0) with (S754_zero false).
  destruct (mul p daily_rate) as [s|s| |s m e]; simpl; try discriminate;
    intros [= <-]; reflexivity.
Qed.

Lemma days_overdue_ordinals env s w due :
  datetime_ok (clock env (clock_reads w)) = true ->
  strptime env s = inr due ->
  timedelta_days (clock env (clock_reads w)) due
  = toordinal (clock env (clock_reads w)) - toordinal due.
Proof.
  intros Hok Hs. apply strptime_inr in Hs as [_ ->].
  now rewrite timedelta_days_midnight.
Qed.

Lemma mul_nan_l y : mul S754_nan y = S754_nan.
Proof. destruct y; reflexivity. Qed.

(** The calculator returns for numbers only. *)
Lemma interest_inr_not_nan p d i : interest p d = inr i -> is_nan p = false.
Proof.
  unfold interest. destruct p; try reflexivity.
  rewrite !mul_nan_l. discriminate.
Qed.

Lemma of_int_1000 : of_int 1000 = S754_finite false 8796093022208000 (-43).
Proof. vm_compute. reflexivity. Qed.

Lemma of_int_10000 : of_int 10000 = S754_finite false 5497558138880000 (-39).
Proof. vm_compute. reflexivity. Qed.

(** At or above the upper threshold is above the lower one. *)
Lemma leb_10000_not_ltb_1000 p :
  leb (of_int 10000) p = true -> ltb p (of_int 1000) = false.
Proof.
  rewrite of_int_1000, of_int_10000.
  unfold leb, ltb, SFleb, SFltb, SFcompare.
  destruct p as [s|s| |s m e]; try discriminate.
  - destruct s; [discriminate | reflexivity].
  - destruct s; [discriminate|].
    destruct (Z.compare_spec (-39) e), (Z.compare_spec e (-43));
      try lia; try discriminate; reflexivity.
Qed.

(** The four amounts of the spec. *)
Lemma compensation_examples :
  compensation (of_decimal 99999 2) = 40 /\
  compensation (of_decimal 100000 2) = 70 /\
  compensation (of_decimal 999999 2) = 70 /\
  compensation (of_decimal 1000000 2) = 100.
Proof. vm_compute. auto. Qed.

(** C2. The compensation the calculator returns is the step function
    of the principal: 40 below 1000, 70 from 1000 to below 10000, 100
    from 10000 on; every principal it returns for falls in one of the
    three tiers; 999.99 gives 40, 1000.00 gives 70, 9999.99 gives 70
    and 10000.00 gives 100. *)
Theorem compensation_step_function env p s w r w' :
  calculate_statutory_claim env p s w = (inr r, w') ->
  (ltb p (of_int 1000) = true -> Claim.compensation_gbp r = 40) /\
  (leb (of_int 1000) p = true -> ltb p (of_int 10000) = true ->
   Claim.compensation_gbp r = 70) /\
  (leb (of_int 10000) p = true -> Claim.compensation_gbp r = 100) /\
  (ltb p (of_int 1000) = true \/
   (leb (of_int 1000) p = true /\ ltb p (of_int 10000) = true) \/
   leb (of_int 10000) p = true) /\
  (p = of_decimal 99999 2 -> Claim.compensation_gbp r = 40) /\
  (p = of_decimal 100000 2 -> Claim.compensation_gbp r = 70) /\
  (p = of_decimal 999999 2 -> Claim.compensation_gbp r = 70) /\
  (p = of_decimal 1000000 2 -> Claim.compensation_gbp r = 100).
Proof.
  intros Hcalc.
  apply calculate_inr in Hcalc as (due & i & _ & _ & Hi & _ & Hc & _).
  apply interest_inr_not_nan in Hi. rewrite Hc.
  destruct compensation_examples as (E1 & E2 & E3 & E4).
  repeat split; try (intros ->; assumption); unfold compensation.
  - intros ->. reflexivity.
  - intros H1 H2. rewrite (leb_ltb_false _ _ H1), H2. reflexivity.
  - intros H. rewrite (leb_10000_not_ltb_1000 _ H), (leb_ltb_false _ _ H).
    reflexivity.
  - destruct (ltb p (of_int 1000)) eqn:L1; [auto|].
    destruct (ltb p (of_int 10000)) eqn:L2.
    + right; left. split; [|reflexivity].
      apply ltb_false_leb; [exact Hi | rewrite of_int_1000; reflexivity | exact L1].
    + right; right.
      apply ltb_false_leb; [exact Hi | rewrite of_int_10000; reflexivity | exact L2].
Qed.

Lemma compensation_step_function_witness :
  calculate_statutory_claim Example.env (of_int 5000) (str "2024-01-31")
    Example.world
  = (inr Example.claim_5000, Example.world_after_calculation) /\
  leb (of_int 1000) (of_int 5000) = true /\
  ltb (of_int 5000) (of_int 10000) = true /\
  Claim.compensation_gbp Example.claim_5000 = 70.
Proof.
  assert (H : calculate_statutory_claim Example.env (of_int 5000)
                (str "2024-01-31") Example.world
              = (inr Example.claim_5000, Example.world_after_calculation))
    by (vm_compute; reflexivity).
  assert (H1 : leb (of_int 1000) (of_int 5000) = true)
    by (vm_compute; reflexivity).
  assert (H2 : ltb (of_int 5000) (of_int 10000) = true)
    by (vm_compute; reflexivity).
  split; [exact H|]. split; [exact H1|]. split; [exact H2|].
  destruct (compensation_step_function _ _ _ _ _ _ H) as (_ & H70 & _).
  exact (H70 H1 H2).
Defined.

(** ** The total *)

(** C3, as the code has it. For a principal of binary64 that is at
    least zero and a well-formed due date, the total is the float sum
    [(principal + interest) + compensation], every addition rounded to
    the nearest float; interest, compensation and total are not
    negative. A finite total differs from the exact sum of the three
    by at most [2^-50] of that sum, which is less than half a penny as
    long as the exact sum is at most [2^42] pounds. *)
Theorem total_claim_is_the_float_sum env p s w r w' :
  valid p = true ->
  leb (S754_zero false) p = true ->
  calculate_statutory_claim env p s w = (inr r, w') ->
  let i := Claim.statutory_interest_gbp r in
  let c := Claim.compensation_gbp r in
  let total := Claim.total_claim_gbp r in
  total = add (add p i) (of_int c) /\
  leb (S754_zero false) i = true /\
  0 < c /\
  leb (S754_zero false) total = true /\
  (is_finite total = true ->
   let exact := units p + units i + pounds c in
   Z.abs (units total - exact) * 2 ^ 50 <= exact /\
   (exact <= pounds (2 ^ 42) ->
    200 * Z.abs (units total - exact) < pounds 1)).
Proof.
  intros Hvalid Hnonneg Hcalc.
  apply calculate_inr in Hcalc
    as (due & i & _ & Hdays & Hi & Hint & Hc & Ht & _).
  cbv zeta. rewrite Ht, Hint, Hc. clear Ht Hint Hc.
  destruct (compensation_float p) as (Hcpos & Hcfin & Hcunits).
  set (c := compensation p) in *. clearbody c.
  destruct (valid_nonneg p Hvalid Hnonneg) as [Hp | ->];
    [|destruct (interest_infinite _ _ _ Hi)].
  assert (Hi' : nonneg_finite i \/ i = S754_infinity false).
  { apply (interest_not_negative p (Claim.days_overdue r));
      [apply nonneg_finite_not_negative; auto | lia | exact Hi]. }
  split; [reflexivity|]. split; [exact (nonneg_finite_leb i Hi')|].
  split; [exact Hcpos|].
  destruct Hi' as [Hifin | ->].
  2:{ rewrite (add_infinity_r p Hp), (add_infinity_l _ Hcfin).
      split; [reflexivity | discriminate]. }
  assert (H1 := add_nonneg_close p i Hp Hifin).
  destruct (add p i) as [sx | sx | | sx mx ex] eqn:Ex; try contradiction.
  - (* the first sum is zero *)
    destruct H1 as [Hx H1].
    assert (H2 := add_nonneg_close (S754_zero sx) (of_int c) Hx Hcfin).
    destruct (add (S754_zero sx) (of_int c)) as [st | st | | st mt et] eqn:Et;
      try contradiction.
    + split; [reflexivity|]. intros _. destruct H2 as [_ H2].
      rewrite Hcunits in H2. cbn [units] in *. unfold pounds in *.
      assert (0 < 2 ^ 1074) by (apply Z.pow_pos_nonneg; lia).
      change (2 ^ 52) with 4503599627370496 in *.
      change (2 ^ 50) with 1125899906842624.
      change (2 ^ 42) with 4398046511104. split; [lia|]. intros _. lia.
    + subst st. split; [reflexivity | discriminate].
    + destruct H2 as [[-> Het] H2]. split; [reflexivity|]. intros _.
      rewrite Hcunits in H2. unfold pounds in *.
      assert (0 < 2 ^ 1074) by (apply Z.pow_pos_nonneg; lia).
      set (T := units (S754_finite false mt et)) in *.
      set (X := units (S754_zero sx)) in *.
      change (2 ^ 52) with 4503599627370496 in *.
      change (2 ^ 50) with 1125899906842624.
      change (2 ^ 42) with 4398046511104. split; [lia|]. intros Hle. lia.
  - (* the first sum overflows *)
    subst sx. rewrite (add_infinity_l _ Hcfin).
    split; [reflexivity | discriminate].
  - destruct H1 as [Hx H1].
    assert (H2 := add_nonneg_close (S754_finite sx mx ex) (of_int c) Hx Hcfin).
    destruct (add (S754_finite sx mx ex) (of_int c))
      as [st | st | | st mt et] eqn:Et; try contradiction.
    + split; [reflexivity|]. intros _. destruct H2 as [_ H2].
      rewrite Hcunits in H2. unfold pounds in *.
      assert (0 < 2 ^ 1074) by (apply Z.pow_pos_nonneg; lia).
      set (T := units (S754_zero st)) in *.
      set (X := units (S754_finite sx mx ex)) in *.
      change (2 ^ 52) with 4503599627370496 in *.
      change (2 ^ 50) with 1125899906842624.
      change (2 ^ 42) with 4398046511104. split; [lia|]. intros Hle. lia.
    + subst st. split; [reflexivity | discriminate].
    + destruct H2 as [[-> Het] H2]. split; [reflexivity|]. intros _.
      rewrite Hcunits in H2. unfold pounds in *.
      assert (0 < 2 ^ 1074) by (apply Z.pow_pos_nonneg; lia).
      set (T := units (S754_finite false mt et)) in *.
      set (X := units (S754_finite sx mx ex)) in *.
      change (2 ^ 52) with 4503599627370496 in *.
      change (2 ^ 50) with 1125899906842624.
      change (2 ^ 42) with 4398046511104. split; [lia|]. intros Hle. lia.
Qed.

Lemma total_claim_is_the_float_sum_witness :
  valid (of_int 5000) = true /\
  leb (S754_zero false) (of_int 5000) = true /\
  calculate_statutory_claim Example.env (of_int 5000) (str "2024-01-31")
    Example.world
  = (inr Example.claim_5000, Example.world_after_calculation) /\
  200 * Z.abs (units (of_decimal 513986 2)
               - (units (of_int 5000) + units (of_decimal 6986 2) + pounds 70))
  < pounds 1.
Proof.
  assert (H1 : valid (of_int 5000) = true) by (vm_compute; reflexivity).
  assert (H2 : leb (S754_zero false) (of_int 5000) = true)
    by (vm_compute; reflexivity).
  assert (H3 : calculate_statutory_claim Example.env (of_int 5000)
                 (str "2024-01-31") Example.world
               = (inr Example.claim_5000, Example.world_after_calculation))
    by (vm_compute; reflexivity).
  split; [exact H1|]. split; [exact H2|]. split; [exact H3|].
  destruct (total_claim_is_the_float_sum _ _ _ _ _ _ H1 H2 H3)
    as (_ & _ & _ & _ & H).
  destruct H as [_ H]; [vm_compute; reflexivity|].
  apply H. vm_compute. discriminate.
Defined.

(** C3, as the spec has it, fails: for a principal of 1e17 pounds due
    today the interest is 0, the compensation 100, and the total
    returned is 4 pounds short of the sum of the three. *)
Lemma total_drifts_for_a_large_principal :
  exists r w',
    valid (of_int (10 ^ 17)) = true /\
    leb (S754_zero false) (of_int (10 ^ 17)) = true /\
    calculate_statutory_claim Example.env (of_int (10 ^ 17))
      (str "2024-03-11") Example.world = (inr r, w') /\
    units (of_int (10 ^ 17)) = pounds (10 ^ 17) /\
    Claim.statutory_interest_gbp r = S754_zero false /\
    Claim.compensation_gbp r = 100 /\
    units (Claim.total_claim_gbp r) = pounds (10 ^ 17 + 96) /\
    units (Claim.total_claim_gbp r)
    - (units (of_int (10 ^ 17)) + units (Claim.statutory_interest_gbp r)
       + pounds (Claim.compensation_gbp r))
    = pounds (-4).
Proof.
  do 2 eexists.
  split; [vm_compute; reflexivity|]. split; [vm_compute; reflexivity|].
  split; [vm_compute; reflexivity|].
  repeat split; vm_compute; reflexivity.
Qed.

(** ** The calculator and the clock *)

Lemma toordinal_date a b : date_of a = date_of b -> toordinal a = toordinal b.
Proof. unfold date_of, toordinal. intros [= -> -> ->]. reflexivity. Qed.

(** The calculator leaves the world as it was, but for the clock it read. *)
Lemma calculate_effects env p s w :
  let w' := snd (calculate_statutory_claim env p s w) in
  files w' = files w /\ outbox w' = outbox w /\ log w' = log w /\
  (clock_reads w' = clock_reads w \/ clock_reads w' = S (clock_reads w)).
Proof.
  unfold calculate_statutory_claim.
  destruct (strptime env s) as [why | due]; [cbn; auto|].
  unfold bind, now, ret, raise. cbv beta iota.
  destruct (interest p _) as [[] | i]; cbn; auto.
Qed.

(** C4, as the code has it. The calculator takes the principal and the
    due date and reads the reference time from the clock of the
    process. It writes no file, sends no request and logs nothing, and
    its result is determined by its two arguments and the date of the
    clock: two calls with the same arguments at two moments of the same
    day return the same. *)
Theorem calculator_deterministic_given_the_date env p s w1 w2 :
  datetime_ok (clock env (clock_reads w1)) = true ->
  datetime_ok (clock env (clock_reads w2)) = true ->
  date_of (clock env (clock_reads w1)) = date_of (clock env (clock_reads w2)) ->
  fst (calculate_statutory_claim env p s w1)
  = fst (calculate_statutory_claim env p s w2) /\
  (forall w, let w' := snd (calculate_statutory_claim env p s w) in
             files w' = files w /\ outbox w' = outbox w /\ log w' = log w).
Proof.
  intros Hok1 Hok2 Hdate. split.
  - unfold calculate_statutory_claim.
    destruct (strptime env s) as [why | due] eqn:Hs; [reflexivity|].
    unfold bind, now. cbv beta iota.
    rewrite (days_overdue_ordinals env s w1 due Hok1 Hs).
    rewrite (days_overdue_ordinals env s w2 due Hok2 Hs).
    rewrite (toordinal_date _ _ Hdate).
    destruct (interest p _) as [[] | i]; reflexivity.
  - intros w. destruct (calculate_effects env p s w) as (H1 & H2 & H3 & _).
    auto.
Qed.

Lemma calculator_deterministic_given_the_date_witness :
  fst (calculate_statutory_claim Example.env (of_int 5000) (str "2024-01-31")
         Example.world)
  = fst (calculate_statutory_claim Example.env (of_int 5000) (str "2024-01-31")
           Example.world_after_calculation).
Proof.
  apply (calculator_deterministic_given_the_date Example.env (of_int 5000)
           (str "2024-01-31") Example.world Example.world_after_calculation);
    reflexivity.
Defined.

(** C4, as the spec has it, fails: the result is no function of the
    arguments of the call. In a process whose clock moves on by a day,
    the same call made twice returns two different claims. *)
Lemma calculator_result_depends_on_the_clock :
  exists r1 w1 r2 w2,
    calculate_statutory_claim Example.env_days (of_int 5000)
      (str "2024-01-31") Example.world = (inr r1, w1) /\
    calculate_statutory_claim Example.env_days (of_int 5000)
      (str "2024-01-31") w1 = (inr r2, w2) /\
    Claim.days_overdue r1 = 40 /\ Claim.days_overdue r2 = 41 /\
    r1 <> r2.
Proof.
  do 4 eexists.
  split; [vm_compute; reflexivity|].
  split; [vm_compute; reflexivity|].
  split; [reflexivity|]. split; [reflexivity|]. discriminate.
Qed.

(** ** When the calculator fails *)

(** C9, as the code has it. On a due date that [strptime] rejects the
    calculator fails with the [ValueError] of [strptime], before it
    reads the clock; the error carries the data, not the name of a
    field. On a well-formed due date it fails exactly when the product
    it rounds is no finite number: with a [ValueError] when the product
    is NaN, with an [OverflowError] when it is infinite. A principal
    that is NaN always makes it fail; a principal of binary64 below
    [2^1000] in absolute value never does. *)
Theorem calculator_fails_exactly_when env p s w :
  (forall why, strptime env s = inl why ->
     calculate_statutory_claim env p s w = (inl (ValueError why), w) /\
     why <> cannot_convert_float_NaN_to_integer) /\
  (forall due, strptime env s = inr due ->
     let x := scaled_product p
                (Z.max 0 (timedelta_days (clock env (clock_reads w)) due)) in
     (is_finite x = true ->
      exists r w', calculate_statutory_claim env p s w = (inr r, w')) /\
     (is_nan x = true ->
      fst (calculate_statutory_claim env p s w)
      = inl (ValueError cannot_convert_float_NaN_to_integer)) /\
     (is_finite x = false -> is_nan x = false ->
      fst (calculate_statutory_claim env p s w) = inl OverflowError) /\
     (is_nan p = true -> is_nan x = true) /\
     (valid p = true -> magnitude_le 1000 p ->
      datetime_ok (clock env (clock_reads w)) = true ->
      is_finite x = true)).
Proof.
  split.
  - intros why Hs. unfold calculate_statutory_claim. rewrite Hs.
    split; [reflexivity | exact (strptime_inl env s why Hs)].
  - intros due Hs x. unfold calculate_statutory_claim. rewrite Hs.
    unfold bind, now, ret, raise, interest. cbv beta iota.
    fold (scaled_product p
            (Z.max 0 (timedelta_days (clock env (clock_reads w)) due))).
    fold x.
    assert (Hnan : is_nan p = true -> is_nan x = true).
    { intros Hp. destruct p; try discriminate.
      unfold x, scaled_product. now rewrite !mul_nan_l. }
    assert (Hfin : valid p = true -> magnitude_le 1000 p ->
                   datetime_ok (clock env (clock_reads w)) = true ->
                   is_finite x = true).
    { intros Hv Hp Hok. apply scaled_product_finite; [exact Hv | exact Hp |].
      rewrite (days_overdue_ordinals env s w due Hok Hs).
      assert (H1 := toordinal_range _ Hok).
      assert (H2 := toordinal_range due (proj1 (strptime_inr env s due Hs))).
      change (2 ^ 22) with 4194304. lia. }
    clearbody x.
    repeat split; try exact Hnan; try exact Hfin; clear Hnan Hfin.
    + destruct x; try discriminate; cbn; eauto.
    + destruct x; try discriminate; reflexivity.
    + destruct x; try discriminate; reflexivity.
Qed.

Lemma calculator_fails_exactly_when_witness :
  strptime Example.env (str "2024-01-31")
  = inr (mk_datetime 2024 1 31 0 0 0 0) /\
  valid (of_int 5000) = true /\
  magnitude_le 1000 (of_int 5000) /\
  exists r w',
    calculate_statutory_claim Example.env (of_int 5000) (str "2024-01-31")
      Example.world = (inr r, w').
Proof.
  assert (Hs : strptime Example.env (str "2024-01-31")
               = inr (mk_datetime 2024 1 31 0 0 0 0))
    by (vm_compute; reflexivity).
  assert (Hv : valid (of_int 5000) = true) by (vm_compute; reflexivity).
  assert (Hm : magnitude_le 1000 (of_int 5000)) by (vm_compute; discriminate).
  split; [exact Hs|]. split; [exact Hv|]. split; [exact Hm|].
  destruct (calculator_fails_exactly_when Example.env (of_int 5000)
              (str "2024-01-31") Example.world) as [_ H].
  destruct (H _ Hs) as (Hreturns & _ & _ & _ & Hfinite).
  apply Hreturns, Hfinite; [exact Hv | exact Hm | reflexivity].
Defined.

(** C9, as the spec has it, fails: with a well-formed due date the
    calculator raises for a principal of 1e308, whose interest
    overflows, for an infinite principal and for a principal that is
    not a number. *)
Lemma calculator_raises_on_well_formed_date :
  strptime Example.env (str "2023-01-31")
  = inr (mk_datetime 2023 1 31 0 0 0 0) /\
  valid (of_int (10 ^ 308)) = true /\
  is_finite (of_int (10 ^ 308)) = true /\
  fst (calculate_statutory_claim Example.env (of_int (10 ^ 308))
         (str "2023-01-31") Example.world) = inl OverflowError /\
  fst (calculate_statutory_claim Example.env (S754_infinity false)
         (str "2023-01-31") Example.world) = inl OverflowError /\
  fst (calculate_statutory_claim Example.env S754_nan
         (str "2023-01-31") Example.world)
  = inl (ValueError cannot_convert_float_NaN_to_integer).
Proof. vm_compute. repeat split. Qed.

(** ** The gates of the intake handler *)

Ltac run_handler :=
  unfold handle_intake, bind, logger, raise, ret; cbv beta iota.

(** C5. A submission whose debtor type is not "business" is rejected
    with the B2B-only error, status 422, a client error; nothing has
    happened by then but the log line of the submission: no file is
    written, no request is sent, the clock is not read, and the amount
    and the due date play no part (no claim is computed). *)
Theorem debtor_type_gate env submission w :
  IntakeSubmission.debtor_type submission <> str "business" ->
  handle_intake env submission w
  = (inl (HTTPException 422 B2B_ONLY), logged_intake submission w) /\
  400 <= 422 < 500 /\
  files (logged_intake submission w) = files w /\
  outbox (logged_intake submission w) = outbox w /\
  clock_reads (logged_intake submission w) = clock_reads w.
Proof.
  intros Hty. split; [|repeat split; lia].
  run_handler. unfold pystr_eqb.
  rewrite (bool_decide_eq_false_2 _ Hty). reflexivity.
Qed.

Lemma debtor_type_gate_witness :
  IntakeSubmission.debtor_type
    (Example.with_debtor_type (str "individual") Example.submission)
  <> str "business" /\
  handle_intake Example.env
    (Example.with_debtor_type (str "individual") Example.submission)
    Example.world
  = (inl (HTTPException 422 B2B_ONLY),
     logged_intake
       (Example.with_debtor_type (str "individual") Example.submission)
       Example.world).
Proof.
  assert (H : IntakeSubmission.debtor_type
                (Example.with_debtor_type (str "individual") Example.submission)
              <> str "business") by (vm_compute; discriminate).
  split; [exact H|].
  exact (proj1 (debtor_type_gate Example.env _ Example.world H)).
Defined.

(** C6. A submission without consent is rejected with status 422
    whatever its debtor type, with the consent error when the debtor
    type is "business"; by then no file is written, no request is sent
    and the clock is not read. *)
Theorem consent_gate env submission w :
  IntakeSubmission.dpa_accepted submission = false ->
  exists detail,
    handle_intake env submission w
    = (inl (HTTPException 422 detail), logged_intake submission w) /\
    (IntakeSubmission.debtor_type submission = str "business" ->
     detail = DPA_REQUIRED) /\
    (IntakeSubmission.debtor_type submission <> str "business" ->
     detail = B2B_ONLY) /\
    files (logged_intake submission w) = files w /\
    outbox (logged_intake submission w) = outbox w /\
    clock_reads (logged_intake submission w) = clock_reads w.
Proof.
  intros Hdpa. run_handler. unfold pystr_eqb. rewrite Hdpa.
  destruct (decide (IntakeSubmission.debtor_type submission = str "business"))
    as [Hty | Hty].
  - rewrite (bool_decide_eq_true_2 _ Hty). exists DPA_REQUIRED.
    repeat split; [congruence].
  - rewrite (bool_decide_eq_false_2 _ Hty). exists B2B_ONLY.
    repeat split; [congruence].
Qed.

Lemma consent_gate_witness :
  IntakeSubmission.dpa_accepted
    (Example.with_dpa_accepted false Example.submission) = false /\
  handle_intake Example.env
    (Example.with_dpa_accepted false Example.submission) Example.world
  = (inl (HTTPException 422 DPA_REQUIRED),
     logged_intake (Example.with_dpa_accepted false Example.submission)
       Example.world).
Proof.
  assert (H : IntakeSubmission.dpa_accepted
                (Example.with_dpa_accepted false Example.submission) = false)
    by reflexivity.
  split; [exact H|].
  destruct (consent_gate Example.env _ Example.world H)
    as (detail & Hrun & Hbusiness & _).
  rewrite Hrun, (Hbusiness eq_refl). reflexivity.
Defined.

(** ** The notifier and the accepted submissions *)

(** A run that returns, with the world it leaves. *)
Lemma run_inr {E A} (m : M E A) w a :
  fst (m w) = inr a -> m w = (inr a, snd (m w)).
Proof. destruct (m w) as [res w']. cbn. intros ->. reflexivity. Qed.

(** The notifier never raises: it returns whether the transport
    accepted the request, and touches neither files nor clock. *)
Lemma send_email_returns env to_email subject html_body w :
  exists w',
    send_email_via_sendgrid env to_email subject html_body w
    = (inr (delivery_accepted env
              (sendgrid_request env to_email subject html_body)), w') /\
    files w' = files w /\ clock_reads w' = clock_reads w.
Proof.
  unfold send_email_via_sendgrid, try_except, bind, delivery_accepted.
  destruct (import_requests env) as [e|].
  - unfold raise, logger, ret. cbv beta iota. eexists. repeat split.
  - unfold ret at 1. cbv beta iota. unfold requests_post.
    destruct (http_send env _) as [e | status_code text].
    + unfold logger, ret. cbv beta iota. eexists. repeat split.
    + cbv beta iota.
      destruct (existsb (Z.eqb status_code) [200; 201; 202]);
        unfold logger, ret; cbv beta iota; eexists; repeat split.
Qed.

(** The handler, stage by stage. *)
Lemma handle_intake_stages env submission w :
  handle_intake env submission w =
  if negb (pystr_eqb (IntakeSubmission.debtor_type submission) (str "business"))
  then (inl (HTTPException 422 B2B_ONLY), logged_intake submission w)
  else if negb (IntakeSubmission.dpa_accepted submission)
  then (inl (HTTPException 422 DPA_REQUIRED), logged_intake submission w)
  else
    let case_id := case_id_of env submission (clock_reads w) in
    match calculate_statutory_claim env
            (IntakeSubmission.amount_owed_gbp submission)
            (IntakeSubmission.due_date submission)
            (after_case_id submission w) with
    | (inl e, w2) => (inl e, w2)
    | (inr claim_calc, w2) =>
        match generate_lba_pdf env
                (case_data_of submission case_id claim_calc) w2 with
        | (inl e, w3) =>
            (inl (HTTPException 500 (str "LBA generation failed")),
             {| clock_reads := clock_reads w3; files := files w3;
                outbox := outbox w3;
                log := log w3 ++ [(ERROR, str "PDF generation failed: "
                                          ++ exc_str e)] |})
        | (inr _, w3) =>
            match send_email_via_sendgrid env
                    (IntakeSubmission.client_email submission)
                    (str "Your Letter Before Action - " ++ case_id)
                    (email_html submission
                       (case_data_of submission case_id claim_calc) case_id)
                    w3 with
            | (inl e, w4) => (inl e, w4)
            | (inr email_sent, w4) =>
                (inr (response_of submission case_id claim_calc email_sent),
                 if email_sent then w4
                 else {| clock_reads := clock_reads w4; files := files w4;
                         outbox := outbox w4;
                         log := log w4
                                ++ [(WARNING,
                                     str "Email send failed but case processed")] |})
            end
        end
    end.
Proof.
  run_handler.
  destruct (negb (pystr_eqb _ _)); [reflexivity|].
  destruct (negb (IntakeSubmission.dpa_accepted submission)); [reflexivity|].
  unfold now, try_except, bind. cbv beta iota zeta.
  change {| clock_reads := S (clock_reads w); files := files w;
            outbox := outbox w;
            log := log w ++ [(INFO, str "Intake submission: "
                                    ++ IntakeSubmission.client_email submission)] |}
    with (after_case_id submission w).
  fold (case_id_of env submission (clock_reads w)).
  destruct (calculate_statutory_claim env _ _ _) as [[e | claim_calc] w2];
    [reflexivity|].
  fold (case_data_of submission (case_id_of env submission (clock_reads w))
          claim_calc).
  destruct (generate_lba_pdf env _ w2) as [[e | path] w3].
  - unfold logger, raise. reflexivity.
  - cbv beta iota.
    unfold email_html, Case.set_lba_pdf_path, Case.total_claim_gbp.
    destruct (send_email_via_sendgrid env _ _ _ w3) as [[e | email_sent] w4];
      [reflexivity|].
    destruct email_sent; unfold logger, ret; reflexivity.
Qed.

Lemma calculate_with_transport imp send env p s w :
  calculate_statutory_claim (with_transport imp send env) p s w
  = calculate_statutory_claim env p s w.
Proof. reflexivity. Qed.

Lemma generate_with_transport imp send env c w :
  generate_lba_pdf (with_transport imp send env) c w
  = generate_lba_pdf env c w.
Proof. reflexivity. Qed.

(** What an accepted submission went through, and what the handler
    answers in the same process with any other transport. *)
Lemma handle_intake_accepted env submission w r w' :
  handle_intake env submission w = (inr r, w') ->
  IntakeSubmission.debtor_type submission = str "business" /\
  IntakeSubmission.dpa_accepted submission = true /\
  exists claim_calc w2,
    let case_id := case_id_of env submission (clock_reads w) in
    calculate_statutory_claim env
      (IntakeSubmission.amount_owed_gbp submission)
      (IntakeSubmission.due_date submission)
      (after_case_id submission w) = (inr claim_calc, w2) /\
    r = response_of submission case_id claim_calc
          (delivery_accepted env
             (notification_of env submission case_id claim_calc)) /\
    file_write env (letter_path case_id)
      (lba_content (case_data_of submission case_id claim_calc)
         (clock env (clock_reads w2))) = write_ok /\
    files w' = <[letter_path case_id :=
                   lba_content (case_data_of submission case_id claim_calc)
                     (clock env (clock_reads w2))]> (files w2) /\
    forall imp send,
      let env' := with_transport imp send env in
      exists w'',
        handle_intake env' submission w
        = (inr (response_of submission case_id claim_calc
                  (delivery_accepted env'
                     (notification_of env' submission case_id claim_calc))),
           w'') /\
        files w'' = files w'.
Proof.
  rewrite handle_intake_stages.
  destruct (pystr_eqb _ _) eqn:Hty; [|discriminate].
  destruct (IntakeSubmission.dpa_accepted submission) eqn:Hdpa; [|discriminate].
  cbv beta iota zeta. unfold negb.
  destruct (calculate_statutory_claim env _ _ _) as [[e | claim_calc] w2] eqn:Hc;
    [discriminate|].
  destruct (generate_lba_pdf env _ w2) as [[e | path] w3] eqn:Hg;
    [discriminate|].
  set (case_id := case_id_of env submission (clock_reads w)) in *.
  destruct (send_email_returns env
              (IntakeSubmission.client_email submission)
              (str "Your Letter Before Action - " ++ case_id)
              (email_html submission
                 (case_data_of submission case_id claim_calc) case_id) w3)
    as (w4 & Hsend & Hfiles4 & _).
  rewrite Hsend. intros Hr.
  assert (Hw : files w' = files w3).
  { destruct (delivery_accepted env _); injection Hr as <- <-;
      [exact Hfiles4 | exact Hfiles4]. }
  assert (Hres : r = response_of submission case_id claim_calc
                       (delivery_accepted env
                          (notification_of env submission case_id claim_calc))).
  { injection Hr as <- _. reflexivity. }
  clear Hr.
  unfold pystr_eqb in Hty. apply bool_decide_eq_true_1 in Hty.
  split; [exact Hty|]. split; [reflexivity|].
  exists claim_calc, w2.
  (* the letter was written *)
  unfold generate_lba_pdf, bind, now, write_file, logger, ret in Hg.
  cbv beta iota zeta in Hg. cbn [clock_reads] in Hg.
  fold (letter_path (Case.case_id (case_data_of submission case_id claim_calc)))
    in Hg.
  change (Case.case_id (case_data_of submission case_id claim_calc))
    with case_id in Hg.
  destruct (file_write env (letter_path case_id) _) eqn:Hwrite;
    try discriminate.
  injection Hg as _ <-. cbn [files] in Hw.
  split; [reflexivity|]. split; [exact Hres|]. split; [reflexivity|].
  split; [exact Hw|].
  intros imp send.
  rewrite handle_intake_stages.
  unfold pystr_eqb. rewrite (bool_decide_eq_true_2 _ Hty), Hdpa.
  cbv beta iota zeta. unfold negb.
  rewrite calculate_with_transport, Hc.
  change (case_id_of (with_transport imp send env) submission (clock_reads w))
    with case_id.
  rewrite generate_with_transport.
  unfold generate_lba_pdf, bind, now, write_file, logger, ret.
  cbv beta iota zeta. cbn [clock_reads].
  fold (letter_path (Case.case_id (case_data_of submission case_id claim_calc))).
  change (Case.case_id (case_data_of submission case_id claim_calc))
    with case_id.
  rewrite Hwrite.
  match goal with
  | |- context [send_email_via_sendgrid ?env' ?a ?b ?c ?w0] =>
      destruct (send_email_returns env' a b c w0) as (w5 & Hsend' & Hfiles5 & _)
  end.
  rewrite Hsend'.
  eexists. split; [reflexivity|].
  match goal with
  | |- files (if ?d then _ else _) = _ => destruct d
  end; cbn [files] in *; rewrite Hw; exact Hfiles5.
Qed.

(** C7. A notification failure is not fatal. The notifier never
    raises: whatever the transport does, it returns whether the
    request was accepted. A submission the handler accepted is accepted
    in the same process with any other transport, with status
    "success" and the same response but for [email_sent], which is
    false when [requests] cannot be imported, when the POST raises and
    when its status is none of 200, 201, 202. *)
Theorem notification_failure_is_not_fatal env submission w r w' imp send :
  handle_intake env submission w = (inr r, w') ->
  let env' := with_transport imp send env in
  (forall to_email subject html_body w0, exists w0',
     send_email_via_sendgrid env' to_email subject html_body w0
     = (inr (delivery_accepted env'
               (sendgrid_request env' to_email subject html_body)), w0')) /\
  exists req w'',
    handle_intake env' submission w
    = (inr (with_email_sent (delivery_accepted env' req) r), w'') /\
    Response.status (with_email_sent (delivery_accepted env' req) r)
    = str "success" /\
    files w'' = files w' /\
    post_to req = IntakeSubmission.client_email submission /\
    ((imp <> None \/
      (exists e, send req = post_raises e) \/
      (exists status_code text,
         send req = post_response status_code text /\
         status_code <> 200 /\ status_code <> 201 /\ status_code <> 202)) ->
     delivery_accepted env' req = false).
Proof.
  intros H env'. split.
  - intros to_email subject html_body w0.
    destruct (send_email_returns env' to_email subject html_body w0)
      as (w0' & Hs & _). eauto.
  - apply handle_intake_accepted in H
      as (_ & _ & claim_calc & w2 & _ & -> & _ & _ & Hother).
    destruct (Hother imp send) as (w'' & Hrun & Hfiles).
    exists (notification_of env' submission
              (case_id_of env submission (clock_reads w)) claim_calc), w''.
    split; [exact Hrun|]. split; [reflexivity|]. split; [exact Hfiles|].
    split; [reflexivity|].
    unfold delivery_accepted. cbn [import_requests http_send env' with_transport].
    intros [Himp | [[e He] | (status_code & text & Hsend & H0 & H1 & H2)]].
    + destruct imp; [reflexivity | congruence].
    + destruct imp; [reflexivity|]. rewrite He. reflexivity.
    + destruct imp; [reflexivity|]. rewrite Hsend. cbn [existsb].
      destruct (Z.eqb_spec status_code 200); [lia|].
      destruct (Z.eqb_spec status_code 201); [lia|].
      destruct (Z.eqb_spec status_code 202); [lia|]. reflexivity.
Qed.

Lemma notification_failure_is_not_fatal_witness :
  exists r w' w'',
    handle_intake Example.env Example.submission Example.world = (inr r, w') /\
    handle_intake Example.env_timeout Example.submission Example.world
    = (inr (with_email_sent false r), w'') /\
    Response.status (with_email_sent false r) = str "success".
Proof.
  eassert (F : fst (handle_intake Example.env Example.submission Example.world)
               = inr _) by (vm_compute; reflexivity).
  apply run_inr in F.
  destruct (notification_failure_is_not_fatal
              Example.env Example.submission Example.world _ _ None
              (fun _ => post_raises {| exc_class := "ConnectTimeout";
                                       exc_str := str "timed out" |}) F)
    as (_ & req & w'' & Hrun & Hstatus & _ & _ & Hfalse).
  rewrite Hfalse in Hrun, Hstatus by (right; left; eauto).
  do 3 eexists. split; [exact F|]. split; [exact Hrun | exact Hstatus].
Defined.

(** C10. Every response to an accepted submission has
    [lba_generated = true] and the message that the case was created
    and the email sent; that holds in the same process with any other
    transport, also one that fails, and only [email_sent] tells what
    the transport did with the request. *)
Theorem accepted_response_always_claims_email_sent env submission w r w' :
  handle_intake env submission w = (inr r, w') ->
  Response.lba_generated r = true /\
  Response.message r
  = str "Case " ++ Response.case_id r
    ++ str " created successfully. LBA prepared and email sent." /\
  forall imp send,
    let env' := with_transport imp send env in
    exists req r'' w'',
      handle_intake env' submission w = (inr r'', w'') /\
      post_to req = IntakeSubmission.client_email submission /\
      Response.email_sent r'' = delivery_accepted env' req /\
      Response.lba_generated r'' = true /\
      Response.message r'' = Response.message r /\
      r'' = with_email_sent (Response.email_sent r'') r.
Proof.
  intros H.
  apply handle_intake_accepted in H
    as (_ & _ & claim_calc & w2 & _ & -> & _ & _ & Hother).
  split; [reflexivity|]. split; [reflexivity|].
  intros imp send env'.
  destruct (Hother imp send) as (w'' & Hrun & _).
  exists (notification_of env' submission
            (case_id_of env submission (clock_reads w)) claim_calc).
  eexists. exists w''. split; [exact Hrun|].
  repeat split.
Qed.

Lemma accepted_response_always_claims_email_sent_witness :
  exists r w',
    handle_intake Example.env_timeout Example.submission Example.world
    = (inr r, w') /\
    Response.email_sent r = false /\
    Response.lba_generated r = true /\
    Response.message r
    = str "Case " ++ Response.case_id r
      ++ str " created successfully. LBA prepared and email sent.".
Proof.
  eassert (F : fst (handle_intake Example.env_timeout Example.submission
                      Example.world) = inr _) by (vm_compute; reflexivity).
  apply run_inr in F.
  destruct (accepted_response_always_claims_email_sent _ _ _ _ _ F)
    as (Hlba & Hmsg & _).
  do 2 eexists. split; [exact F|]. split; [reflexivity|].
  split; [exact Hlba | exact Hmsg].
Defined.

(** ** Case identifiers *)

Lemma strftime_Ymd_date a b :
  date_of a = date_of b -> strftime_Ymd a = strftime_Ymd b.
Proof. unfold date_of, strftime_Ymd. intros [= -> -> ->]. reflexivity. Qed.

(** C8, as the code has it. The case identifier is made of the date
    of the clock and of the hash of the client email modulo 10000: two
    accepted submissions of the same client email on the same day get
    the same identifier. The identifier is stable: once the handler has
    returned, the retrieval endpoint finds the letter under it. *)
Theorem case_id_determined_by_day_and_email
    env s1 s2 w1 w2 r1 r2 w1' w2' :
  handle_intake env s1 w1 = (inr r1, w1') ->
  handle_intake env s2 w2 = (inr r2, w2') ->
  IntakeSubmission.client_email s1 = IntakeSubmission.client_email s2 ->
  date_of (clock env (clock_reads w1)) = date_of (clock env (clock_reads w2)) ->
  Response.case_id r1 = Response.case_id r2 /\
  Response.case_id r1 = case_id_of env s1 (clock_reads w1) /\
  get_case (Response.case_id r1) w1'
  = (inr {| CaseStatus.case_id := Response.case_id r1;
            CaseStatus.status := str "lba_prepared";
            CaseStatus.document := letter_path (Response.case_id r1) |}, w1').
Proof.
  intros H1 H2 Hemail Hdate.
  apply handle_intake_accepted in H1
    as (_ & _ & c1 & v1 & _ & -> & _ & Hfiles & _).
  apply handle_intake_accepted in H2
    as (_ & _ & c2 & v2 & _ & -> & _ & _ & _).
  cbn [Response.case_id response_of].
  split; [|split; [reflexivity|]].
  - unfold case_id_of. rewrite Hemail, (strftime_Ymd_date _ _ Hdate).
    reflexivity.
  - unfold get_case.
    fold (letter_path (case_id_of env s1 (clock_reads w1))).
    rewrite Hfiles, lookup_insert_eq. reflexivity.
Qed.

Lemma case_id_determined_by_day_and_email_witness :
  exists r1 w1 r2 w2,
    handle_intake Example.env Example.submission Example.world = (inr r1, w1) /\
    handle_intake Example.env
      (Example.with_amount (of_int 7000) Example.submission) w1
    = (inr r2, w2) /\
    Response.case_id r1 = Response.case_id r2.
Proof.
  eassert (F1 : fst (handle_intake Example.env Example.submission
                       Example.world) = inr _) by (vm_compute; reflexivity).
  apply run_inr in F1.
  eassert (F2 : fst (handle_intake Example.env
                       (Example.with_amount (of_int 7000) Example.submission)
                       (snd (handle_intake Example.env Example.submission
                               Example.world)))
                = inr _) by (vm_compute; reflexivity).
  apply run_inr in F2.
  do 4 eexists. split; [exact F1|]. split; [exact F2|].
  refine (proj1 (case_id_determined_by_day_and_email
                   Example.env _ _ _ _ _ _ _ _ F1 F2 eq_refl _)).
  reflexivity.
Defined.

(** C8, as the spec has it, fails: two distinct submissions of one
    client on one day are both accepted and get the same case
    identifier, and the letter of the second replaces the letter of the
    first under it. *)
Lemma case_ids_collide :
  exists r1 w1 r2 w2,
    handle_intake Example.env Example.submission Example.world = (inr r1, w1) /\
    handle_intake Example.env
      (Example.with_amount (of_int 7000) Example.submission) w1
    = (inr r2, w2) /\
    Example.submission <> Example.with_amount (of_int 7000) Example.submission /\
    Response.case_id r1 = Response.case_id r2 /\
    files w2 !! letter_path (Response.case_id r1)
    <> files w1 !! letter_path (Response.case_id r1).
Proof.
  eassert (F1 : fst (handle_intake Example.env Example.submission
                       Example.world) = inr _) by (vm_compute; reflexivity).
  apply run_inr in F1.
  eassert (F2 : fst (handle_intake Example.env
                       (Example.with_amount (of_int 7000) Example.submission)
                       (snd (handle_intake Example.env Example.submission
                               Example.world)))
                = inr _) by (vm_compute; reflexivity).
  apply run_inr in F2.
  do 4 eexists. split; [exact F1|]. split; [exact F2|].
  split; [|split; [reflexivity|]].
  - intros H. apply (f_equal IntakeSubmission.amount_owed_gbp) in H.
    vm_compute in H. discriminate.
  - intros H.
    apply (f_equal (fun o : option pystr =>
                      match o with Some l => nth 378 l 0%N | None => 0%N end))
      in H.
    vm_compute in H. discriminate.
Qed.

(** ** Decimal digits and zero padding *)

Lemma digits_fuel_S f n acc :
  digits_fuel (S f) n acc
  = if n / 10 =? 0 then Z.to_N (48 + n mod 10) :: acc
    else digits_fuel f (n / 10) (Z.to_N (48 + n mod 10) :: acc).
Proof. reflexivity. Qed.

Lemma digits_fuel_enough f f' n acc :
  0 <= n < 10 ^ Z.of_nat (S f) -> 0 <= n < 10 ^ Z.of_nat (S f') ->
  digits_fuel (S f) n acc = digits_fuel (S f') n acc.
Proof.
  revert f' n acc. induction f as [|f IH]; intros f' n acc Hn Hn'.
  - change (10 ^ Z.of_nat 1) with 10 in Hn.
    assert (Hq : n / 10 = 0) by (apply Z.div_small; lia).
    cbn [digits_fuel]. rewrite Hq. reflexivity.
  - rewrite (digits_fuel_S (S f)), (digits_fuel_S f').
    destruct (n / 10 =? 0) eqn:Hq; [reflexivity|].
    apply Z.eqb_neq in Hq.
    destruct f' as [|f'].
    + change (10 ^ Z.of_nat 1) with 10 in Hn'.
      exfalso. apply Hq. apply Z.div_small; lia.
    + apply IH.
      * rewrite Nat2Z.inj_succ, Z.pow_succ_r in Hn by lia.
        split; [apply Z.div_pos; lia|].
        apply Z.div_lt_upper_bound; lia.
      * rewrite Nat2Z.inj_succ, Z.pow_succ_r in Hn' by lia.
        split; [apply Z.div_pos; lia|].
        apply Z.div_lt_upper_bound; lia.
Qed.

Lemma str_of_nonneg_fuel f n :
  0 <= n < 10 ^ Z.of_nat (S f) -> str_of_nonneg n = digits_fuel (S f) n [].
Proof.
  intros Hn. unfold str_of_nonneg. apply digits_fuel_enough; [|exact Hn].
  split; [lia|].
  rewrite Nat2Z.inj_succ, Z2Nat.id by apply Z.log2_nonneg.
  destruct (Z.eq_dec n 0) as [->|Hz]; [reflexivity|].
  assert (H := Z.log2_spec n ltac:(lia)).
  apply Z.lt_le_trans with (2 ^ Z.succ (Z.log2 n)); [lia|].
  apply Z.pow_le_mono_l. lia.
Qed.

Lemma digits_fuel_length f n acc :
  (length acc < length (digits_fuel (S f) n acc) <= S f + length acc)%nat.
Proof.
  revert n acc. induction f as [|f IH]; intros n acc.
  - cbn [digits_fuel]. destruct (n / 10 =? 0); cbn [length]; lia.
  - rewrite digits_fuel_S. destruct (n / 10 =? 0); [cbn [length]; lia|].
    specialize (IH (n / 10) (Z.to_N (48 + n mod 10) :: acc)).
    cbn [length] in IH. lia.
Qed.

Lemma zero_pad_length w n :
  0 <= n < 10 ^ Z.of_nat (S w) -> length (zero_pad (S w) n) = S w.
Proof.
  intros Hn. unfold zero_pad.
  rewrite (str_of_nonneg_fuel w n Hn).
  assert (H := digits_fuel_length w n []).
  rewrite length_app, repeat_length. cbn [length] in H. lia.
Qed.

Lemma digits_fuel_digits f n acc :
  0 <= n -> forallb is_ascii_digit acc = true ->
  forallb is_ascii_digit (digits_fuel f n acc) = true.
Proof.
  revert n acc. induction f as [|f IH]; intros n acc Hn Hacc; [exact Hacc|].
  assert (Hd : forallb is_ascii_digit (Z.to_N (48 + n mod 10) :: acc) = true).
  { cbn [forallb]. rewrite Hacc, andb_true_r. unfold is_ascii_digit.
    assert (H := Z.mod_pos_bound n 10 ltac:(lia)).
    apply andb_true_intro. split; apply N.leb_le; lia. }
  cbn [digits_fuel]. destruct (n / 10 =? 0); [exact Hd|].
  apply IH; [apply Z.div_pos; lia | exact Hd].
Qed.

Lemma zero_pad_digits w n :
  0 <= n -> forallb is_ascii_digit (zero_pad w n) = true.
Proof.
  intros Hn. unfold zero_pad. rewrite forallb_app. apply andb_true_intro. split.
  - generalize (w - length (str_of_nonneg n))%nat. intros k.
    induction k as [|k IH]; [reflexivity|]. cbn [repeat forallb]. rewrite IH.
    reflexivity.
  - unfold str_of_nonneg. apply digits_fuel_digits; [exact Hn | reflexivity].
Qed.

Lemma int_of_digits_fuel f n acc :
  0 <= n < 10 ^ Z.of_nat (S f) ->
  int_of_digits (digits_fuel (S f) n acc)
  = fold_left (fun a c => 10 * a + (Z.of_N c - 48)) acc n.
Proof.
  unfold int_of_digits.
  revert n acc. induction f as [|f IH]; intros n acc Hn.
  - change (10 ^ Z.of_nat 1) with 10 in Hn.
    assert (Hq : n / 10 = 0) by (apply Z.div_small; lia).
    cbn [digits_fuel]. rewrite Hq. cbn [Z.eqb fold_left].
    f_equal. rewrite Z.mod_small by lia. lia.
  - rewrite digits_fuel_S. destruct (n / 10 =? 0) eqn:Hq.
    + apply Z.eqb_eq in Hq. cbn [fold_left]. f_equal.
      assert (H := Z.div_mod n 10 ltac:(lia)).
      assert (H' := Z.mod_pos_bound n 10 ltac:(lia)). lia.
    + rewrite Nat2Z.inj_succ, Z.pow_succ_r in Hn by lia.
      rewrite IH.
      * cbn [fold_left]. f_equal.
        assert (H := Z.div_mod n 10 ltac:(lia)).
        assert (H' := Z.mod_pos_bound n 10 ltac:(lia)). lia.
      * split; [apply Z.div_pos; lia|].
        apply Z.div_lt_upper_bound; lia.
Qed.

Lemma int_of_digits_zeros k s :
  int_of_digits (repeat 48%N k ++ s) = int_of_digits s.
Proof.
  unfold int_of_digits. rewrite fold_left_app. f_equal.
  induction k as [|k IH]; [reflexivity|]. cbn [repeat fold_left]. exact IH.
Qed.

(** Reading back what [str] and the padding write. *)
Lemma int_of_digits_zero_pad w n : 0 <= n -> int_of_digits (zero_pad w n) = n.
Proof.
  intros Hn. unfold zero_pad. rewrite int_of_digits_zeros.
  unfold str_of_nonneg. rewrite int_of_digits_fuel; [reflexivity|].
  split; [lia|].
  rewrite Nat2Z.inj_succ, Z2Nat.id by apply Z.log2_nonneg.
  destruct (Z.eq_dec n 0) as [->|Hz]; [reflexivity|].
  assert (H := Z.log2_spec n ltac:(lia)).
  apply Z.lt_le_trans with (2 ^ Z.succ (Z.log2 n)); [lia|].
  apply Z.pow_le_mono_l. lia.
Qed.

(** ** Dates written [YYYY-MM-DD] and what [strptime] makes of them *)

Lemma zero_pad_2 n :
  0 <= n < 100 ->
  zero_pad 2 n = [Z.to_N (48 + n / 10); Z.to_N (48 + n mod 10)].
Proof.
  intros Hn. unfold zero_pad.
  rewrite (str_of_nonneg_fuel 1 n) by (change (10 ^ Z.of_nat 2) with 100; lia).
  rewrite !digits_fuel_S.
  destruct (n / 10 =? 0) eqn:H1.
  - apply Z.eqb_eq in H1. rewrite H1. reflexivity.
  - assert (H2 : n / 10 / 10 = 0)
      by (apply Z.div_small; split;
          [apply Z.div_pos | apply Z.div_lt_upper_bound]; lia).
    rewrite H2. cbn [Z.eqb length Nat.sub repeat app].
    rewrite (Z.mod_small (n / 10)); [reflexivity|].
    split; [apply Z.div_pos | apply Z.div_lt_upper_bound]; lia.
Qed.

Lemma zero_pad_4 n :
  0 <= n < 10000 ->
  zero_pad 4 n
  = [Z.to_N (48 + n / 10 / 10 / 10); Z.to_N (48 + (n / 10 / 10) mod 10);
     Z.to_N (48 + (n / 10) mod 10); Z.to_N (48 + n mod 10)].
Proof.
  intros Hn. unfold zero_pad.
  rewrite (str_of_nonneg_fuel 3 n) by (change (10 ^ Z.of_nat 4) with 10000; lia).
  rewrite !digits_fuel_S.
  assert (H4 : n / 10 / 10 / 10 / 10 = 0)
    by (apply Z.div_small; Z.div_mod_to_equations; lia).
  destruct (n / 10 =? 0) eqn:H1.
  { apply Z.eqb_eq in H1. rewrite H1. reflexivity. }
  destruct (n / 10 / 10 =? 0) eqn:H2.
  { apply Z.eqb_eq in H2. rewrite H2. reflexivity. }
  destruct (n / 10 / 10 / 10 =? 0) eqn:H3.
  { apply Z.eqb_eq in H3. rewrite H3. reflexivity. }
  rewrite H4. cbn [Z.eqb length Nat.sub repeat app].
  rewrite (Z.mod_small (n / 10 / 10 / 10)); [reflexivity|].
  Z.div_mod_to_equations; lia.
Qed.

Lemma decimal_digit_ascii env v :
  0 <= v <= 9 -> decimal_digit env (Z.to_N (48 + v)) = Some v.
Proof.
  intros Hv. unfold decimal_digit.
  replace ((48 <=? Z.to_N (48 + v)) && (Z.to_N (48 + v) <=? 57))%N with true.
  - f_equal. lia.
  - symmetry. apply andb_true_intro. split; apply N.leb_le; lia.
Qed.

Lemma re_Y_zero_pad {A} env y r (k : Z -> pystr -> option A) :
  0 <= y <= 9999 -> re_Y env (zero_pad 4 y ++ r) k = k y r.
Proof.
  intros Hy. rewrite zero_pad_4 by lia. cbn [app]. unfold re_Y.
  rewrite !decimal_digit_ascii by (Z.div_mod_to_equations; lia).
  f_equal. Z.div_mod_to_equations; lia.
Qed.

Ltac split_cases H := repeat (destruct H as [H | H]).

(** The regular expression of the format takes a zero-padded date for
    what it says, whatever the year. *)
Lemma format_regex_match_iso env y m d :
  0 <= y <= 9999 -> 1 <= m <= 12 -> 1 <= d <= 31 ->
  format_regex_match env (iso_date y m d) = Some (y, m, d, []).
Proof.
  intros Hy Hm Hd. unfold format_regex_match, iso_date.
  rewrite re_Y_zero_pad by exact Hy.
  assert (Hm' : m = 1 \/ m = 2 \/ m = 3 \/ m = 4 \/ m = 5 \/ m = 6 \/
                m = 7 \/ m = 8 \/ m = 9 \/ m = 10 \/ m = 11 \/ m = 12) by lia.
  assert (Hd' : d = 1 \/ d = 2 \/ d = 3 \/ d = 4 \/ d = 5 \/ d = 6 \/ d = 7 \/
                d = 8 \/ d = 9 \/ d = 10 \/ d = 11 \/ d = 12 \/ d = 13 \/
                d = 14 \/ d = 15 \/ d = 16 \/ d = 17 \/ d = 18 \/ d = 19 \/
                d = 20 \/ d = 21 \/ d = 22 \/ d = 23 \/ d = 24 \/ d = 25 \/
                d = 26 \/ d = 27 \/ d = 28 \/ d = 29 \/ d = 30 \/ d = 31) by lia.
  clear Hy Hm Hd.
  split_cases Hm'; subst m; split_cases Hd'; subst d;
    vm_compute; reflexivity.
Qed.

Lemma strptime_iso env y m d :
  0 <= y <= 9999 -> 1 <= m <= 12 -> 1 <= d <= 31 ->
  strptime env (iso_date y m d)
  = if y <? 1 then inl (year_is_out_of_range y)
    else if days_in_month y m <? d then inl day_is_out_of_range_for_month
    else inr (mk_datetime y m d 0 0 0 0).
Proof.
  intros Hy Hm Hd. unfold strptime.
  rewrite (format_regex_match_iso env y m d Hy Hm Hd). reflexivity.
Qed.

Lemma days_in_month_le_31 y m : days_in_month y m <= 31.
Proof.
  unfold days_in_month. destruct ((m =? 2) && is_leap y); [lia|].
  destruct (Z.to_nat m) as [|[|[|[|[|[|[|[|[|[|[|[|[|[|k]]]]]]]]]]]]]];
    cbn; lia.
Qed.

(** The ordinal of a date grows strictly with the date. *)
Lemma toordinal_lt a b :
  datetime_ok a = true -> datetime_ok b = true ->
  date_leb (date_of b) (date_of a) = false ->
  toordinal a < toordinal b.
Proof.
  unfold datetime_ok, date_leb, date_of, toordinal, ymd2ord.
  destruct a as [y1 m1 d1 ? ? ? ?], b as [y2 m2 d2 ? ? ? ?]; simpl.
  intros Ha Hb Hlt.
  repeat (apply andb_prop in Ha; destruct Ha as [Ha ?]).
  repeat (apply andb_prop in Hb; destruct Hb as [Hb ?]).
  assert (Hd1 := day_of_year_bound y1 m1 d1 ltac:(lia) ltac:(lia)).
  assert (Hd2 := day_of_year_bound y2 m2 d2 ltac:(lia) ltac:(lia)).
  apply orb_false_elim in Hlt as [Hy Hlt].
  apply Z.ltb_ge in Hy.
  destruct (Z.eq_dec y1 y2) as [<- | Hne].
  - rewrite Z.eqb_refl in Hlt. cbn [andb] in Hlt.
    apply orb_false_elim in Hlt as [Hm Hlt]. apply Z.ltb_ge in Hm.
    destruct (Z.eq_dec m1 m2) as [<- | Hne].
    + rewrite Z.eqb_refl in Hlt. cbn [andb] in Hlt.
      apply Z.leb_gt in Hlt. lia.
    + assert (Hmm := days_before_month_mono y1 m1 m2 d1
                       ltac:(lia) ltac:(lia) ltac:(lia) ltac:(lia)). lia.
  - assert (Hs := days_before_year_succ y1).
    assert (Hmono := days_before_year_mono (y1 + 1) y2 ltac:(lia)). lia.
Qed.

(** A well-formed due date and a finite product: the calculator
    returns, after one reading of the clock. *)
Lemma calculate_finite env p s w due :
  strptime env s = inr due ->
  is_finite (scaled_product p
               (Z.max 0 (timedelta_days (clock env (clock_reads w)) due)))
  = true ->
  exists r,
    calculate_statutory_claim env p s w
    = (inr r, {| clock_reads := S (clock_reads w); files := files w;
                 outbox := outbox w; log := log w |}) /\
    Claim.days_overdue r
    = Z.max 0 (timedelta_days (clock env (clock_reads w)) due).
Proof.
  intros Hs. unfold calculate_statutory_claim. rewrite Hs.
  unfold bind, now, ret, raise, interest. cbv beta iota.
  fold (scaled_product p
          (Z.max 0 (timedelta_days (clock env (clock_reads w)) due))).
  destruct (scaled_product p _); try discriminate; intros _;
    cbn; eexists; split; reflexivity.
Qed.

(** X1. Every calendar date from year 1 to year 9999, written
    [YYYY-MM-DD] with zero padding, is a due date the calculator takes:
    for a principal of binary64 below [2^1000] in absolute value it
    returns, and the days overdue are the days from that date to the
    date of the clock, none when the date is not yet past. *)
Theorem calculator_takes_every_calendar_date env p y m d w :
  1 <= y <= 9999 -> 1 <= m <= 12 -> 1 <= d <= days_in_month y m ->
  valid p = true -> magnitude_le 1000 p ->
  datetime_ok (clock env (clock_reads w)) = true ->
  exists r,
    calculate_statutory_claim env p (iso_date y m d) w
    = (inr r, {| clock_reads := S (clock_reads w); files := files w;
                 outbox := outbox w; log := log w |}) /\
    Claim.days_overdue r
    = Z.max 0 (toordinal (clock env (clock_reads w)) - ymd2ord y m d).
Proof.
  intros Hy Hm Hd Hv Hp Hok.
  assert (H31 := days_in_month_le_31 y m).
  assert (Hs : strptime env (iso_date y m d) = inr (mk_datetime y m d 0 0 0 0)).
  { rewrite strptime_iso by lia.
    destruct (Z.ltb_spec y 1); [lia|].
    destruct (Z.ltb_spec (days_in_month y m) d); [lia | reflexivity]. }
  assert (Hdays := days_overdue_ordinals env _ w _ Hok Hs).
  change (toordinal (mk_datetime y m d 0 0 0 0)) with (ymd2ord y m d) in Hdays.
  rewrite <- Hdays.
  apply calculate_finite; [exact Hs|].
  apply scaled_product_finite; [exact Hv | exact Hp |].
  rewrite Hdays.
  assert (H1 := toordinal_range _ Hok).
  assert (H2 := toordinal_range _ (proj1 (strptime_inr env _ _ Hs))).
  change (toordinal (mk_datetime y m d 0 0 0 0)) with (ymd2ord y m d) in H2.
  change (2 ^ 22) with 4194304. lia.
Qed.

Lemma calculator_takes_every_calendar_date_witness :
  exists r,
    calculate_statutory_claim Example.env (of_int 5000) (str "2024-02-29")
      Example.world
    = (inr r, Example.world_after_calculation) /\
    Claim.days_overdue r = 11.
Proof.
  assert (H29 : 1 <= 29 <= days_in_month 2024 2) by (vm_compute; split; discriminate).
  assert (Hv : valid (of_int 5000) = true) by (vm_compute; reflexivity).
  assert (Hm : magnitude_le 1000 (of_int 5000)) by (vm_compute; discriminate).
  exact (calculator_takes_every_calendar_date Example.env (of_int 5000)
           2024 2 29 Example.world ltac:(lia) ltac:(lia) H29 Hv Hm eq_refl).
Defined.

(** X2. A zero-padded [YYYY-MM-DD] string that names no calendar date
    is refused before the clock is read: year 0000 with the
    [ValueError] for the year, a day past the end of the month (30
    February, 29 February of a common year, 31 April) with the one for
    the day. Nothing else has happened then. *)
Theorem calculator_refuses_impossible_dates env p y m d w :
  0 <= y <= 9999 -> 1 <= m <= 12 -> 1 <= d <= 31 ->
  y = 0 \/ days_in_month y m < d ->
  calculate_statutory_claim env p (iso_date y m d) w
  = (inl (ValueError (if y =? 0 then year_is_out_of_range 0
                      else day_is_out_of_range_for_month)), w).
Proof.
  intros Hy Hm Hd Hbad. unfold calculate_statutory_claim.
  rewrite strptime_iso by assumption.
  destruct (Z.eqb_spec y 0) as [-> | Hy0]; [reflexivity|].
  destruct (Z.ltb_spec y 1); [lia|].
  destruct (Z.ltb_spec (days_in_month y m) d); [reflexivity | lia].
Qed.

Lemma calculator_refuses_impossible_dates_witness :
  calculate_statutory_claim Example.env (of_int 5000) (str "2023-02-29")
    Example.world
  = (inl (ValueError day_is_out_of_range_for_month), Example.world).
Proof.
  assert (H29 : 2023 = 0 \/ days_in_month 2023 2 < 29)
    by (right; vm_compute; reflexivity).
  exact (calculator_refuses_impossible_dates Example.env (of_int 5000)
           2023 2 29 Example.world ltac:(lia) ltac:(lia) ltac:(lia) H29).
Defined.

(** ** How long an accepted due date is *)

Section StrptimeLength.

Variable env : Env.

Lemma re_char_length {A} c s (k : pystr -> option A) r :
  re_char c s k = Some r ->
  exists s', length s = S (length s') /\ k s' = Some r.
Proof.
  destruct s as [|c' s']; [discriminate|]. cbn [re_char].
  destruct (c' =? c)%N; [|discriminate]. intros H. exists s'. auto.
Qed.

Lemma re_one_length {A} s (k : Z -> pystr -> option A) r :
  re_one s k = Some r ->
  exists a s', length s = S (length s') /\ k a s' = Some r.
Proof.
  destruct s as [|c s']; [discriminate|]. cbn [re_one].
  destruct (digit_between 1 9 c) as [a|]; [|discriminate].
  intros H. exists a, s'. auto.
Qed.

Lemma re_two_length {A} lo hi (snd : N -> option Z) s
    (k : Z -> pystr -> option A) r :
  re_two lo hi snd s k = Some r ->
  exists a s', length s = S (S (length s')) /\ k a s' = Some r.
Proof.
  destruct s as [|c1 [|c2 s']]; try discriminate. cbn [re_two].
  destruct (digit_between lo hi c1) as [a|]; [|discriminate].
  destruct (snd c2) as [b|]; [|discriminate].
  intros H. exists (10 * a + b), s'. auto.
Qed.

Lemma re_m_length {A} s (k : Z -> pystr -> option A) r :
  re_m s k = Some r ->
  exists a s', (S (length s') <= length s <= S (S (length s')))%nat /\
               k a s' = Some r.
Proof.
  unfold re_m. intros H.
  repeat (apply orelse_Some in H as [H | H]).
  - apply re_two_length in H as (a & s' & Hl & H). exists a, s'. split; [lia | exact H].
  - apply re_two_length in H as (a & s' & Hl & H). exists a, s'. split; [lia | exact H].
  - apply re_one_length in H as (a & s' & Hl & H). exists a, s'. split; [lia | exact H].
Qed.

Lemma re_d_length {A} s (k : Z -> pystr -> option A) r :
  re_d env s k = Some r ->
  exists a s', (S (length s') <= length s <= S (S (length s')))%nat /\
               k a s' = Some r.
Proof.
  unfold re_d. intros H.
  repeat (apply orelse_Some in H as [H | H]).
  - apply re_two_length in H as (a & s' & Hl & H). exists a, s'. split; [lia | exact H].
  - apply re_two_length in H as (a & s' & Hl & H). exists a, s'. split; [lia | exact H].
  - apply re_two_length in H as (a & s' & Hl & H). exists a, s'. split; [lia | exact H].
  - apply re_one_length in H as (a & s' & Hl & H). exists a, s'. split; [lia | exact H].
  - apply re_char_length in H as (s1 & Hl1 & H).
    apply re_one_length in H as (a & s' & Hl & H). exists a, s'. split; [lia | exact H].
Qed.

Lemma re_Y_length {A} s (k : Z -> pystr -> option A) r :
  re_Y env s k = Some r ->
  exists y s', length s = (4 + length s')%nat /\ k y s' = Some r.
Proof.
  destruct s as [|c1 [|c2 [|c3 [|c4 s']]]]; try discriminate. cbn [re_Y].
  destruct (decimal_digit env c1) as [a|]; [|discriminate].
  destruct (decimal_digit env c2) as [b|]; [|discriminate].
  destruct (decimal_digit env c3) as [c|]; [|discriminate].
  destruct (decimal_digit env c4) as [d|]; [|discriminate].
  intros H. eexists _, s'. split; [reflexivity | exact H].
Qed.

Lemma format_regex_match_length s y m d rest :
  format_regex_match env s = Some (y, m, d, rest) ->
  (8 + length rest <= length s <= 10 + length rest)%nat.
Proof.
  unfold format_regex_match. intros H.
  apply re_Y_length in H as (y' & s1 & L1 & H).
  apply re_char_length in H as (s2 & L2 & H).
  apply re_m_length in H as (m' & s3 & L3 & H).
  apply re_char_length in H as (s4 & L4 & H).
  apply re_d_length in H as (d' & s5 & L5 & H).
  injection H as _ _ _ <-. lia.
Qed.

Lemma strptime_length s t :
  strptime env s = inr t -> (8 <= length s <= 10)%nat.
Proof.
  unfold strptime.
  destruct (format_regex_match env s) as [[[[y m] d] rest]|] eqn:E;
    [|discriminate].
  apply format_regex_match_length in E.
  destruct rest; [|discriminate]. cbn [length] in E. intros _. lia.
Qed.

End StrptimeLength.

(** X3. The calculator returns only for a due date of 8 to 10
    characters. A shorter or a longer string (the empty string, a full
    date followed by a time of day or a time zone, a full date with
    white space around it) makes it fail with the [ValueError] of
    [strptime], the world as it was. *)
Theorem calculator_due_date_length env p s w :
  (length s < 8 \/ 10 < length s)%nat ->
  exists why,
    calculate_statutory_claim env p s w = (inl (ValueError why), w) /\
    (why = time_data_does_not_match s \/
     exists rest, rest <> [] /\ why = unconverted_data_remains rest).
Proof.
  intros Hlen. unfold calculate_statutory_claim.
  destruct (strptime env s) as [why | t] eqn:Es.
  - exists why. split; [reflexivity|].
    revert Es. unfold strptime.
    destruct (format_regex_match env s) as [[[[y m] d] rest]|] eqn:E.
    + destruct rest as [|c rest].
      * apply format_regex_match_length in E. cbn [length] in E. lia.
      * intros [= <-]. right. exists (c :: rest). split; [discriminate | reflexivity].
    + intros [= <-]. left. reflexivity.
  - apply strptime_length in Es. lia.
Qed.

Lemma calculator_due_date_length_witness :
  exists why,
    calculate_statutory_claim Example.env (of_int 5000)
      (str "2024-01-31T00:00:00") Example.world
    = (inl (ValueError why), Example.world) /\
    (why = time_data_does_not_match (str "2024-01-31T00:00:00") \/
     exists rest, rest <> [] /\ why = unconverted_data_remains rest).
Proof.
  apply (calculator_due_date_length Example.env (of_int 5000)
           (str "2024-01-31T00:00:00") Example.world).
  right. vm_compute. lia.
Defined.

(** X4. When the calculator returns, the days overdue are positive
    exactly when the due date lies before the date of the clock; they
    are never negative and stay below 3652060, the days of the years 1
    to 9999. *)
Theorem days_overdue_positive_after_due_date env p s w r w' :
  datetime_ok (clock env (clock_reads w)) = true ->
  calculate_statutory_claim env p s w = (inr r, w') ->
  exists due,
    strptime env s = inr due /\
    (0 < Claim.days_overdue r <->
     date_leb (date_of (clock env (clock_reads w))) (date_of due) = false) /\
    0 <= Claim.days_overdue r < 3652060.
Proof.
  intros Hok Hc.
  destruct (calculate_inr env p s w r w' Hc)
    as (due & i & Hs & Hdays & _).
  exists due. split; [exact Hs|].
  rewrite Hdays, (days_overdue_ordinals env s w due Hok Hs).
  assert (Hdue := proj1 (strptime_inr env s due Hs)).
  assert (H1 := toordinal_range _ Hok).
  assert (H2 := toordinal_range _ Hdue).
  split; [|lia].
  destruct (date_leb (date_of (clock env (clock_reads w))) (date_of due)) eqn:E.
  - assert (Hle := toordinal_mono _ _ Hok Hdue E).
    split; [lia | discriminate].
  - assert (Hlt := toordinal_lt _ _ Hdue Hok E).
    split; [reflexivity | lia].
Qed.

Lemma days_overdue_positive_after_due_date_witness :
  exists due,
    strptime Example.env (str "2024-01-31") = inr due /\
    (0 < Claim.days_overdue Example.claim_5000 <->
     date_leb (date_of (clock Example.env 0)) (date_of due) = false) /\
    0 <= Claim.days_overdue Example.claim_5000 < 3652060.
Proof.
  apply (days_overdue_positive_after_due_date Example.env (of_int 5000)
           (str "2024-01-31") Example.world Example.claim_5000
           Example.world_after_calculation).
  - reflexivity.
  - vm_compute. reflexivity.
Defined.

(** ** The letter store *)

Lemma letter_path_inj a b : letter_path a = letter_path b -> a = b.
Proof.
  unfold letter_path. intros H.
  apply app_inv_head in H. apply app_inv_head in H.
  apply app_inv_tail in H. exact H.
Qed.

(** What writing the letter does, by what the file system answers. *)
Lemma generate_lba_pdf_cases env c w :
  let path := letter_path (Case.case_id c) in
  let content := lba_content c (clock env (clock_reads w)) in
  generate_lba_pdf env c w
  = match file_write env path content with
    | write_ok =>
        (inr path,
         {| clock_reads := S (clock_reads w);
            files := <[path := content]> (files w);
            outbox := outbox w;
            log := log w ++ [(INFO, str "LBA generated: " ++ path)] |})
    | open_raises e =>
        (inl e,
         {| clock_reads := S (clock_reads w); files := files w;
            outbox := outbox w; log := log w |})
    | write_raises e =>
        (inl e,
         {| clock_reads := S (clock_reads w);
            files := <[path := []]> (files w);
            outbox := outbox w; log := log w |})
    end.
Proof.
  unfold generate_lba_pdf, bind, now, write_file, logger, ret.
  cbv beta iota zeta. cbn [clock_reads files outbox log].
  fold (letter_path (Case.case_id c)).
  destruct (file_write env _ _); reflexivity.
Qed.

Lemma get_case_cases case_id w :
  get_case case_id w
  = match files w !! letter_path case_id with
    | None => (inl (HTTPException 404 (str "Case not found")), w)
    | Some _ =>
        (inr {| CaseStatus.case_id := case_id;
                CaseStatus.status := str "lba_prepared";
                CaseStatus.document := letter_path case_id |}, w)
    end.
Proof. reflexivity. Qed.

Lemma get_case_found case_id content w :
  files w !! letter_path case_id = Some content ->
  get_case case_id w
  = (inr {| CaseStatus.case_id := case_id;
            CaseStatus.status := str "lba_prepared";
            CaseStatus.document := letter_path case_id |}, w).
Proof. intros H. rewrite get_case_cases, H. reflexivity. Qed.

(** X5. A letter that was written can be retrieved. For a case
    identifier that is one plain path component, when
    [generate_lba_pdf] returns, it returns the path
    [/tmp/debtclear_pdfs/<case id>.txt], the file at that path holds the
    letter dated by the clock, every other file is as it was, one INFO
    record names the path, and [get_case] on the case identifier
    answers [lba_prepared] with that path as the document. *)
Theorem written_letter_is_retrievable env c w path w' :
  plain_case_id (Case.case_id c) = true ->
  generate_lba_pdf env c w = (inr path, w') ->
  path = PDF_OUTPUT_DIR ++ str "/" ++ Case.case_id c ++ str ".txt" /\
  files w' !! path = Some (lba_content c (clock env (clock_reads w))) /\
  (forall other, other <> path -> files w' !! other = files w !! other) /\
  log w' = log w ++ [(INFO, str "LBA generated: " ++ path)] /\
  outbox w' = outbox w /\
  clock_reads w' = S (clock_reads w) /\
  get_case (Case.case_id c) w'
  = (inr {| CaseStatus.case_id := Case.case_id c;
            CaseStatus.status := str "lba_prepared";
            CaseStatus.document := path |}, w').
Proof.
  intros _. rewrite generate_lba_pdf_cases. cbv zeta.
  destruct (file_write env _ _); try discriminate.
  intros [= <- <-]. cbn [files log outbox clock_reads].
  split; [reflexivity|].
  split; [apply lookup_insert_eq|].
  split; [intros other Hne; apply lookup_insert_ne; congruence|].
  repeat (split; [reflexivity|]).
  eapply get_case_found. cbn [files]. apply lookup_insert_eq.
Qed.

Lemma written_letter_is_retrievable_witness :
  exists path w',
    plain_case_id (str "DC-20240311-1215") = true /\
    generate_lba_pdf Example.env
      (case_data_of Example.submission (str "DC-20240311-1215")
         Example.claim_5000) Example.world = (inr path, w') /\
    path = str "/tmp/debtclear_pdfs/DC-20240311-1215.txt" /\
    get_case (str "DC-20240311-1215") w'
    = (inr {| CaseStatus.case_id := str "DC-20240311-1215";
              CaseStatus.status := str "lba_prepared";
              CaseStatus.document := path |}, w').
Proof.
  assert (P : plain_case_id
                (Case.case_id
                   (case_data_of Example.submission (str "DC-20240311-1215")
                      Example.claim_5000)) = true)
    by reflexivity.
  eassert (F : fst (generate_lba_pdf Example.env
                      (case_data_of Example.submission (str "DC-20240311-1215")
                         Example.claim_5000) Example.world) = inr _)
    by (vm_compute; reflexivity).
  apply run_inr in F.
  destruct (written_letter_is_retrievable _ _ _ _ _ P F)
    as (Hpath & _ & _ & _ & _ & _ & Hget).
  eexists _, _. split; [exact P|]. split; [exact F|].
  split; [reflexivity | exact Hget].
Defined.



(** ** What the notifier does to the world *)

Lemma send_email_cases env to_email subject html_body w :
  let req := sendgrid_request env to_email subject html_body in
  let after posted record :=
    {| clock_reads := clock_reads w; files := files w;
       outbox := outbox w ++ posted; log := log w ++ [record] |} in
  send_email_via_sendgrid env to_email subject html_body w
  = match import_requests env with
    | Some e =>
        (inr false,
         after [] (ERROR, str "Email send failed: " ++ exc_str e))
    | None =>
        match http_send env req with
        | post_raises e =>
            (inr false,
             after [req] (ERROR, str "Email send failed: " ++ exc_str e))
        | post_response status_code text =>
            if existsb (Z.eqb status_code) [200; 201; 202]
            then (inr true,
                  after [req] (INFO, str "Email sent to " ++ to_email))
            else (inr false,
                  after [req]
                    (ERROR, str "SendGrid error: " ++ str_of_int status_code
                            ++ str " - " ++ text))
        end
    end.
Proof.
  cbv zeta.
  unfold send_email_via_sendgrid, try_except, bind.
  destruct (import_requests env) as [e|].
  - unfold raise, logger, ret. cbv beta iota. cbn [clock_reads files outbox log].
    rewrite app_nil_r. reflexivity.
  - unfold ret at 1. cbv beta iota. unfold requests_post.
    destruct (http_send env _) as [e | status_code text].
    + unfold logger, ret. cbv beta iota. reflexivity.
    + cbv beta iota.
      destruct (existsb (Z.eqb status_code) [200; 201; 202]);
        unfold logger, ret; cbv beta iota; reflexivity.
Qed.

Lemma accepted_status code :
  existsb (Z.eqb code) [200; 201; 202] = true <->
  code = 200 \/ code = 201 \/ code = 202.
Proof.
  cbn [existsb]. rewrite orb_false_r, !orb_true_iff, !Z.eqb_eq. tauto.
Qed.

(** X7. The notifier never raises and never touches a file or the
    clock. Each call leaves exactly one log record, INFO when it
    returns true and ERROR when it returns false, and posts at most one
    request: none when [requests] cannot be imported, one otherwise. It
    returns true only if the transport answered the request with status
    200, 201 or 202. *)
Theorem notifier_effects env to_email subject html_body w :
  let req := sendgrid_request env to_email subject html_body in
  exists sent msg w',
    send_email_via_sendgrid env to_email subject html_body w
    = (inr sent, w') /\
    files w' = files w /\ clock_reads w' = clock_reads w /\
    log w' = log w ++ [(if sent then INFO else ERROR, msg)] /\
    outbox w'
    = outbox w ++ match import_requests env with Some _ => [] | None => [req] end /\
    (sent = true <->
     import_requests env = None /\
     exists code text,
       http_send env req = post_response code text /\
       (code = 200 \/ code = 201 \/ code = 202)).
Proof.
  cbv zeta. rewrite send_email_cases. cbv zeta.
  destruct (import_requests env) as [e|].
  { eexists false, _, _. split; [reflexivity|]. cbn [files clock_reads log outbox].
    repeat (split; [reflexivity|]).
    split; [discriminate | intros [? _]; discriminate]. }
  destruct (http_send env _) as [e | code text] eqn:Hsend.
  { eexists false, _, _. split; [reflexivity|]. cbn [files clock_reads log outbox].
    repeat (split; [reflexivity|]).
    split; [discriminate | intros [_ (c & t & ? & _)]; discriminate]. }
  destruct (existsb (Z.eqb code) [200; 201; 202]) eqn:Hcode.
  - eexists true, _, _. split; [reflexivity|]. cbn [files clock_reads log outbox].
    repeat (split; [reflexivity|]).
    split; [|reflexivity]. intros _. split; [reflexivity|].
    exists code, text. split; [reflexivity|]. apply accepted_status, Hcode.
  - eexists false, _, _. split; [reflexivity|]. cbn [files clock_reads log outbox].
    repeat (split; [reflexivity|]).
    split; [discriminate|]. intros [_ (c & t & [= <- <-] & Hc)].
    apply accepted_status in Hc. congruence.
Qed.

(** X8. A missing API key stops nothing: with [SENDGRID_API_KEY] unset
    the notifier still posts the request, to the SendGrid endpoint with
    a timeout of 10 seconds, and its Authorization header reads
    "Bearer None". *)
Theorem missing_api_key_is_sent_as_None env to_email subject html_body w :
  SENDGRID_API_KEY env = None -> import_requests env = None ->
  exists req,
    outbox (snd (send_email_via_sendgrid env to_email subject html_body w))
    = outbox w ++ [req] /\
    post_authorization req = str "Bearer None" /\
    post_url req = str "https://api.sendgrid.com/v3/mail/send" /\
    post_timeout req = 10 /\
    post_to req = to_email /\ post_subject req = subject /\
    post_body_value req = html_body.
Proof.
  intros Hkey Himp. exists (sendgrid_request env to_email subject html_body).
  split.
  - rewrite send_email_cases. cbv zeta. rewrite Himp.
    destruct (http_send env _) as [e | code text]; [reflexivity|].
    destruct (existsb _ _); reflexivity.
  - unfold sendgrid_request. cbn. rewrite Hkey. repeat split.
Qed.

Lemma missing_api_key_is_sent_as_None_witness :
  exists req,
    outbox (snd (send_email_via_sendgrid Example2.env_no_key
                   (str "ann@example.com") (str "subject") (str "body")
                   Example.world))
    = [req] /\
    post_authorization req = str "Bearer None".
Proof.
  destruct (missing_api_key_is_sent_as_None Example2.env_no_key
              (str "ann@example.com") (str "subject") (str "body")
              Example.world eq_refl eq_refl) as (req & Hout & Hauth & _).
  exists req. split; [exact Hout | exact Hauth].
Defined.

(** ** What the intake handler does to the world *)

(** An accepted submission, with everything it did. *)
Lemma handle_intake_accepted_world env submission w r w' :
  handle_intake env submission w = (inr r, w') ->
  exists claim_calc w2,
    let n := clock_reads w in
    let case_id := case_id_of env submission n in
    let req := notification_of env submission case_id claim_calc in
    calculate_statutory_claim env
      (IntakeSubmission.amount_owed_gbp submission)
      (IntakeSubmission.due_date submission)
      (after_case_id submission w) = (inr claim_calc, w2) /\
    r = response_of submission case_id claim_calc (delivery_accepted env req) /\
    clock_reads w' = S (S (S n)) /\
    files w'
    = <[letter_path case_id :=
          lba_content (case_data_of submission case_id claim_calc)
            (clock env (S (S n)))]> (files w) /\
    outbox w'
    = outbox w ++ match import_requests env with
                  | Some _ => []
                  | None => [req]
                  end /\
    exists rest,
      log w'
      = log w
        ++ [(INFO, str "Intake submission: "
                   ++ IntakeSubmission.client_email submission);
            (INFO, str "LBA generated: " ++ letter_path case_id)]
        ++ rest.
Proof.
  rewrite handle_intake_stages.
  destruct (pystr_eqb _ _); [|discriminate].
  destruct (IntakeSubmission.dpa_accepted submission); [|discriminate].
  cbv beta iota zeta. unfold negb.
  destruct (calculate_statutory_claim env _ _ _) as [[e | claim_calc] w2] eqn:Hc;
    [discriminate|].
  destruct (calculate_inr _ _ _ _ _ _ Hc)
    as (due & i & _ & _ & _ & _ & _ & _ & Hn2 & Hf2 & Ho2 & Hl2).
  cbn [after_case_id clock_reads files outbox log logged_intake] in Hn2, Hf2, Ho2, Hl2.
  set (case_id := case_id_of env submission (clock_reads w)) in *.
  rewrite generate_lba_pdf_cases. cbv zeta.
  change (Case.case_id (case_data_of submission case_id claim_calc))
    with case_id.
  rewrite Hn2.
  destruct (file_write env _ _); try discriminate.
  rewrite send_email_cases. cbv zeta.
  fold (notification_of env submission case_id claim_calc).
  cbn [clock_reads files outbox log].
  intros Hr. exists claim_calc, w2. split; [reflexivity|].
  unfold delivery_accepted.
  destruct (import_requests env) as [e|].
  { injection Hr as <- <-. cbn [clock_reads files outbox log].
    rewrite Hf2, Ho2, Hl2, app_nil_r. repeat (split; [reflexivity|]).
    eexists. rewrite <- !app_assoc. reflexivity. }
  destruct (http_send env _) as [e | code text].
  { injection Hr as <- <-. cbn [clock_reads files outbox log].
    rewrite Hf2, Ho2, Hl2. repeat (split; [reflexivity|]).
    eexists. rewrite <- !app_assoc. reflexivity. }
  destruct (existsb _ _);
    injection Hr as <- <-; cbn [clock_reads files outbox log];
    rewrite Hf2, Ho2, Hl2; repeat (split; [reflexivity|]);
    eexists; rewrite <- !app_assoc; reflexivity.
Qed.

(** Whatever the outcome: what a call of the handler can have done. *)
Lemma handle_intake_world env submission w :
  let w' := snd (handle_intake env submission w) in
  let case_id := case_id_of env submission (clock_reads w) in
  (exists rest,
     log w' = log w ++ (INFO, str "Intake submission: "
                              ++ IntakeSubmission.client_email submission)
                       :: rest) /\
  (exists posted,
     outbox w' = outbox w ++ posted /\ (length posted <= 1)%nat /\
     Forall (fun req => post_to req
                        = IntakeSubmission.client_email submission) posted) /\
  (clock_reads w <= clock_reads w' <= 3 + clock_reads w)%nat /\
  (files w' = files w \/
   exists content, files w' = <[letter_path case_id := content]> (files w)).
Proof.
  cbv zeta. rewrite handle_intake_stages.
  assert (Hnone : forall o : list http_post,
            exists posted, o = o ++ posted /\ (length posted <= 1)%nat /\
              Forall (fun req => post_to req
                        = IntakeSubmission.client_email submission) posted).
  { intros o. exists []. rewrite app_nil_r. split; [reflexivity|].
    split; [cbn; lia | constructor]. }
  destruct (negb (pystr_eqb _ _)).
  { cbn. split; [eexists; reflexivity|]. split; [apply Hnone|].
    split; [lia | left; reflexivity]. }
  destruct (negb (IntakeSubmission.dpa_accepted submission)).
  { cbn. split; [eexists; reflexivity|]. split; [apply Hnone|].
    split; [lia | left; reflexivity]. }
  cbv zeta.
  assert (Hc := calculate_effects env
                  (IntakeSubmission.amount_owed_gbp submission)
                  (IntakeSubmission.due_date submission)
                  (after_case_id submission w)).
  cbv zeta in Hc.
  destruct (calculate_statutory_claim env _ _ _) as [[e | claim_calc] w2].
  { cbn [snd] in Hc |- *. destruct Hc as (Hf & Ho & Hl & Hn).
    cbn [after_case_id clock_reads files outbox log logged_intake] in Hf, Ho, Hl, Hn.
    rewrite Hf, Ho, Hl. split; [eexists; reflexivity|]. split; [apply Hnone|].
    split; [lia | left; reflexivity]. }
  cbn [snd] in Hc. destruct Hc as (Hf & Ho & Hl & Hn).
  cbn [after_case_id clock_reads files outbox log logged_intake] in Hf, Ho, Hl, Hn.
  set (case_id := case_id_of env submission (clock_reads w)) in *.
  rewrite generate_lba_pdf_cases. cbv zeta.
  change (Case.case_id (case_data_of submission case_id claim_calc))
    with case_id.
  destruct (file_write env _ _) as [|e|e].
  - rewrite send_email_cases. cbv zeta.
    assert (Hone : forall (o : list http_post) body,
              exists posted,
                o ++ [sendgrid_request env
                        (IntakeSubmission.client_email submission)
                        (str "Your Letter Before Action - " ++ case_id) body]
                = o ++ posted /\ (length posted <= 1)%nat /\
                Forall (fun req => post_to req
                          = IntakeSubmission.client_email submission) posted).
    { intros o body. eexists. split; [reflexivity|]. split; [cbn; lia|].
      constructor; [reflexivity | constructor]. }
    destruct (import_requests env) as [e|];
      [|destruct (http_send env _) as [e | code text];
        [|destruct (existsb _ _)]];
      cbn [snd clock_reads files outbox log];
      rewrite Hf, Ho, Hl, <- ?app_assoc, ?app_nil_r;
      (split; [eexists; reflexivity|]);
      (split; [first [apply Hone | apply Hnone]|]);
      (split; [lia | right; eexists; reflexivity]).
  - cbn [snd clock_reads files outbox log].
    rewrite Hf, Ho, Hl, <- ?app_assoc.
    split; [eexists; reflexivity|]. split; [apply Hnone|].
    split; [lia | left; reflexivity].
  - cbn [snd clock_reads files outbox log].
    rewrite Hf, Ho, Hl, <- ?app_assoc.
    split; [eexists; reflexivity|]. split; [apply Hnone|].
    split; [lia | right; eexists; reflexivity].
Qed.

(** X9. Whatever its outcome, a call of the intake handler only adds
    to the world. The log keeps its records and gains first the INFO
    record with the client's e-mail address, also when the submission
    is rejected. At most one request is posted, addressed to the
    client. The clock is read at most three times. No file is removed,
    and the only path that can change is the letter of the case
    identifier built from the first reading of the clock. *)
Theorem intake_only_adds env submission w :
  let w' := snd (handle_intake env submission w) in
  (exists rest,
     log w' = log w ++ (INFO, str "Intake submission: "
                              ++ IntakeSubmission.client_email submission)
                       :: rest) /\
  (exists posted,
     outbox w' = outbox w ++ posted /\ (length posted <= 1)%nat /\
     Forall (fun req => post_to req
                        = IntakeSubmission.client_email submission) posted) /\
  (clock_reads w <= clock_reads w' <= 3 + clock_reads w)%nat /\
  (forall path, is_Some (files w !! path) -> is_Some (files w' !! path)) /\
  (forall path,
     path <> letter_path (case_id_of env submission (clock_reads w)) ->
     files w' !! path = files w !! path).
Proof.
  cbv zeta.
  destruct (handle_intake_world env submission w) as (Hl & Ho & Hn & Hf).
  split; [exact Hl|]. split; [exact Ho|]. split; [exact Hn|].
  destruct Hf as [-> | [content ->]].
  - split; [intros path H; exact H | reflexivity].
  - split.
    + intros path H.
      destruct (decide (letter_path (case_id_of env submission (clock_reads w))
                        = path)) as [<- | Hne].
      * rewrite lookup_insert_eq. eexists. reflexivity.
      * rewrite lookup_insert_ne by exact Hne. exact H.
    + intros path Hne. apply lookup_insert_ne. congruence.
Qed.

(** X10. An intake leaves every other case as it was: for a case
    identifier that is one plain path component and is not the one
    built for this submission, [get_case] answers after the call what
    it answered before, whatever the outcome of the call. *)
Theorem intake_leaves_other_cases env submission w case_id :
  plain_case_id case_id = true ->
  case_id <> case_id_of env submission (clock_reads w) ->
  fst (get_case case_id (snd (handle_intake env submission w)))
  = fst (get_case case_id w).
Proof.
  intros _ Hne. rewrite !get_case_cases.
  destruct (handle_intake_world env submission w) as (_ & _ & _ & Hf).
  assert (Hfiles : files (snd (handle_intake env submission w))
                   !! letter_path case_id
                   = files w !! letter_path case_id).
  { destruct Hf as [-> | [content ->]]; [reflexivity|].
    apply lookup_insert_ne. intros H. apply letter_path_inj in H. congruence. }
  rewrite Hfiles. destruct (files w !! letter_path case_id); reflexivity.
Qed.

Lemma intake_leaves_other_cases_witness :
  fst (get_case (str "DC-20240310-0001")
         (snd (handle_intake Example.env Example.submission Example.world)))
  = inl (HTTPException 404 (str "Case not found")).
Proof.
  apply (intake_leaves_other_cases Example.env Example.submission
           Example.world (str "DC-20240310-0001")).
  - reflexivity.
  - vm_compute. discriminate.
Defined.

(** ** How the intake handler fails *)

Lemma passes_gates submission :
  IntakeSubmission.debtor_type submission = str "business" ->
  negb (pystr_eqb (IntakeSubmission.debtor_type submission) (str "business"))
  = false.
Proof.
  intros H. unfold pystr_eqb. rewrite (bool_decide_eq_true_2 _ H). reflexivity.
Qed.

(** X11. A due date that [strptime] refuses is not answered with a 422:
    once both gates are passed the [ValueError] of [strptime] leaves
    the handler as it is. By then the submission is logged and the
    clock has been read once, for the case identifier; no file is
    written and no request is sent. *)
Theorem malformed_due_date_escapes_the_handler env submission w why :
  IntakeSubmission.debtor_type submission = str "business" ->
  IntakeSubmission.dpa_accepted submission = true ->
  strptime env (IntakeSubmission.due_date submission) = inl why ->
  handle_intake env submission w
  = (inl (ValueError why),
     {| clock_reads := S (clock_reads w); files := files w;
        outbox := outbox w;
        log := log w ++ [(INFO, str "Intake submission: "
                                ++ IntakeSubmission.client_email submission)] |}).
Proof.
  intros Hty Hdpa Hs. rewrite handle_intake_stages.
  rewrite (passes_gates _ Hty), Hdpa. cbv beta iota zeta. unfold negb.
  unfold calculate_statutory_claim. rewrite Hs. reflexivity.
Qed.

Lemma malformed_due_date_escapes_the_handler_witness :
  handle_intake Example.env
    (Example2.with_due_date (str "31/01/2024") Example.submission)
    Example.world
  = (inl (ValueError (time_data_does_not_match (str "31/01/2024"))),
     {| clock_reads := 1; files := ∅; outbox := [];
        log := [(INFO, str "Intake submission: ann@example.com")] |}).
Proof.
  apply (malformed_due_date_escapes_the_handler Example.env
           (Example2.with_due_date (str "31/01/2024") Example.submission)
           Example.world (time_data_does_not_match (str "31/01/2024"))).
  - reflexivity.
  - reflexivity.
  - vm_compute. reflexivity.
Defined.

(** X12. When the letter cannot be opened for writing, the handler
    answers 500 "LBA generation failed" and sends no e-mail: no request
    is posted, no file is changed, and the log gains the intake record
    and one ERROR record with the text of the exception. The clock has
    been read three times. *)
Theorem unwritable_letter_is_a_500 env submission w claim_calc w2 e :
  IntakeSubmission.debtor_type submission = str "business" ->
  IntakeSubmission.dpa_accepted submission = true ->
  calculate_statutory_claim env
    (IntakeSubmission.amount_owed_gbp submission)
    (IntakeSubmission.due_date submission)
    (after_case_id submission w) = (inr claim_calc, w2) ->
  (let case_id := case_id_of env submission (clock_reads w) in
   file_write env (letter_path case_id)
     (lba_content (case_data_of submission case_id claim_calc)
        (clock env (S (S (clock_reads w)))))
   = open_raises e) ->
  handle_intake env submission w
  = (inl (HTTPException 500 (str "LBA generation failed")),
     {| clock_reads := S (S (S (clock_reads w))); files := files w;
        outbox := outbox w;
        log := log w ++ [(INFO, str "Intake submission: "
                                ++ IntakeSubmission.client_email submission);
                         (ERROR, str "PDF generation failed: " ++ exc_str e)] |}).
Proof.
  intros Hty Hdpa Hc Hw. cbv zeta in Hw. rewrite handle_intake_stages.
  rewrite (passes_gates _ Hty), Hdpa. cbv beta iota zeta. unfold negb.
  rewrite Hc.
  destruct (calculate_inr _ _ _ _ _ _ Hc)
    as (due & i & _ & _ & _ & _ & _ & _ & Hn2 & Hf2 & Ho2 & Hl2).
  cbn [after_case_id clock_reads files outbox log logged_intake] in Hn2, Hf2, Ho2, Hl2.
  rewrite generate_lba_pdf_cases. cbv zeta.
  change (Case.case_id (case_data_of submission
            (case_id_of env submission (clock_reads w)) claim_calc))
    with (case_id_of env submission (clock_reads w)).
  rewrite Hn2, Hw. cbn [clock_reads files outbox log].
  rewrite Hf2, Ho2, Hl2, <- app_assoc. reflexivity.
Qed.

Lemma unwritable_letter_is_a_500_witness :
  exists w',
    handle_intake Example2.env_read_only Example.submission Example.world
    = (inl (HTTPException 500 (str "LBA generation failed")), w') /\
    outbox w' = [] /\ files w' = ∅.
Proof.
  eexists. split.
  - apply (unwritable_letter_is_a_500 Example2.env_read_only Example.submission
             Example.world Example.claim_5000
             {| clock_reads := 2; files := ∅; outbox := [];
                log := [(INFO, str "Intake submission: ann@example.com")] |}
             {| exc_class := "PermissionError";
                exc_str := str "[Errno 13] Permission denied" |}).
    + reflexivity.
    + reflexivity.
    + vm_compute. reflexivity.
    + reflexivity.
  - split; reflexivity.
Defined.

(** X13. When the letter is opened but writing it raises (the file
    encoding cannot write the pound sign, the disk is full), the
    handler answers 500 "LBA generation failed" and sends no e-mail,
    yet the file now stands at the path of the case: [get_case] on the
    case identifier answers [lba_prepared] for a case whose intake
    failed. *)
Theorem failed_write_leaves_a_retrievable_case env submission w claim_calc w2 e :
  IntakeSubmission.debtor_type submission = str "business" ->
  IntakeSubmission.dpa_accepted submission = true ->
  calculate_statutory_claim env
    (IntakeSubmission.amount_owed_gbp submission)
    (IntakeSubmission.due_date submission)
    (after_case_id submission w) = (inr claim_calc, w2) ->
  (let case_id := case_id_of env submission (clock_reads w) in
   file_write env (letter_path case_id)
     (lba_content (case_data_of submission case_id claim_calc)
        (clock env (S (S (clock_reads w)))))
   = write_raises e) ->
  let case_id := case_id_of env submission (clock_reads w) in
  exists w',
    handle_intake env submission w
    = (inl (HTTPException 500 (str "LBA generation failed")), w') /\
    outbox w' = outbox w /\
    log w' = log w ++ [(INFO, str "Intake submission: "
                              ++ IntakeSubmission.client_email submission);
                       (ERROR, str "PDF generation failed: " ++ exc_str e)] /\
    is_Some (files w' !! letter_path case_id) /\
    (forall path, path <> letter_path case_id ->
       files w' !! path = files w !! path) /\
    get_case case_id w'
    = (inr {| CaseStatus.case_id := case_id;
              CaseStatus.status := str "lba_prepared";
              CaseStatus.document := letter_path case_id |}, w').
Proof.
  intros Hty Hdpa Hc Hw case_id. cbv zeta in Hw. fold case_id in Hw.
  rewrite handle_intake_stages.
  rewrite (passes_gates _ Hty), Hdpa. cbv beta iota zeta. unfold negb.
  rewrite Hc.
  destruct (calculate_inr _ _ _ _ _ _ Hc)
    as (due & i & _ & _ & _ & _ & _ & _ & Hn2 & Hf2 & Ho2 & Hl2).
  cbn [after_case_id clock_reads files outbox log logged_intake] in Hn2, Hf2, Ho2, Hl2.
  rewrite generate_lba_pdf_cases. cbv zeta. fold case_id.
  change (Case.case_id (case_data_of submission case_id claim_calc))
    with case_id.
  rewrite Hn2, Hw. cbn [clock_reads files outbox log].
  eexists. split; [reflexivity|]. cbn [clock_reads files outbox log].
  split; [exact Ho2|].
  split; [rewrite Hl2, <- app_assoc; reflexivity|].
  split; [rewrite lookup_insert_eq; eexists; reflexivity|].
  split; [intros path Hne; rewrite lookup_insert_ne by congruence;
          rewrite Hf2; reflexivity|].
  eapply get_case_found. cbn [files]. apply lookup_insert_eq.
Qed.

Lemma failed_write_leaves_a_retrievable_case_witness :
  exists w',
    handle_intake Example2.env_ascii_files Example.submission Example.world
    = (inl (HTTPException 500 (str "LBA generation failed")), w') /\
    get_case (str "DC-20240311-8785") Example.world
    = (inl (HTTPException 404 (str "Case not found")), Example.world) /\
    get_case (str "DC-20240311-8785") w'
    = (inr {| CaseStatus.case_id := str "DC-20240311-8785";
              CaseStatus.status := str "lba_prepared";
              CaseStatus.document
                := str "/tmp/debtclear_pdfs/DC-20240311-8785.txt" |}, w').
Proof.
  destruct (failed_write_leaves_a_retrievable_case Example2.env_ascii_files
              Example.submission Example.world Example.claim_5000
              {| clock_reads := 2; files := ∅; outbox := [];
                 log := [(INFO, str "Intake submission: ann@example.com")] |}
              {| exc_class := "UnicodeEncodeError";
                 exc_str := str "'ascii' codec can't encode character" |}
              eq_refl eq_refl ltac:(vm_compute; reflexivity) eq_refl)
    as (w' & Hrun & _ & _ & _ & _ & Hget).
  exists w'. split; [exact Hrun|]. split; [reflexivity | exact Hget].
Defined.

(** X14. The handler has six outcomes and no other: the response with
    status "success"; 422 with the B2B-only text, for a debtor type
    other than "business"; 422 with the consent text, for a business
    debtor without consent; 500 "LBA generation failed", once the gates
    are passed and the calculator has returned; and the [ValueError] or
    [OverflowError] of the calculator, which it lets through
    unchanged. It raises no other HTTP status. *)
Theorem handle_intake_outcomes env submission w :
  let business :=
    IntakeSubmission.debtor_type submission = str "business" in
  let consent := IntakeSubmission.dpa_accepted submission = true in
  let calculated :=
    fst (calculate_statutory_claim env
           (IntakeSubmission.amount_owed_gbp submission)
           (IntakeSubmission.due_date submission)
           (after_case_id submission w)) in
  match fst (handle_intake env submission w) with
  | inr r =>
      Response.status r = str "success" /\ business /\ consent /\
      exists claim_calc, calculated = inr claim_calc
  | inl (HTTPException status_code detail) =>
      (status_code = 422 /\ detail = B2B_ONLY /\ ~ business) \/
      (status_code = 422 /\ detail = DPA_REQUIRED /\ business /\ ~ consent) \/
      (status_code = 500 /\ detail = str "LBA generation failed" /\
       business /\ consent /\ exists claim_calc, calculated = inr claim_calc)
  | inl e => business /\ consent /\ calculated = inl e
  end.
Proof.
  cbv zeta. rewrite handle_intake_stages. unfold pystr_eqb.
  destruct (bool_decide_reflect
              (IntakeSubmission.debtor_type submission = str "business"))
    as [Hty | Hty]; cbn [negb fst].
  2: { left. auto. }
  destruct (IntakeSubmission.dpa_accepted submission) eqn:Hdpa; cbn [negb fst].
  2: { right. left. repeat split; [exact Hty | discriminate]. }
  destruct (calculate_statutory_claim env _ _ _) as [[e | claim_calc] w2] eqn:Hc;
    cbn [fst].
  { destruct e as [why | | code detail]; [auto | auto |].
    exfalso. revert Hc. unfold calculate_statutory_claim.
    destruct (strptime env _); [discriminate|].
    unfold bind, now, ret, raise. cbv beta iota.
    destruct (interest _ _) as [[]|]; discriminate. }
  destruct (generate_lba_pdf env _ w2) as [[e | path] w3]; cbn [fst].
  { right. right. repeat split; eauto. }
  match goal with
  | |- context [send_email_via_sendgrid ?env' ?a ?b ?c ?w0] =>
      destruct (send_email_returns env' a b c w0) as (w4 & -> & _)
  end.
  cbn [fst]. repeat split; eauto.
Qed.

(** ** What an accepted submission leaves behind *)

(** X15. An accepted submission reads the clock three times, and each
    reading decides something else: the first gives the date in the
    case identifier, the second the days overdue and so the interest,
    the third the date printed in the letter. The letter stands at the
    path of the case identifier. *)
Theorem accepted_intake_reads_the_clock_three_times env submission w r w' :
  handle_intake env submission w = (inr r, w') ->
  let n := clock_reads w in
  clock_reads w' = S (S (S n)) /\
  Response.case_id r
  = str "DC-" ++ strftime_Ymd (clock env n) ++ str "-"
    ++ zero_pad 4
         (Z.abs (py_hash env (IntakeSubmission.client_email submission))
          mod 10000) /\
  exists due claim_calc,
    strptime env (IntakeSubmission.due_date submission) = inr due /\
    Claim.days_overdue claim_calc
    = Z.max 0 (timedelta_days (clock env (S n)) due) /\
    interest (IntakeSubmission.amount_owed_gbp submission)
      (Claim.days_overdue claim_calc)
    = inr (Response.statutory_interest_gbp r) /\
    Claim.statutory_interest_gbp claim_calc
    = Response.statutory_interest_gbp r /\
    Claim.total_claim_gbp claim_calc = Response.total_claim_gbp r /\
    files w' !! letter_path (Response.case_id r)
    = Some (lba_content
              (case_data_of submission (Response.case_id r) claim_calc)
              (clock env (S (S n)))).
Proof.
  intros Hr n.
  destruct (handle_intake_accepted_world _ _ _ _ _ Hr)
    as (claim_calc & w2 & Hc & -> & Hn & Hf & _).
  fold n in Hc, Hn, Hf.
  destruct (calculate_inr _ _ _ _ _ _ Hc)
    as (due & i & Hs & Hdays & Hi & Hi' & _).
  cbn [after_case_id clock_reads] in Hdays.
  split; [exact Hn|]. split; [reflexivity|].
  exists due, claim_calc. cbn [response_of Response.case_id
    Response.statutory_interest_gbp Response.total_claim_gbp].
  split; [exact Hs|]. split; [exact Hdays|].
  split; [rewrite Hi'; exact Hi|]. split; [reflexivity|].
  split; [reflexivity|]. rewrite Hf. apply lookup_insert_eq.
Qed.

Lemma accepted_intake_reads_the_clock_three_times_witness :
  exists r w',
    handle_intake Example.env_days Example.submission Example.world
    = (inr r, w') /\
    clock_reads w' = 3%nat /\
    Response.case_id r = str "DC-20240311-8785".
Proof.
  eassert (F : fst (handle_intake Example.env_days Example.submission
                      Example.world) = inr _)
    by (vm_compute; reflexivity).
  apply run_inr in F.
  destruct (accepted_intake_reads_the_clock_three_times _ _ _ _ _ F)
    as (Hn & Hid & _).
  eexists _, _. split; [exact F|]. split; [exact Hn | reflexivity].
Defined.

(** X16. A second accepted submission with the same case identifier
    replaces the letter of the first: after both, the files are those
    from before the first with the second letter alone at the path of
    the case. The first letter has left no trace. *)
Theorem same_case_id_overwrites_the_letter env s1 s2 w r1 w1 r2 w2 :
  handle_intake env s1 w = (inr r1, w1) ->
  handle_intake env s2 w1 = (inr r2, w2) ->
  Response.case_id r1 = Response.case_id r2 ->
  exists letter1 letter2,
    files w1 = <[letter_path (Response.case_id r1) := letter1]> (files w) /\
    files w2 = <[letter_path (Response.case_id r1) := letter2]> (files w) /\
    files w2 !! letter_path (Response.case_id r1) = Some letter2 /\
    exists claim_calc,
      Claim.total_claim_gbp claim_calc = Response.total_claim_gbp r2 /\
      letter2
      = lba_content (case_data_of s2 (Response.case_id r2) claim_calc)
          (clock env (S (S (clock_reads w1)))).
Proof.
  intros H1 H2 Hid.
  destruct (handle_intake_accepted_world _ _ _ _ _ H1)
    as (c1 & w1' & _ & -> & _ & Hf1 & _).
  destruct (handle_intake_accepted_world _ _ _ _ _ H2)
    as (c2 & w2' & _ & -> & _ & Hf2 & _).
  cbn [response_of Response.case_id Response.total_claim_gbp] in Hid |- *.
  rewrite <- Hid in Hf2. rewrite Hf1 in Hf2. rewrite insert_insert_eq in Hf2.
  eexists _, _. split; [exact Hf1|]. split; [exact Hf2|].
  split; [rewrite Hf2; apply lookup_insert_eq|].
  exists c2. split; [reflexivity|]. rewrite <- Hid. reflexivity.
Qed.

Lemma same_case_id_overwrites_the_letter_witness :
  exists r1 w1 r2 w2 letter2,
    handle_intake Example.env Example.submission Example.world = (inr r1, w1) /\
    handle_intake Example.env
      (Example.with_amount (of_int 7000) Example.submission) w1
    = (inr r2, w2) /\
    files w2 = <[letter_path (Response.case_id r1) := letter2]> ∅.
Proof.
  eassert (F1 : fst (handle_intake Example.env Example.submission
                       Example.world) = inr _)
    by (vm_compute; reflexivity).
  apply run_inr in F1.
  eassert (F2 : fst (handle_intake Example.env
                       (Example.with_amount (of_int 7000) Example.submission)
                       (snd (handle_intake Example.env Example.submission
                               Example.world))) = inr _)
    by (vm_compute; reflexivity).
  apply run_inr in F2.
  destruct (same_case_id_overwrites_the_letter _ _ _ _ _ _ _ _ F1 F2 eq_refl)
    as (letter1 & letter2 & _ & Hf & _).
  eexists _, _, _, _, letter2. split; [exact F1|]. split; [exact F2 | exact Hf].
Defined.

(** ** The shape of a case identifier *)

Lemma int_of_digits_app a b :
  int_of_digits (a ++ b)
  = int_of_digits a * 10 ^ Z.of_nat (length b) + int_of_digits b.
Proof.
  unfold int_of_digits. rewrite fold_left_app.
  generalize (fold_left (fun a c => 10 * a + (Z.of_N c - 48)) a 0). intros x.
  revert x. induction b as [|c b IH]; intros x.
  - cbn. lia.
  - cbn [fold_left length]. rewrite IH, (IH (10 * 0 + (Z.of_N c - 48))).
    rewrite Nat2Z.inj_succ, Z.pow_succ_r by lia. ring.
Qed.

Lemma strftime_Ymd_shape t :
  datetime_ok t = true ->
  length (strftime_Ymd t) = 8%nat /\
  forallb is_ascii_digit (strftime_Ymd t) = true /\
  int_of_digits (strftime_Ymd t) = year t * 10000 + month t * 100 + day t.
Proof.
  unfold datetime_ok, strftime_Ymd. intros Hok.
  repeat (apply andb_prop in Hok; destruct Hok as [Hok ?]).
  assert (H31 := days_in_month_le_31 (year t) (month t)).
  assert (Ly : length (zero_pad 4 (year t)) = 4%nat)
    by (apply zero_pad_length; change (10 ^ Z.of_nat 4) with 10000; lia).
  assert (Lm : length (zero_pad 2 (month t)) = 2%nat)
    by (apply zero_pad_length; change (10 ^ Z.of_nat 2) with 100; lia).
  assert (Ld : length (zero_pad 2 (day t)) = 2%nat)
    by (apply zero_pad_length; change (10 ^ Z.of_nat 2) with 100; lia).
  split; [rewrite !length_app; lia|]. split.
  - rewrite !forallb_app, !zero_pad_digits by lia. reflexivity.
  - rewrite !int_of_digits_app, !length_app, Lm, Ld.
    rewrite !int_of_digits_zero_pad by lia.
    change (10 ^ Z.of_nat (2 + 2)) with 10000.
    change (10 ^ Z.of_nat 2) with 100. ring.
Qed.

(** The case identifiers the handler builds are plain path components,
    whatever the hash of the address. *)
Lemma case_id_of_plain env submission n :
  datetime_ok (clock env n) = true ->
  plain_case_id (case_id_of env submission n) = true.
Proof.
  intros Hok. destruct (strftime_Ymd_shape _ Hok) as (Ld & Dd & _).
  set (h := Z.abs (py_hash env (IntakeSubmission.client_email submission))
            mod 10000).
  assert (Hh : 0 <= h < 10000) by (apply Z.mod_pos_bound; lia).
  assert (Lb : length (zero_pad 4 h) = 4%nat)
    by (apply zero_pad_length; change (10 ^ Z.of_nat 4) with 10000; lia).
  assert (Db : forallb is_ascii_digit (zero_pad 4 h) = true)
    by (apply zero_pad_digits; lia).
  assert (Hd : forall l, forallb is_ascii_digit l = true ->
               forallb (fun c => (32 <=? c)%N && (c <=? 126)%N
                                 && negb (c =? 47)%N) l = true).
  { intros l Hl. rewrite forallb_forall in *. intros c Hc.
    specialize (Hl c Hc). unfold is_ascii_digit in Hl.
    apply andb_prop in Hl as [H1 H2].
    apply N.leb_le in H1. apply N.leb_le in H2.
    rewrite !andb_true_iff, negb_true_iff, !N.leb_le, N.eqb_neq. lia. }
  unfold plain_case_id, case_id_of. fold h.
  apply andb_true_intro. split.
  - rewrite !forallb_app, (Hd _ Dd), (Hd _ Db). reflexivity.
  - rewrite !length_app, Ld, Lb. reflexivity.
Qed.

(** X17. Under a clock that shows a year of four digits, the case
    identifier of an accepted submission is [DC-], the eight digits
    [YYYYMMDD] of the clock's date, a hyphen and four digits: sixteen
    characters. The four digits read back as the absolute value of the
    hash of the client's e-mail address modulo 10000. *)
Theorem case_id_shape env submission w r w' :
  datetime_ok (clock env (clock_reads w)) = true ->
  1000 <= year (clock env (clock_reads w)) ->
  handle_intake env submission w = (inr r, w') ->
  let today := clock env (clock_reads w) in
  exists date bucket,
    Response.case_id r = str "DC-" ++ date ++ str "-" ++ bucket /\
    length date = 8%nat /\ forallb is_ascii_digit date = true /\
    int_of_digits date = year today * 10000 + month today * 100 + day today /\
    length bucket = 4%nat /\ forallb is_ascii_digit bucket = true /\
    int_of_digits bucket
    = Z.abs (py_hash env (IntakeSubmission.client_email submission))
      mod 10000 /\
    length (Response.case_id r) = 16%nat.
Proof.
  intros Hok _ Hr today.
  destruct (handle_intake_accepted_world _ _ _ _ _ Hr)
    as (claim_calc & w2 & _ & -> & _).
  cbn [response_of Response.case_id]. unfold case_id_of. fold today.
  destruct (strftime_Ymd_shape today Hok) as (Ld & Dd & Vd).
  set (h := Z.abs (py_hash env (IntakeSubmission.client_email submission))
            mod 10000).
  assert (Hh : 0 <= h < 10000) by (apply Z.mod_pos_bound; lia).
  assert (Lb : length (zero_pad 4 h) = 4%nat)
    by (apply zero_pad_length; change (10 ^ Z.of_nat 4) with 10000; lia).
  exists (strftime_Ymd today), (zero_pad 4 h).
  split; [reflexivity|]. split; [exact Ld|]. split; [exact Dd|].
  split; [exact Vd|]. split; [exact Lb|].
  split; [apply zero_pad_digits; lia|].
  split; [apply int_of_digits_zero_pad; lia|].
  rewrite !length_app, Ld, Lb. reflexivity.
Qed.

Lemma case_id_shape_witness :
  exists r w' date bucket,
    handle_intake Example.env Example.submission Example.world = (inr r, w') /\
    Response.case_id r = str "DC-" ++ date ++ str "-" ++ bucket /\
    int_of_digits date = 20240311 /\ int_of_digits bucket = 8785.
Proof.
  eassert (F : fst (handle_intake Example.env Example.submission
                      Example.world) = inr _)
    by (vm_compute; reflexivity).
  apply run_inr in F.
  destruct (case_id_shape Example.env Example.submission Example.world _ _
              eq_refl ltac:(vm_compute; discriminate) F)
    as (date & bucket & Hid & _ & _ & Hdate & _ & _ & Hbucket & _).
  eexists _, _, date, bucket. split; [exact F|]. split; [exact Hid|].
  split; [exact Hdate | exact Hbucket].
Defined.

(** ** The figures of the response *)

Lemma binary_round_not_nan s m e :
  is_nan (binary_round prec emax s m e) = false.
Proof.
  unfold binary_round. destruct (shl_align m e _) as [mz ez].
  destruct (binary_round_aux_cases s (Z.pos mz) ez loc_Exact ltac:(lia))
    as [-> | [-> | (m' & e' & -> & _)]]; reflexivity.
Qed.

Lemma finite_not_nan x : is_finite x = true -> is_nan x = false.
Proof. destruct x; [reflexivity | discriminate | discriminate | reflexivity]. Qed.

(** A sum is a NaN only if a term is one or the terms are opposite
    infinities. *)
Lemma add_not_nan x y :
  is_nan x = false -> is_finite y = true -> is_nan (add x y) = false.
Proof.
  destruct x as [sx | sx | | sx mx ex], y as [sy | sy | | sy my ey];
    try discriminate; intros _ _.
  - destruct sx, sy; reflexivity.
  - reflexivity.
  - reflexivity.
  - reflexivity.
  - reflexivity.
  - unfold add, SFadd.
    destruct (shl_align mx ex (Z.min ex ey)) as [mx' ex'].
    destruct (shl_align my ey (Z.min ex ey)) as [my' ey'].
    cbn [fst]. unfold binary_normalize.
    destruct (cond_Zopp sx (Z.pos mx') + cond_Zopp sy (Z.pos my'));
      [reflexivity | apply binary_round_not_nan | apply binary_round_not_nan].
Qed.

(** X18. The figures of a success response belong together: the
    principal is the submitted amount, the total is the float sum of
    the response's own principal, interest and compensation, the
    compensation is 40, 70 or 100, principal and interest are finite
    numbers, and the total is never a NaN. *)
Theorem response_figures_belong_together env submission w r w' :
  handle_intake env submission w = (inr r, w') ->
  Response.client_email r = IntakeSubmission.client_email submission /\
  Response.amount_owed_gbp r = IntakeSubmission.amount_owed_gbp submission /\
  Response.total_claim_gbp r
  = add (add (Response.amount_owed_gbp r) (Response.statutory_interest_gbp r))
        (of_int (Response.compensation_gbp r)) /\
  (Response.compensation_gbp r = 40 \/ Response.compensation_gbp r = 70 \/
   Response.compensation_gbp r = 100) /\
  is_finite (Response.amount_owed_gbp r) = true /\
  is_finite (Response.statutory_interest_gbp r) = true /\
  is_nan (Response.total_claim_gbp r) = false.
Proof.
  intros Hr.
  destruct (handle_intake_accepted_world _ _ _ _ _ Hr)
    as (claim_calc & w2 & Hc & -> & _).
  destruct (calculate_inr _ _ _ _ _ _ Hc)
    as (due & i & _ & _ & Hi & Hi' & Hcomp & Htotal & _).
  cbn [response_of Response.client_email Response.amount_owed_gbp
       Response.total_claim_gbp Response.statutory_interest_gbp
       Response.compensation_gbp].
  set (p := IntakeSubmission.amount_owed_gbp submission) in *.
  rewrite Hi', Hcomp, Htotal.
  assert (Hfi : is_finite i = true) by exact (interest_finite _ _ _ Hi).
  assert (Hfp : is_finite p = true).
  { destruct p as [s | s | | s m e]; try reflexivity.
    - exfalso. exact (interest_infinite _ _ _ Hi).
    - apply interest_inr_not_nan in Hi. discriminate. }
  assert (Hcases : compensation p = 40 \/ compensation p = 70 \/
                   compensation p = 100).
  { unfold compensation. destruct (ltb p (of_int 1000)); [auto|].
    destruct (ltb p (of_int 10000)); auto. }
  repeat (split; [first [reflexivity | assumption]|]).
  apply add_not_nan.
  - apply add_not_nan; [|exact Hfi]. apply finite_not_nan, Hfp.
  - destruct Hcases as [-> | [-> | ->]]; vm_compute; reflexivity.
Qed.

Lemma response_figures_belong_together_witness :
  exists r w',
    handle_intake Example.env Example.submission Example.world = (inr r, w') /\
    Response.total_claim_gbp r = of_decimal 513986 2 /\
    Response.compensation_gbp r = 70.
Proof.
  eassert (F : fst (handle_intake Example.env Example.submission
                      Example.world) = inr _)
    by (vm_compute; reflexivity).
  apply run_inr in F.
  destruct (response_figures_belong_together _ _ _ _ _ F) as (_ & _ & Ht & _).
  eexists _, _. split; [exact F|]. split; [|reflexivity].
  rewrite Ht. vm_compute. reflexivity.
Defined.

(** ** The health endpoint *)

Lemma iso_date_length y m d :
  0 <= y <= 9999 -> 0 <= m <= 99 -> 0 <= d <= 99 ->
  length (iso_date y m d) = 10%nat.
Proof.
  intros Hy Hm Hd. unfold iso_date. rewrite !length_app.
  rewrite (zero_pad_length 3), !(zero_pad_length 1);
    [reflexivity | change (10 ^ Z.of_nat 2) with 100; lia ..
    | change (10 ^ Z.of_nat 4) with 10000; lia].
Qed.

(** X19. The health endpoint always answers, with status "ok" and the
    name of the service, after one reading of the clock and nothing
    else: no file, no request, no log record. Its timestamp has 19
    characters when the microseconds of the clock are zero and 26
    otherwise, and its first ten characters are the clock's date
    written [YYYY-MM-DD], a due date that [strptime] takes for that
    very date. *)
Theorem health_reports_the_clock env w :
  datetime_ok (clock env (clock_reads w)) = true ->
  let t := clock env (clock_reads w) in
  exists r,
    health env w
    = (inr r, {| clock_reads := S (clock_reads w); files := files w;
                 outbox := outbox w; log := log w |}) /\
    HealthStatus.status r = str "ok" /\
    HealthStatus.service r = str "debtclear-webhook" /\
    length (HealthStatus.timestamp r)
    = (if microsecond t =? 0 then 19%nat else 26%nat) /\
    firstn 10 (HealthStatus.timestamp r)
    = iso_date (year t) (month t) (day t) /\
    strptime env (firstn 10 (HealthStatus.timestamp r))
    = inr (mk_datetime (year t) (month t) (day t) 0 0 0 0).
Proof.
  intros Hok. cbv zeta.
  eexists. split; [reflexivity|].
  cbn [HealthStatus.status HealthStatus.service HealthStatus.timestamp].
  split; [reflexivity|]. split; [reflexivity|].
  set (t := clock env (clock_reads w)) in *.
  unfold datetime_ok in Hok.
  repeat (apply andb_prop in Hok; destruct Hok as [Hok ?]).
  assert (H31 := days_in_month_le_31 (year t) (month t)).
  assert (Liso : length (iso_date (year t) (month t) (day t)) = 10%nat)
    by (apply iso_date_length; lia).
  assert (Hiso : isoformat t
                 = iso_date (year t) (month t) (day t)
                   ++ str "T" ++ zero_pad 2 (hour t) ++ str ":"
                   ++ zero_pad 2 (minute t) ++ str ":"
                   ++ zero_pad 2 (second t)
                   ++ (if microsecond t =? 0 then []
                       else str "." ++ zero_pad 6 (microsecond t))).
  { unfold isoformat, iso_date. rewrite <- !app_assoc. reflexivity. }
  assert (Htake : firstn 10 (isoformat t)
                  = iso_date (year t) (month t) (day t)).
  { rewrite Hiso, <- Liso. apply take_app_length. }
  split.
  - rewrite Hiso, !length_app, Liso.
    rewrite !(zero_pad_length 1)
      by (change (10 ^ Z.of_nat 2) with 100; lia).
    destruct (microsecond t =? 0); [reflexivity|].
    rewrite length_app, (zero_pad_length 5)
      by (change (10 ^ Z.of_nat 6) with 1000000; lia).
    reflexivity.
  - split; [exact Htake|]. rewrite Htake, strptime_iso by lia.
    destruct (Z.ltb_spec (year t) 1); [lia|].
    destruct (Z.ltb_spec (days_in_month (year t) (month t)) (day t));
      [lia | reflexivity].
Qed.

Lemma health_reports_the_clock_witness :
  exists r,
    health Example.env Example.world
    = (inr r, Example.world_after_calculation) /\
    HealthStatus.timestamp r = str "2024-03-11T15:30:00" /\
    strptime Example.env (firstn 10 (HealthStatus.timestamp r))
    = inr (mk_datetime 2024 3 11 0 0 0 0).
Proof.
  destruct (health_reports_the_clock Example.env Example.world eq_refl)
    as (r & Hrun & _ & _ & _ & _ & Hparse).
  exists r. split; [exact Hrun|]. split; [|exact Hparse].
  injection Hrun as <-. vm_compute. reflexivity.
Defined.

(** ** How an amount is printed *)

Lemma filter_digits_group3 l k :
  List.filter is_ascii_digit (group3 l k) = List.filter is_ascii_digit l.
Proof.
  revert k. induction l as [|c l IH]; intros k; [reflexivity|].
  cbn [group3].
  destruct k as [|[|[|[|k]]]]; cbn [List.filter];
    change (is_ascii_digit 44) with false; cbv iota;
    destruct (is_ascii_digit c); rewrite IH; reflexivity.
Qed.

Lemma filter_all_digits l :
  forallb is_ascii_digit l = true -> List.filter is_ascii_digit l = l.
Proof.
  induction l as [|c l IH]; [reflexivity|]. cbn [forallb List.filter].
  intros H. apply andb_prop in H as [-> H]. rewrite (IH H). reflexivity.
Qed.

Lemma filter_digits_group_thousands l :
  forallb is_ascii_digit l = true ->
  List.filter is_ascii_digit (group_thousands l) = l.
Proof.
  intros H. unfold group_thousands.
  rewrite List.filter_rev, filter_digits_group3, <- List.filter_rev.
  rewrite rev_involutive. apply filter_all_digits, H.
Qed.

Lemma forallb_rev {A} (f : A -> bool) l : forallb f (rev l) = forallb f l.
Proof.
  induction l as [|c l IH]; [reflexivity|].
  cbn [rev forallb]. rewrite forallb_app, IH. cbn [forallb].
  rewrite andb_true_r. apply andb_comm.
Qed.

Lemma group3_chars l k :
  forallb is_ascii_digit l = true ->
  forallb (fun c => is_ascii_digit c || (c =? 44)%N) (group3 l k) = true.
Proof.
  revert k. induction l as [|c l IH]; intros k H; [reflexivity|].
  cbn [forallb] in H. apply andb_prop in H as [Hc H].
  cbn [group3].
  destruct k as [|[|[|[|k]]]]; cbn [forallb]; rewrite Hc, IH by exact H;
    reflexivity.
Qed.

(** The digits [f"{x:,.2f}"] prints, read as an integer. *)
Lemma format_comma_2f_pence s m e :
  int_of_digits (List.filter is_ascii_digit (format_comma_2f (S754_finite s m e)))
  = round_half_even (m * 100) e.
Proof.
  unfold format_comma_2f.
  set (cents := round_half_even (m * 100) e).
  assert (Hc : 0 <= cents) by apply round_half_even_nonneg.
  assert (Hmod := Z.mod_pos_bound cents 100 ltac:(lia)).
  assert (Hdiv : 0 <= cents / 100) by (apply Z.div_pos; lia).
  assert (Hwhole : forallb is_ascii_digit (str_of_nonneg (cents / 100)) = true)
    by (apply digits_fuel_digits; [exact Hdiv | reflexivity]).
  rewrite !List.filter_app, filter_digits_group_thousands by exact Hwhole.
  rewrite (filter_all_digits (zero_pad 2 _)) by (apply zero_pad_digits; lia).
  replace (List.filter is_ascii_digit (if s then str "-" else [])) with (@nil N)
    by (destruct s; reflexivity).
  change (List.filter is_ascii_digit (str ".")) with (@nil N).
  cbn [app]. rewrite int_of_digits_app.
  rewrite (zero_pad_length 1)
    by (change (10 ^ Z.of_nat 2) with 100; lia).
  change (str_of_nonneg (cents / 100)) with (zero_pad 0 (cents / 100)).
  rewrite !int_of_digits_zero_pad by lia.
  change (10 ^ Z.of_nat 2) with 100.
  assert (H := Z.div_mod cents 100 ltac:(lia)). lia.
Qed.

(** X20. An amount is printed to the nearest penny of the float's
    exact value: for a finite float [± m * 2^e], the digits of
    [f"{x:,.2f}"], commas and point left out, read back as the integer
    nearest to [100 * m * 2^e], the even one on a tie. The text is an
    optional minus sign, digits and commas, a point and exactly two
    digits. *)
Theorem printed_amount_reads_back s m e :
  let printed := format_comma_2f (S754_finite s m e) in
  let pence := int_of_digits (List.filter is_ascii_digit printed) in
  pence = round_half_even (m * 100) e /\
  (0 <= e -> pence = 100 * Z.pos m * 2 ^ e) /\
  (e < 0 ->
   2 * Z.abs (pence * 2 ^ (- e) - 100 * Z.pos m) <= 2 ^ (- e) /\
   (2 * Z.abs (pence * 2 ^ (- e) - 100 * Z.pos m) = 2 ^ (- e) ->
    Z.even pence = true)) /\
  exists whole d1 d2,
    printed = (if s then str "-" else []) ++ whole ++ str "." ++ [d1; d2] /\
    forallb (fun c => is_ascii_digit c || (c =? 44)%N) whole = true /\
    whole <> [] /\
    is_ascii_digit d1 = true /\ is_ascii_digit d2 = true.
Proof.
  cbv zeta. unfold format_comma_2f.
  set (cents := round_half_even (m * 100) e).
  assert (Hc : 0 <= cents) by apply round_half_even_nonneg.
  assert (Hmod := Z.mod_pos_bound cents 100 ltac:(lia)).
  assert (Hdiv : 0 <= cents / 100) by (apply Z.div_pos; lia).
  assert (Hwhole : forallb is_ascii_digit (str_of_nonneg (cents / 100)) = true)
    by (apply digits_fuel_digits; [exact Hdiv | reflexivity]).
  assert (Hpad : zero_pad 2 (cents mod 100)
                 = [Z.to_N (48 + cents mod 100 / 10);
                    Z.to_N (48 + (cents mod 100) mod 10)])
    by (apply zero_pad_2; lia).
  assert (Hread := format_comma_2f_pence s m e).
  unfold format_comma_2f in Hread. fold cents in Hread.
  split; [exact Hread|]. rewrite Hread. split; [|split].
  - intros He. unfold cents, round_half_even.
    destruct (Z.leb_spec 0 e); [|lia]. rewrite Pos2Z.inj_mul. ring.
  - intros He.
    assert (H := round_half_even_nearest (m * 100) e He). cbv zeta in H.
    fold cents in H. rewrite Pos2Z.inj_mul in H.
    replace (100 * Z.pos m) with (Z.pos m * 100) by ring. exact H.
  - exists (group_thousands (str_of_nonneg (cents / 100))).
    eexists _, _. rewrite Hpad. split; [reflexivity|].
    split; [|split; [|split]].
    + unfold group_thousands. rewrite forallb_rev.
      apply group3_chars. rewrite forallb_rev. exact Hwhole.
    + intros Hnil. apply (f_equal (List.filter is_ascii_digit)) in Hnil.
      rewrite filter_digits_group_thousands in Hnil by exact Hwhole.
      apply (f_equal (@length N)) in Hnil. cbn [List.filter length] in Hnil.
      assert (H := digits_fuel_length (Z.to_nat (Z.log2 (cents / 100)))
                     (cents / 100) []).
      unfold str_of_nonneg in Hnil. cbn [length] in H. lia.
    + unfold is_ascii_digit. apply andb_true_intro.
      split; apply N.leb_le; Z.div_mod_to_equations; lia.
    + unfold is_ascii_digit. apply andb_true_intro.
      split; apply N.leb_le; Z.div_mod_to_equations; lia.
Qed.

(** ** Dates written without zero padding *)

Lemma format_regex_match_unpadded env y m d :
  0 <= y <= 9999 -> 1 <= m <= 12 -> 1 <= d <= 31 ->
  format_regex_match env
    (zero_pad 4 y ++ str "-" ++ str_of_nonneg m ++ str "-" ++ str_of_nonneg d)
  = Some (y, m, d, []).
Proof.
  intros Hy Hm Hd. unfold format_regex_match.
  rewrite re_Y_zero_pad by exact Hy.
  assert (Hm' : m = 1 \/ m = 2 \/ m = 3 \/ m = 4 \/ m = 5 \/ m = 6 \/
                m = 7 \/ m = 8 \/ m = 9 \/ m = 10 \/ m = 11 \/ m = 12) by lia.
  assert (Hd' : d = 1 \/ d = 2 \/ d = 3 \/ d = 4 \/ d = 5 \/ d = 6 \/ d = 7 \/
                d = 8 \/ d = 9 \/ d = 10 \/ d = 11 \/ d = 12 \/ d = 13 \/
                d = 14 \/ d = 15 \/ d = 16 \/ d = 17 \/ d = 18 \/ d = 19 \/
                d = 20 \/ d = 21 \/ d = 22 \/ d = 23 \/ d = 24 \/ d = 25 \/
                d = 26 \/ d = 27 \/ d = 28 \/ d = 29 \/ d = 30 \/ d = 31) by lia.
  clear Hy Hm Hd.
  split_cases Hm'; subst m; split_cases Hd'; subst d;
    vm_compute; reflexivity.
Qed.

(** X21. The zero padding of month and day is optional: a calendar
    date written [YYYY-M-D], month and day in plain decimal, is taken
    for the same date as its padded form, and the calculator answers
    the two alike. *)
Theorem unpadded_month_and_day_are_taken env p y m d w :
  1 <= y <= 9999 -> 1 <= m <= 12 -> 1 <= d <= days_in_month y m ->
  let unpadded :=
    zero_pad 4 y ++ str "-" ++ str_of_nonneg m ++ str "-" ++ str_of_nonneg d in
  strptime env unpadded = inr (mk_datetime y m d 0 0 0 0) /\
  calculate_statutory_claim env p unpadded w
  = calculate_statutory_claim env p (iso_date y m d) w.
Proof.
  intros Hy Hm Hd. cbv zeta.
  assert (H31 := days_in_month_le_31 y m).
  assert (Hs : strptime env
                 (zero_pad 4 y ++ str "-" ++ str_of_nonneg m ++ str "-"
                  ++ str_of_nonneg d)
               = inr (mk_datetime y m d 0 0 0 0)).
  { unfold strptime. rewrite format_regex_match_unpadded by lia.
    destruct (Z.ltb_spec y 1); [lia|].
    destruct (Z.ltb_spec (days_in_month y m) d); [lia | reflexivity]. }
  assert (Hs' : strptime env (iso_date y m d)
                = inr (mk_datetime y m d 0 0 0 0)).
  { rewrite strptime_iso by lia.
    destruct (Z.ltb_spec y 1); [lia|].
    destruct (Z.ltb_spec (days_in_month y m) d); [lia | reflexivity]. }
  split; [exact Hs|].
  unfold calculate_statutory_claim. rewrite Hs, Hs'. reflexivity.
Qed.

Lemma unpadded_month_and_day_are_taken_witness :
  strptime Example.env (str "2024-1-5") = inr (mk_datetime 2024 1 5 0 0 0 0) /\
  calculate_statutory_claim Example.env (of_int 5000) (str "2024-1-5")
    Example.world
  = calculate_statutory_claim Example.env (of_int 5000) (str "2024-01-05")
      Example.world.
Proof.
  assert (H5 : 1 <= 5 <= days_in_month 2024 1) by (vm_compute; split; discriminate).
  exact (unpadded_month_and_day_are_taken Example.env (of_int 5000) 2024 1 5
           Example.world ltac:(lia) ltac:(lia) H5).
Defined.

(** ** When the intake succeeds *)

(** X22. The intake succeeds whenever nothing stands in its way: for a
    business debtor with consent, a due date that [strptime] takes, an
    amount of binary64 below [2^1000] in absolute value, whatever its
    sign, a clock that shows a date, and a letter that can be written,
    the handler returns the success response, whatever the notifier
    does. The handler itself never refuses an amount for being zero or
    negative. *)
Theorem intake_succeeds env submission w due :
  IntakeSubmission.debtor_type submission = str "business" ->
  IntakeSubmission.dpa_accepted submission = true ->
  strptime env (IntakeSubmission.due_date submission) = inr due ->
  valid (IntakeSubmission.amount_owed_gbp submission) = true ->
  magnitude_le 1000 (IntakeSubmission.amount_owed_gbp submission) ->
  datetime_ok (clock env (S (clock_reads w))) = true ->
  (forall content,
     file_write env (letter_path (case_id_of env submission (clock_reads w)))
       content = write_ok) ->
  exists r w',
    handle_intake env submission w = (inr r, w') /\
    Response.status r = str "success" /\
    Response.case_id r = case_id_of env submission (clock_reads w) /\
    Response.amount_owed_gbp r = IntakeSubmission.amount_owed_gbp submission /\
    is_Some (files w' !! letter_path (Response.case_id r)).
Proof.
  intros Hty Hdpa Hs Hv Hp Hok Hw.
  rewrite handle_intake_stages.
  rewrite (passes_gates _ Hty), Hdpa. cbv beta iota zeta. unfold negb.
  set (case_id := case_id_of env submission (clock_reads w)) in *.
  assert (Hfin : is_finite
                   (scaled_product (IntakeSubmission.amount_owed_gbp submission)
                      (Z.max 0 (timedelta_days
                                  (clock env (clock_reads
                                                (after_case_id submission w)))
                                  due))) = true).
  { apply scaled_product_finite; [exact Hv | exact Hp |].
    change (clock env (S (clock_reads w)))
      with (clock env (clock_reads (after_case_id submission w))) in Hok.
    rewrite (days_overdue_ordinals env _ (after_case_id submission w) due Hok Hs).
    assert (H1 := toordinal_range _ Hok).
    assert (H2 := toordinal_range _ (proj1 (strptime_inr env _ _ Hs))).
    change (2 ^ 22) with 4194304. lia. }
  destruct (calculate_finite env _ _ (after_case_id submission w) due Hs Hfin)
    as (claim_calc & -> & _).
  rewrite generate_lba_pdf_cases. cbv zeta.
  change (Case.case_id (case_data_of submission case_id claim_calc))
    with case_id.
  rewrite Hw.
  match goal with
  | |- context [send_email_via_sendgrid ?env' ?a ?b ?c ?w0] =>
      destruct (send_email_returns env' a b c w0) as (w4 & -> & Hf4 & _)
  end.
  eexists _, _. split; [reflexivity|].
  cbn [response_of Response.status Response.case_id Response.amount_owed_gbp].
  repeat (split; [reflexivity|]).
  cbn [files] in Hf4.
  match goal with
  | |- is_Some (files (if ?b then _ else _) !! _) => destruct b
  end; cbn [files]; rewrite Hf4, lookup_insert_eq; eexists; reflexivity.
Qed.

Lemma intake_succeeds_witness :
  exists r w',
    handle_intake Example.env_timeout
      (Example.with_amount (of_int (-5000)) Example.submission) Example.world
    = (inr r, w') /\
    Response.status r = str "success" /\
    Response.amount_owed_gbp r = of_int (-5000).
Proof.
  assert (Hv : valid (of_int (-5000)) = true) by (vm_compute; reflexivity).
  assert (Hm : magnitude_le 1000 (of_int (-5000))) by (vm_compute; discriminate).
  assert (Hs : strptime Example.env_timeout (str "2024-01-31")
               = inr (mk_datetime 2024 1 31 0 0 0 0))
    by (vm_compute; reflexivity).
  destruct (intake_succeeds Example.env_timeout
              (Example.with_amount (of_int (-5000)) Example.submission)
              Example.world _ eq_refl eq_refl Hs Hv Hm eq_refl
              (fun _ => eq_refl))
    as (r & w' & Hrun & Hstatus & _ & Hamount & _).
  exists r, w'. split; [exact Hrun|]. split; [exact Hstatus | exact Hamount].
Defined.

(** ** The accuracy of a product *)

(** Relative errors of [2^-52], composed: [a] is within [k * 2^-52] of
    [b], and [c] within [2^-52] of [a * y]. *)
Lemma close_step a b c y k :
  0 <= b -> 0 <= y -> 0 <= k <= 2 ^ 40 ->
  Z.abs (a - b) * 2 ^ 52 <= k * b ->
  Z.abs (c - a * y) * 2 ^ 52 <= a * y ->
  Z.abs (c - b * y) * 2 ^ 52 <= (k + 2) * (b * y).
Proof.
  intros Hb Hy Hk Hab Hc.
  assert (Ha : a * 2 ^ 52 <= (2 ^ 52 + k) * b) by lia.
  assert (Ha2 : a <= 2 * b).
  { assert ((2 ^ 52 + k) * b <= 2 * 2 ^ 52 * b) by nia. lia. }
  assert (H1 : Z.abs (a - b) * y * 2 ^ 52 <= k * b * y) by nia.
  assert (H2 : a * y <= 2 * b * y) by nia.
  assert (H3 : Z.abs (c - b * y) <= Z.abs (c - a * y) + Z.abs (a - b) * y).
  { replace (c - b * y) with ((c - a * y) + (a - b) * y) by ring.
    eapply Z.le_trans; [apply Z.abs_triangle|].
    rewrite Z.abs_mul, (Z.abs_eq y) by lia. lia. }
  nia.
Qed.

(** A factor of the exact product replaced by one within
    [j * 2^-52] of it. *)
Lemma close_factor c b y y' k j :
  0 <= b -> 0 <= y' -> 0 <= k <= 2 ^ 20 -> 0 <= j <= 2 ^ 20 ->
  Z.abs (c - b * y) * 2 ^ 52 <= k * (b * y) ->
  Z.abs (y - y') * 2 ^ 52 <= j * y' ->
  Z.abs (c - b * y') * 2 ^ 52 <= (k + j + 1) * (b * y').
Proof.
  intros Hb Hy' Hk Hj Hc Hy.
  assert (Hy1 : y * 2 ^ 52 <= (2 ^ 52 + j) * y') by lia.
  assert (H1 : b * Z.abs (y - y') * 2 ^ 52 <= j * (b * y')) by nia.
  assert (H2 : k * (b * y) * 2 ^ 52 <= k * (2 ^ 52 + j) * (b * y')) by nia.
  assert (H3 : k * j <= 2 ^ 52) by nia.
  assert (H4 : k * (2 ^ 52 + j) * (b * y')
               <= (k * 2 ^ 52 + 2 ^ 52) * (b * y')) by nia.
  assert (H5 : Z.abs (c - b * y') <= Z.abs (c - b * y) + b * Z.abs (y - y')).
  { replace (c - b * y') with ((c - b * y) + b * (y - y')) by ring.
    eapply Z.le_trans; [apply Z.abs_triangle|].
    rewrite Z.abs_mul, (Z.abs_eq b) by lia. lia. }
  nia.
Qed.

(** A product of two floats of [exponent_ge] is within [2^-52] of the
    exact product, unless it overflows. *)
Lemma mul_close Ex Ey x y :
  exponent_ge Ex x -> exponent_ge Ey y ->
  -1074 <= Ex -> -1074 <= Ey -> -1074 <= Ex + Ey ->
  match mul x y with
  | S754_nan => False
  | S754_infinity s => s = false
  | r => exponent_ge (Ex + Ey) r /\
         Z.abs (units r * 2 ^ 1074 - units x * units y) * 2 ^ 52
         <= units x * units y
  end.
Proof.
  destruct x as [sx | sx | | sx mx ex], y as [sy | sy | | sy my ey];
    unfold exponent_ge at 1 2; try tauto.
  - intros _ _ _ _ _. cbn. split; [exact I | lia].
  - intros _ _ _ _ _. cbn. split; [exact I | lia].
  - intros _ _ _ _ _. cbn [mul SFmul units]. split; [exact I|].
    rewrite Z.mul_0_r. cbn. lia.
  - intros [-> Hex] [-> Hey] HEx HEy HE. unfold mul, SFmul. cbn [xorb].
    assert (He : -1074 <= ex + ey) by lia.
    assert (Hc := binary_round_aux_close false (mx * my) (ex + ey) He).
    destruct (binary_round_aux prec emax false (Z.pos (mx * my)) (ex + ey)
                loc_Exact) as [| s' | | s' mR eR];
      [contradiction | exact Hc | contradiction |].
    destruct Hc as (-> & HeR & Hclose).
    split; [split; [reflexivity | lia]|].
    cbn [units cond_Zopp].
    set (P := 2 ^ (ex + ey + 2148)).
    assert (HP : 0 < P) by (apply Z.pow_pos_nonneg; lia).
    assert (E1 : Z.pos mR * 2 ^ (eR + 1074) * 2 ^ 1074
                 = Z.pos mR * 2 ^ (eR - (ex + ey)) * P).
    { unfold P. rewrite <- !Z.mul_assoc, <- !Z.pow_add_r by lia.
      do 2 f_equal. lia. }
    assert (E2 : Z.pos mx * 2 ^ (ex + 1074) * (Z.pos my * 2 ^ (ey + 1074))
                 = Z.pos (mx * my) * P).
    { unfold P. rewrite Pos2Z.inj_mul.
      replace (ex + ey + 2148) with ((ex + 1074) + (ey + 1074)) by lia.
      rewrite (Z.pow_add_r 2 (ex + 1074) (ey + 1074)) by lia. ring. }
    rewrite E1, E2, <- Z.mul_sub_distr_r, Z.abs_mul, (Z.abs_eq P) by lia.
    nia.
Qed.

Lemma binary_round_exponent s m e :
  -1074 <= e ->
  match binary_round prec emax s m e with
  | S754_finite _ _ eR => Z.min e (Z.pos (digits2_pos m) + e - 53) <= eR
  | _ => True
  end.
Proof.
  intros He. unfold binary_round.
  assert (Ha := shl_align_value m e
                  (fexp prec emax (Z.pos (digits2_pos m) + e))).
  destruct (shl_align m e _) as [mz ez]. destruct Ha as [Hez Hmz].
  rewrite fexp_eq in Hez.
  assert (Hez' : -1074 <= ez) by lia.
  assert (Hc := binary_round_aux_close s mz ez Hez').
  destruct (binary_round_aux prec emax s (Z.pos mz) ez loc_Exact)
    as [| s' | | s' mR eR]; try exact I.
  destruct Hc as (_ & HeR & _). lia.
Qed.

(** The float of a non-negative integer is within [2^-52] of it. *)
Lemma of_int_close n :
  0 <= n ->
  match of_int n with
  | S754_nan => False
  | S754_infinity s => s = false
  | r => exponent_ge (-52) r /\
         Z.abs (units r - n * 2 ^ 1074) * 2 ^ 52 <= n * 2 ^ 1074
  end.
Proof.
  intros Hn. unfold of_int, binary_normalize.
  destruct n as [|q|q]; [cbn; split; [exact I | lia] | | lia].
  assert (Hc := binary_round_close false q 0 ltac:(lia)).
  assert (He := binary_round_exponent false q 0 ltac:(lia)).
  destruct (binary_round prec emax false q 0) as [| s' | | s' mR eR];
    [contradiction | exact Hc | contradiction |].
  destruct Hc as (-> & HeR & Hclose).
  assert (1 <= Z.pos (digits2_pos q)) by lia.
  split; [split; [reflexivity | lia]|].
  cbn [units cond_Zopp]. change (0 + 1074) with 1074 in Hclose. exact Hclose.
Qed.

Lemma daily_rate_close :
  exponent_ge (-64) daily_rate /\
  Z.abs (units daily_rate * 3650000 - 1275 * 2 ^ 1074) * 2 ^ 52
  <= 1 * (1275 * 2 ^ 1074).
Proof. rewrite daily_rate_eq. vm_compute. split; [split; [reflexivity | discriminate] | discriminate]. Qed.

Lemma of_int_100_exact :
  exponent_ge (-46) (of_int 100) /\ units (of_int 100) = 100 * 2 ^ 1074.
Proof. rewrite of_int_100_eq. vm_compute. split; [split; [reflexivity | discriminate] | reflexivity]. Qed.

Lemma mul_not_finite_l x y :
  is_finite x = false -> is_finite (mul x y) = false.
Proof.
  destruct x as [sx | sx | | sx mx ex]; intros H;
    [discriminate H | | | discriminate H]; destruct y; reflexivity.
Qed.

Lemma mul_not_finite_r x y :
  is_finite y = false -> is_finite (mul x y) = false.
Proof.
  destruct y as [sy | sy | | sy my ey]; intros H;
    [discriminate H | | | discriminate H]; destruct x; reflexivity.
Qed.

Lemma round_inr_finite x n : round x = inr n -> is_finite x = true.
Proof. destruct x; intros H; [reflexivity | discriminate H | discriminate H | reflexivity]. Qed.

Lemma exponent_ge_finite E x : exponent_ge E x -> is_finite x = true.
Proof. destruct x; cbn; tauto. Qed.

(** The integer [round] returns is within a half of the float. *)
Lemma round_close x n :
  exponent_ge (-1074) x -> round x = inr n ->
  0 <= n /\ 2 * Z.abs (n * 2 ^ 1074 - units x) <= 2 ^ 1074.
Proof.
  destruct x as [s | s | | s m e]; cbn [exponent_ge]; try tauto.
  - intros _ [= <-]. cbn. lia.
  - intros [-> He] Hr. cbn [round cond_Zopp] in Hr. injection Hr as <-.
    split; [apply round_half_even_nonneg|].
    cbn [units cond_Zopp].
    destruct (Z.leb_spec 0 e) as [Hpos | Hneg].
    + unfold round_half_even. destruct (Z.leb_spec 0 e); [|lia].
      rewrite Z.pow_add_r by lia.
      replace (Z.pos m * 2 ^ e * 2 ^ 1074 - Z.pos m * (2 ^ e * 2 ^ 1074))
        with 0 by ring.
      cbn. lia.
    + destruct (round_half_even_nearest m e Hneg) as [H _]. cbv zeta in H.
      set (c := round_half_even m e) in *.
      set (Q := 2 ^ (e + 1074)).
      assert (HQ : 0 < Q) by (apply Z.pow_pos_nonneg; lia).
      assert (E1 : 2 ^ 1074 = 2 ^ (- e) * Q).
      { unfold Q. rewrite <- Z.pow_add_r by lia. f_equal. lia. }
      rewrite E1.
      replace (c * (2 ^ (- e) * Q) - Z.pos m * Q)
        with ((c * 2 ^ (- e) - Z.pos m) * Q) by ring.
      rewrite Z.abs_mul, (Z.abs_eq Q) by lia. nia.
Qed.

Lemma units_nonneg E x : exponent_ge E x -> 0 <= units x.
Proof.
  destruct x as [s | s | | s m e]; cbn [exponent_ge units]; try lia; try tauto.
  intros [-> _]. cbn [cond_Zopp].
  assert (0 <= 2 ^ (e + 1074)) by (apply Z.pow_nonneg; lia). lia.
Qed.

Lemma mul_close_finite Ex Ey x y :
  exponent_ge Ex x -> exponent_ge Ey y ->
  -1074 <= Ex -> -1074 <= Ey -> -1074 <= Ex + Ey ->
  is_finite (mul x y) = true ->
  exponent_ge (Ex + Ey) (mul x y) /\
  Z.abs (units (mul x y) * 2 ^ 1074 - units x * units y) * 2 ^ 52
  <= units x * units y.
Proof.
  intros Hx Hy HEx HEy HE Hfin.
  assert (H := mul_close Ex Ey x y Hx Hy HEx HEy HE).
  destruct (mul x y);
    [exact H | discriminate Hfin | discriminate Hfin | exact H].
Qed.

Lemma of_int_close_finite n :
  0 <= n -> is_finite (of_int n) = true ->
  exponent_ge (-52) (of_int n) /\
  Z.abs (units (of_int n) - n * 2 ^ 1074) * 2 ^ 52 <= n * 2 ^ 1074.
Proof.
  intros Hn Hfin. assert (H := of_int_close n Hn).
  destruct (of_int n);
    [exact H | discriminate Hfin | discriminate Hfin | exact H].
Qed.

Lemma is_finite_mul x y :
  is_finite (mul x y) = true -> is_finite x = true /\ is_finite y = true.
Proof.
  intros H. split.
  - destruct (is_finite x) eqn:E; [reflexivity|].
    rewrite (mul_not_finite_l x y E) in H. discriminate H.
  - destruct (is_finite y) eqn:E; [reflexivity|].
    rewrite (mul_not_finite_r x y E) in H. discriminate H.
Qed.

(** The product the calculator rounds is within [9 * 2^-52] of the
    exact interest in pence, [p * 1275 / 3650000 * days * 100]. *)
Lemma scaled_product_close p days :
  exponent_ge (-900) p -> 0 <= days ->
  is_finite (scaled_product p days) = true ->
  exponent_ge (-1074) (scaled_product p days) /\
  Z.abs (units (scaled_product p days) * 3650000
         - units p * 1275 * days * 100) * 2 ^ 52
  <= 9 * (units p * 1275 * days * 100).
Proof.
  intros Hp Hdays Hfin3. unfold scaled_product in *.
  destruct (is_finite_mul _ _ Hfin3) as [Hfin2 _].
  destruct (is_finite_mul _ _ Hfin2) as [Hfin1 HfinD].
  destruct daily_rate_close as [Hr C5].
  destruct of_int_100_exact as [Hh EH].
  destruct (of_int_close_finite days Hdays HfinD) as [Hd C4].
  destruct (mul_close_finite (-900) (-64) p daily_rate Hp Hr
              ltac:(lia) ltac:(lia) ltac:(lia) Hfin1) as [H1 C1].
  destruct (mul_close_finite (-900 + -64) (-52) _ (of_int days) H1 Hd
              ltac:(lia) ltac:(lia) ltac:(lia) Hfin2) as [H2 C2].
  destruct (mul_close_finite (-900 + -64 + -52) (-46) _ (of_int 100) H2 Hh
              ltac:(lia) ltac:(lia) ltac:(lia) Hfin3) as [H3 C3].
  split.
  { revert H3. generalize (mul (mul (mul p daily_rate) (of_int days)) (of_int 100)).
    intros x. destruct x; cbn [exponent_ge]; try tauto. intros [? ?]. split; [assumption | lia]. }
  rewrite EH in C3.
  assert (HA := units_nonneg _ _ Hp).
  assert (HR := units_nonneg _ _ Hr).
  assert (HD := units_nonneg _ _ Hd).
  assert (HU1 := units_nonneg _ _ H1).
  assert (HU2 := units_nonneg _ _ H2).
  assert (HU3 := units_nonneg _ _ H3).
  set (A := units p) in *. set (R := units daily_rate) in *.
  set (Dv := units (of_int days)) in *.
  set (U1 := units (mul p daily_rate)) in *.
  set (U2 := units (mul (mul p daily_rate) (of_int days))) in *.
  set (U3 := units (mul (mul (mul p daily_rate) (of_int days)) (of_int 100))) in *.
  clearbody A R Dv U1 U2 U3.
  set (W := 2 ^ 1074) in *.
  assert (HW : 0 < W) by (apply Z.pow_pos_nonneg; lia).
  clearbody W.
  clear Hfin1 Hfin2 Hfin3 HfinD Hp Hr Hh Hd H1 H2 H3 EH.
  (* two products *)
  assert (S2 : Z.abs (U2 * W * W - A * R * Dv) * 2 ^ 52 <= (1 + 2) * (A * R * Dv)).
  { apply (close_step (U1 * W) (A * R) (U2 * W * W) Dv 1);
      [nia | lia | lia | lia |].
    replace (U2 * W * W - U1 * W * Dv) with ((U2 * W - U1 * Dv) * W) by ring.
    rewrite Z.abs_mul, (Z.abs_eq W) by lia. nia. }
  (* three products *)
  assert (S3 : Z.abs (U3 * W * W * W - A * R * Dv * (100 * W)) * 2 ^ 52
               <= (3 + 2) * (A * R * Dv * (100 * W))).
  { apply (close_step (U2 * W * W) (A * R * Dv) (U3 * W * W * W) (100 * W) 3);
      [nia | lia | lia | exact S2 |].
    replace (U3 * W * W * W - U2 * W * W * (100 * W))
      with ((U3 * W - U2 * (100 * W)) * (W * W)) by ring.
    rewrite Z.abs_mul, (Z.abs_eq (W * W)) by nia. nia. }
  (* the days are an integer *)
  assert (F1 : Z.abs (U3 * W * W * W - A * R * (100 * W) * (days * W)) * 2 ^ 52
               <= (5 + 1 + 1) * (A * R * (100 * W) * (days * W))).
  { apply (close_factor (U3 * W * W * W) (A * R * (100 * W)) Dv (days * W) 5 1);
      [nia | nia | lia | lia | | lia].
    replace (A * R * (100 * W) * Dv) with (A * R * Dv * (100 * W)) by ring.
    exact S3. }
  (* the daily rate is 0.1275 / 365 *)
  assert (F2 : Z.abs (U3 * W * W * W * 3650000
                      - A * (100 * W) * (days * W) * (1275 * W)) * 2 ^ 52
               <= (7 + 1 + 1) * (A * (100 * W) * (days * W) * (1275 * W))).
  { apply (close_factor (U3 * W * W * W * 3650000) (A * (100 * W) * (days * W))
             (R * 3650000) (1275 * W) 7 1); [nia | lia | lia | lia | | exact C5].
    replace (U3 * W * W * W * 3650000 - A * (100 * W) * (days * W) * (R * 3650000))
      with ((U3 * W * W * W - A * R * (100 * W) * (days * W)) * 3650000) by ring.
    replace (A * (100 * W) * (days * W) * (R * 3650000))
      with (A * R * (100 * W) * (days * W) * 3650000) by ring.
    rewrite Z.abs_mul, (Z.abs_eq 3650000) by lia. nia. }
  clear S2 S3 F1 C1 C2 C3 C4 C5.
  set (T := A * 1275 * days * 100).
  assert (HT : 0 <= T) by (unfold T; nia).
  replace (U3 * W * W * W * 3650000 - A * (100 * W) * (days * W) * (1275 * W))
    with ((U3 * 3650000 - T) * (W * W * W)) in F2 by (unfold T; ring).
  replace (A * (100 * W) * (days * W) * (1275 * W))
    with (T * (W * W * W)) in F2 by (unfold T; ring).
  rewrite Z.abs_mul in F2.
  assert (HW3 : 0 < W * W * W) by nia.
  rewrite (Z.abs_eq (W * W * W)) in F2 by lia.
  set (V := W * W * W) in *. clearbody V T.
  change (7 + 1 + 1) with 9 in F2.
  apply (Z.mul_le_mono_pos_r _ _ V HW3).
  replace (Z.abs (U3 * 3650000 - T) * 2 ^ 52 * V)
    with (Z.abs (U3 * 3650000 - T) * V * 2 ^ 52) by ring.
  replace (9 * T * V) with (9 * (T * V)) by ring. exact F2.
Qed.

(** ** The accuracy of a quotient *)

(** Rounding a mantissa of 53 digits or more, whatever was cut off
    before: the result brackets the mantissa within one unit in the
    last place. *)
Lemma binary_round_aux_bracket s m e l :
  -1074 <= e -> 53 <= Z.pos (digits2_pos m) ->
  let N := 2 ^ (Z.pos (digits2_pos m) - 53) in
  match binary_round_aux prec emax s (Z.pos m) e l with
  | S754_finite s' mR eR =>
      s' = s /\ e <= eR /\
      Z.pos mR * 2 ^ (eR - e) - N <= Z.pos m /\
      Z.pos m + 1 <= Z.pos mR * 2 ^ (eR - e) + N /\
      N * 2 ^ 52 <= Z.pos m
  | S754_infinity s' => s' = s /\ 1023 < Z.pos (digits2_pos m) + e
  | _ => False
  end.
Proof.
  intros He Hd. cbv zeta. unfold binary_round_aux.
  set (d := Z.pos (digits2_pos m)) in *.
  destruct (digits_bounds m) as [Dlo Dhi]. fold d in Dlo, Dhi.
  assert (H1 := shr_fexp_m (Z.pos m) e l ltac:(lia)).
  destruct (shr_fexp prec emax (Z.pos m) e l) as [mrs' e'].
  destruct H1 as (_ & Hm' & He').
  cbn [Zdigits2] in He'. fold d in He'. rewrite fexp_eq in He'.
  assert (He'eq : e' - e = d - 53) by lia.
  rewrite He'eq in Hm'.
  set (N := 2 ^ (d - 53)) in *.
  assert (HN : 0 < N) by (apply Z.pow_pos_nonneg; lia).
  assert (Hhi : 2 ^ d = 2 ^ 53 * N).
  { unfold N. rewrite <- Z.pow_add_r by lia. f_equal. lia. }
  assert (Hlo : 2 ^ (d - 1) = 2 ^ 52 * N).
  { unfold N. rewrite <- Z.pow_add_r by lia. f_equal. lia. }
  rewrite Hhi in Dhi. rewrite Hlo in Dlo.
  assert (Hdm := Z.div_mod (Z.pos m) N ltac:(lia)).
  assert (Hr := Z.mod_pos_bound (Z.pos m) N HN).
  set (m' := Z.pos m / N) in *. set (r := Z.pos m mod N) in *.
  assert (Hm'lo : 2 ^ 52 <= m') by nia.
  assert (Hm'hi : m' < 2 ^ 53) by nia.
  rewrite Hm'.
  set (m'' := round_nearest_even m' (loc_of_shr_record mrs')).
  assert (Hm'' : m'' = m' \/ m'' = m' + 1)
    by apply round_nearest_even_cases.
  clearbody m''.
  assert (H2 := shr_fexp_m m'' e' loc_Exact ltac:(lia)).
  destruct (shr_fexp prec emax m'' e' loc_Exact) as [mrs'' e''].
  destruct H2 as (_ & Hm3 & He'').
  destruct m'' as [|q|q]; try lia.
  cbn [Zdigits2] in He''. rewrite fexp_eq in He''.
  destruct (Z.eq_dec (Z.pos q) (2 ^ 53)) as [Hq | Hq].
  - rewrite (digits_unique q 54) in He''
      by (rewrite Hq; change (54 - 1) with 53; split; [lia|];
          apply Z.pow_lt_mono_r; lia).
    assert (He''eq : e'' - e' = 1) by lia.
    rewrite He''eq, Hq in Hm3. change (2 ^ 53 / 2 ^ 1) with (2 ^ 52) in Hm3.
    rewrite Hm3. change (2 ^ 52) with (Z.pos (2 ^ 52)%positive) at 1.
    destruct (Z.leb_spec e'' (emax - prec)) as [Hof | Hof];
      [|change (emax - prec) with 971 in Hof; split; [reflexivity | lia]].
    split; [reflexivity|]. split; [lia|].
    replace (e'' - e) with (1 + (d - 53)) by lia.
    rewrite Z.pow_add_r by lia. fold N.
    change (Z.pos (2 ^ 52)%positive) with (2 ^ 52).
    change (2 ^ 1) with 2. nia.
  - rewrite (digits_unique q 53) in He''
      by (change (53 - 1) with 52; lia).
    assert (He''eq : e'' - e' = 0) by lia.
    rewrite He''eq, Z.pow_0_r, Z.div_1_r in Hm3. rewrite Hm3.
    destruct (Z.leb_spec e'' (emax - prec)) as [Hof | Hof];
      [|change (emax - prec) with 971 in Hof; split; [reflexivity | lia]].
    split; [reflexivity|]. split; [lia|].
    replace (e'' - e) with (d - 53) by lia. fold N. nia.
Qed.

(** A quotient of two positive integers scaled by powers of two, as
    the division of floats and the true division of integers compute
    it: within [2^-52] of the exact quotient. *)
Lemma div_core_close s m1 e1 m2 e2 :
  let e' := Z.pos (digits2_pos m1) + e1 - (Z.pos (digits2_pos m2) + e2) - 53 in
  -1074 <= e' -> e' <= e1 - e2 ->
  match (let '(q, e, l) :=
           SFdiv_core_binary prec emax (Z.pos m1) e1 (Z.pos m2) e2 in
         binary_round_aux prec emax s q e l) with
  | S754_finite s' mR eR =>
      s' = s /\ e' <= eR /\
      Z.abs (Z.pos mR * 2 ^ (eR - e') * Z.pos m2
             - Z.pos m1 * 2 ^ (e1 - e2 - e')) * 2 ^ 52
      <= Z.pos m1 * 2 ^ (e1 - e2 - e')
  | S754_infinity s' => s' = s /\ 969 < e'
  | _ => False
  end.
Proof.
  cbv zeta. intros Hlo Hhi. unfold SFdiv_core_binary. cbn [Zdigits2].
  rewrite fexp_eq.
  set (d1 := Z.pos (digits2_pos m1)) in *.
  set (d2 := Z.pos (digits2_pos m2)) in *.
  destruct (digits_bounds m1) as [D1lo D1hi]. fold d1 in D1lo, D1hi.
  destruct (digits_bounds m2) as [D2lo D2hi]. fold d2 in D2lo, D2hi.
  replace (Z.min (Z.max (d1 + e1 - (d2 + e2) - 53) (-1074)) (e1 - e2))
    with (d1 + e1 - (d2 + e2) - 53) by lia.
  set (e' := d1 + e1 - (d2 + e2) - 53) in *.
  set (sh := e1 - e2 - e').
  assert (Hsh : 0 <= sh) by (unfold sh; lia).
  set (m' := match sh with
             | 0 => Z.pos m1
             | Z.pos _ => Z.shiftl (Z.pos m1) sh
             | Z.neg _ => 0
             end).
  assert (Hm' : m' = Z.pos m1 * 2 ^ sh).
  { unfold m'. destruct sh eqn:E.
    - rewrite Z.pow_0_r. lia.
    - rewrite Z.shiftl_mul_pow2 by lia. reflexivity.
    - lia. }
  assert (Hp : 0 < 2 ^ sh) by (apply Z.pow_pos_nonneg; lia).
  assert (Hbig : 2 ^ 52 * Z.pos m2 <= m').
  { rewrite Hm'.
    assert (E : 2 ^ (d1 - 1) * 2 ^ sh = 2 ^ 52 * 2 ^ d2).
    { rewrite <- !Z.pow_add_r by lia. f_equal. unfold sh, e'. lia. }
    nia. }
  clearbody m'.
  assert (Hdm := Z.div_mod m' (Z.pos m2) ltac:(lia)).
  assert (Hr := Z.mod_pos_bound m' (Z.pos m2) ltac:(lia)).
  assert (Hq52 : 2 ^ 52 <= m' / Z.pos m2)
    by (apply Z.div_le_lower_bound; lia).
  change (m' / Z.pos m2) with (fst (IntDef.Z.div_eucl m' (Z.pos m2)))
    in Hdm, Hq52.
  change (m' mod Z.pos m2) with (snd (IntDef.Z.div_eucl m' (Z.pos m2)))
    in Hdm, Hr.
  destruct (IntDef.Z.div_eucl m' (Z.pos m2)) as [q r]. cbn [fst snd] in *.
  cbv beta iota.
  destruct q as [|q|q]; try lia.
  assert (Hq54 : Z.pos (digits2_pos q) <= 54).
  { apply (Zdigits2_le (Z.pos q)); [|lia]. split; [lia|].
    assert (E : Z.pos m1 * 2 ^ sh < 2 ^ 54 * 2 ^ (d2 - 1)).
    { assert (E' : 2 ^ d1 * 2 ^ sh = 2 ^ 54 * 2 ^ (d2 - 1)).
      { rewrite <- !Z.pow_add_r by lia. f_equal. unfold sh, e'. lia. }
      nia. }
    assert (0 < 2 ^ (d2 - 1)) by (apply Z.pow_pos_nonneg; lia).
    nia. }
  assert (Hdq : 53 <= Z.pos (digits2_pos q)).
  { destruct (digits_bounds q) as [_ Dq].
    destruct (Z.lt_ge_cases (Z.pos (digits2_pos q)) 53) as [Hlt|]; [|lia].
    assert (2 ^ Z.pos (digits2_pos q) <= 2 ^ 52)
      by (apply Z.pow_le_mono_r; lia). lia. }
  assert (H := binary_round_aux_bracket s q e' (new_location (Z.pos m2) r)
                 Hlo Hdq).
  cbv zeta in H.
  destruct (binary_round_aux prec emax s (Z.pos q) e'
              (new_location (Z.pos m2) r)) as [| s' | | s' mR eR];
    [contradiction | split; [apply H | destruct H as [_ H]; lia]
    | contradiction |].
  destruct H as (-> & HeR & B1 & B2 & B3).
  split; [reflexivity|]. split; [exact HeR|].
  fold sh. rewrite <- Hm'.
  set (M2 := Z.pos mR * 2 ^ (eR - e')) in *.
  set (N := 2 ^ (Z.pos (digits2_pos q) - 53)) in *.
  assert (HN : 0 < N) by (apply Z.pow_pos_nonneg; lia).
  clearbody M2 N.
  assert (Hdiff : Z.abs (M2 * Z.pos m2 - m') <= N * Z.pos m2).
  { rewrite Hdm. apply Z.abs_le. nia. }
  assert (N * Z.pos m2 * 2 ^ 52 <= m') by nia.
  lia.
Qed.

(** A whole number of pence over 100, as the calculator returns the
    interest: within [2^-52] of the exact quotient. *)
Lemma int_truediv_100_close c :
  0 < c < 2 ^ 60 ->
  exponent_ge (-1074) (int_truediv c 100) /\
  int_truediv c 100 <> S754_zero false /\
  Z.abs (units (int_truediv c 100) * 100 - c * 2 ^ 1074) * 2 ^ 52
  <= c * 2 ^ 1074.
Proof.
  intros [Hc0 Hc].
  destruct c as [|c|c]; try lia.
  destruct (digits_bounds c) as [Dlo Dhi].
  assert (Hd : Z.pos (digits2_pos c) <= 60)
    by (apply (Zdigits2_le (Z.pos c)); lia).
  set (e' := Z.pos (digits2_pos c) + 0 - (7 + 0) - 53).
  assert (He' : -60 <= e' <= 0) by (unfold e'; lia).
  assert (H : match int_truediv (Z.pos c) 100 with
              | S754_finite s' mR eR =>
                  s' = false /\ e' <= eR /\
                  Z.abs (Z.pos mR * 2 ^ (eR - e') * 100
                         - Z.pos c * 2 ^ (0 - 0 - e')) * 2 ^ 52
                  <= Z.pos c * 2 ^ (0 - 0 - e')
              | S754_infinity s' => s' = false /\ 969 < e'
              | _ => False
              end).
  { assert (G1 : -1074 <= e') by lia.
    assert (G2 : e' <= 0 - 0) by lia.
    exact (div_core_close false c 0 100 0 G1 G2). }
  destruct (int_truediv (Z.pos c) 100) as [| s' | | s' mR eR];
    try contradiction.
  - destruct H as [_ H]. lia.
  - destruct H as (-> & HeR & Hclose).
    split; [split; [reflexivity | lia]|]. split; [discriminate|].
    cbn [units cond_Zopp].
    set (Q := 2 ^ (e' + 1074)).
    assert (HQ : 0 < Q) by (apply Z.pow_pos_nonneg; lia).
    assert (E1 : Z.pos mR * 2 ^ (eR + 1074) = Z.pos mR * 2 ^ (eR - e') * Q).
    { unfold Q. rewrite <- Z.mul_assoc, <- Z.pow_add_r by lia.
      do 2 f_equal. lia. }
    assert (E2 : Z.pos c * 2 ^ 1074 = Z.pos c * 2 ^ (0 - 0 - e') * Q).
    { unfold Q. rewrite <- Z.mul_assoc, <- Z.pow_add_r by lia.
      do 2 f_equal. lia. }
    rewrite E1, E2.
    replace (Z.pos mR * 2 ^ (eR - e') * Q * 100
             - Z.pos c * 2 ^ (0 - 0 - e') * Q)
      with ((Z.pos mR * 2 ^ (eR - e') * 100
             - Z.pos c * 2 ^ (0 - 0 - e')) * Q) by ring.
    rewrite Z.abs_mul, (Z.abs_eq Q) by lia. nia.
Qed.

Lemma of_int_digits n :
  match of_int n with
  | S754_finite _ m _ => Z.pos (digits2_pos m) <= 53
  | _ => True
  end.
Proof.
  unfold of_int, binary_normalize.
  destruct n as [|q|q]; [exact I | |];
    unfold binary_round;
    destruct (shl_align q 0 _) as [mz ez];
    assert (H := binary_round_aux_bounds) ;
    [specialize (H false (Z.pos mz) ez loc_Exact ltac:(lia))
    |specialize (H true (Z.pos mz) ez loc_Exact ltac:(lia))];
    cbv zeta in H;
    destruct (binary_round_aux prec emax _ (Z.pos mz) ez loc_Exact);
    try exact I; destruct H as (_ & _ & _ & H & _); exact H.
Qed.

(** The float nearest to a whole number of pence over 100, as a
    decimal with two places is read: within [3 * 2^-52] of it. *)
Lemma of_decimal_2_close n :
  0 < n < 2 ^ 60 ->
  exponent_ge (-1074) (of_decimal n 2) /\
  of_decimal n 2 <> S754_zero false /\
  Z.abs (units (of_decimal n 2) * 100 - n * 2 ^ 1074) * 2 ^ 52
  <= 3 * (n * 2 ^ 1074).
Proof.
  intros [Hn0 Hn]. unfold of_decimal. change (10 ^ 2) with 100.
  rewrite of_int_100_eq.
  assert (Hc := of_int_close n ltac:(lia)).
  assert (Hb : is_finite (of_int n) = true).
  { unfold of_int, binary_normalize.
    destruct n as [|q|q]; try lia.
    unfold binary_round.
    destruct (digits_bounds q) as [_ Dhi].
    assert (Hdp : Z.pos (digits2_pos q) <= 60)
      by (apply (Zdigits2_le (Z.pos q)); lia).
    assert (Ha := shl_align_value q 0
                    (fexp prec emax (Z.pos (digits2_pos q) + 0))).
    destruct (shl_align q 0 _) as [mz ez]. destruct Ha as [Hez Hmz].
    rewrite fexp_eq in Hez.
    assert (Hdz : Zdigits2 (Z.pos mz) <= Z.pos (digits2_pos q) - ez).
    { apply Zdigits2_le; [|lia]. split; [lia|].
      rewrite Hmz. replace (Z.pos (digits2_pos q) - ez)
        with (Z.pos (digits2_pos q) + (0 - ez)) by lia.
      rewrite Z.pow_add_r by lia.
      assert (0 < 2 ^ (0 - ez)) by (apply Z.pow_pos_nonneg; lia). nia. }
    assert (H := binary_round_aux_bounds false (Z.pos mz) ez loc_Exact
                   ltac:(lia)).
    cbv zeta in H.
    destruct (binary_round_aux prec emax _ _ _ _) as [s' | s' | | s' mR eR];
      [reflexivity | | contradiction | reflexivity].
    destruct H as [_ H]. lia. }
  assert (Hdig := of_int_digits n).
  destruct (of_int n) as [sx | sx | | sx mx ex];
    [| discriminate Hb | discriminate Hb |].
  { (* the float of a positive integer is not zero *)
    exfalso. destruct Hc as [_ Hc]. cbn [units] in Hc.
    assert (0 < n * 2 ^ 1074) by (apply Z.mul_pos_pos; [lia | reflexivity]).
    lia. }
  destruct Hc as [[-> Hex] Hclose].
  assert (Hex61 : ex < 61).
  { destruct (Z.lt_ge_cases ex 61) as [|Hge]; [assumption | exfalso].
    assert (Hpow : 2 ^ 61 * 2 ^ 1074 <= 2 ^ (ex + 1074))
      by (rewrite <- Z.pow_add_r by lia; apply Z.pow_le_mono_r; lia).
    cbn [units cond_Zopp] in Hclose.
    set (W := 2 ^ 1074) in *. assert (HW : 0 < W) by reflexivity.
    set (P := 2 ^ (ex + 1074)) in *. clearbody W P.
    assert (HX : P <= Z.pos mx * P) by nia.
    assert (HY : n * W < 2 ^ 60 * W) by nia.
    set (X := Z.pos mx * P) in *. set (Y := n * W) in *. clearbody X Y.
    lia. }
  set (e' := Z.pos (digits2_pos mx) + ex - (53 + -46) - 53).
  assert (He' : -1074 <= e' /\ e' <= ex + 46) by (unfold e'; lia).
  assert (H : match div (S754_finite false mx ex)
                    (S754_finite false 7036874417766400 (-46)) with
              | S754_finite s' mR eR =>
                  s' = false /\ e' <= eR /\
                  Z.abs (Z.pos mR * 2 ^ (eR - e') * Z.pos 7036874417766400
                         - Z.pos mx * 2 ^ (ex - -46 - e')) * 2 ^ 52
                  <= Z.pos mx * 2 ^ (ex - -46 - e')
              | S754_infinity s' => s' = false /\ 969 < e'
              | _ => False
              end).
  { assert (G1 : -1074 <= e') by lia.
    assert (G2 : e' <= ex - -46) by lia.
    exact (div_core_close false mx ex 7036874417766400 (-46) G1 G2). }
  destruct (div (S754_finite false mx ex)
              (S754_finite false 7036874417766400 (-46)))
    as [| s' | | s' mR eR]; try contradiction.
  - destruct H as [_ H]. lia.
  - destruct H as (-> & HeR & Hdiv).
    split; [split; [reflexivity | lia]|]. split; [discriminate|].
    cbn [units cond_Zopp] in Hclose |- *.
    set (Q := 2 ^ (e' + 1074)).
    assert (HQ : 0 < Q) by (apply Z.pow_pos_nonneg; lia).
    assert (E1 : Z.pos mR * 2 ^ (eR + 1074) = Z.pos mR * 2 ^ (eR - e') * Q).
    { unfold Q. rewrite <- Z.mul_assoc, <- Z.pow_add_r by lia.
      do 2 f_equal. lia. }
    assert (E2 : Z.pos mx * 2 ^ (ex + 1074) * 2 ^ 46
                 = Z.pos mx * 2 ^ (ex - -46 - e') * Q).
    { unfold Q. rewrite <- !Z.mul_assoc, <- !Z.pow_add_r by lia.
      do 2 f_equal. lia. }
    change (Z.pos 7036874417766400) with (100 * 2 ^ 46) in Hdiv.
    set (V := Z.pos mR * 2 ^ (eR - e')) in *.
    set (X := Z.pos mx * 2 ^ (ex - -46 - e')) in *.
    set (U := Z.pos mx * 2 ^ (ex + 1074)) in *.
    rewrite E1. clearbody V X U Q.
    set (W := 2 ^ 1074) in *.
    assert (HW : 0 < W) by reflexivity. clearbody W.
    assert (H46 : 0 < 2 ^ 46) by reflexivity.
    set (P := 2 ^ 46) in *. clearbody P.
    (* [V * Q * 100] is within [2^-52] of [U], and [U] of [n * W] *)
    assert (H1 : Z.abs (V * Q * 100 * P - U * P) * 2 ^ 52 <= U * P).
    { rewrite E2.
      replace (V * Q * 100 * P - X * Q) with ((V * (100 * P) - X) * Q) by ring.
      rewrite Z.abs_mul, (Z.abs_eq Q) by lia. nia. }
    assert (H2 : Z.abs (V * Q * 100 - U) * 2 ^ 52 <= U).
    { replace (V * Q * 100 * P - U * P) with ((V * Q * 100 - U) * P) in H1
        by ring.
      rewrite Z.abs_mul, (Z.abs_eq P) in H1 by lia. nia. }
    assert (H3 := close_step U (n * W) (V * Q * 100) 1 1
                    ltac:(lia) ltac:(lia) ltac:(lia)).
    rewrite !Z.mul_1_r in H3. apply H3; [lia | exact H2].
Qed.

(** ** Whole pence, printed *)

(** A float within [2^-50] of a whole number of pence rounds to it. *)
Lemma round_to_pence m e c :
  -1074 <= e -> 0 <= c < 2 ^ 48 ->
  Z.abs (Z.pos m * 2 ^ (e + 1074) * 100 - c * 2 ^ 1074) * 2 ^ 50
  <= c * 2 ^ 1074 ->
  round_half_even (m * 100) e = c.
Proof.
  intros He Hc Hclose.
  set (Q := 2 ^ (e + 1074)) in *.
  assert (HQ : 0 < Q) by (apply Z.pow_pos_nonneg; lia).
  destruct (Z.leb_spec 0 e) as [Hpos | Hneg].
  - unfold round_half_even. destruct (Z.leb_spec 0 e); [|lia].
    rewrite Pos2Z.inj_mul.
    assert (EQ : Q = 2 ^ e * 2 ^ 1074)
      by (unfold Q; apply Z.pow_add_r; lia).
    set (W := 2 ^ 1074) in *. assert (HW : 0 < W) by reflexivity.
    set (n := Z.pos m * 100 * 2 ^ e).
    replace (Z.pos m * Q * 100 - c * W) with ((n - c) * W) in Hclose
      by (unfold n; rewrite EQ; ring).
    rewrite Z.abs_mul, (Z.abs_eq W) in Hclose by lia.
    clearbody W n. change (2 ^ 50) with 1125899906842624 in Hclose.
    change (2 ^ 48) with 281474976710656 in Hc.
    destruct (Z.eq_dec n c) as [|Hne]; [assumption|exfalso].
    assert (1 <= Z.abs (n - c)) by lia. nia.
  - destruct (round_half_even_nearest (m * 100) e Hneg) as [H _].
    cbv zeta in H. rewrite Pos2Z.inj_mul in H.
    set (n := round_half_even (m * 100) e) in *.
    set (d := 2 ^ (- e)) in *.
    assert (Hd : 0 < d) by (apply Z.pow_pos_nonneg; lia).
    assert (EW : 2 ^ 1074 = d * Q).
    { unfold d, Q. rewrite <- Z.pow_add_r by lia. f_equal. lia. }
    rewrite EW in Hclose.
    replace (Z.pos m * Q * 100 - c * (d * Q))
      with ((Z.pos m * 100 - c * d) * Q) in Hclose by ring.
    rewrite Z.abs_mul, (Z.abs_eq Q) in Hclose by lia.
    clearbody n d Q. change (2 ^ 50) with 1125899906842624 in Hclose.
    change (2 ^ 48) with 281474976710656 in Hc.
    assert (H4 : 4 * Z.abs (Z.pos m * 100 - c * d) < d) by nia.
    destruct (Z.eq_dec n c) as [|Hne]; [assumption|exfalso].
    assert (Hdiff : d <= Z.abs (n * d - c * d)).
    { replace (n * d - c * d) with ((n - c) * d) by ring.
      rewrite Z.abs_mul, (Z.abs_eq d) by lia.
      assert (1 <= Z.abs (n - c)) by lia. nia. }
    assert (Htri : Z.abs (n * d - c * d)
                   <= Z.abs (n * d - Z.pos m * 100)
                      + Z.abs (Z.pos m * 100 - c * d)).
    { replace (n * d - c * d)
        with ((n * d - Z.pos m * 100) + (Z.pos m * 100 - c * d)) by ring.
      apply Z.abs_triangle. }
    lia.
Qed.

Lemma prints_pence x c :
  exponent_ge (-1074) x -> 0 <= c < 2 ^ 48 ->
  Z.abs (units x * 100 - c * 2 ^ 1074) * 2 ^ 50 <= c * 2 ^ 1074 ->
  int_of_digits (List.filter is_ascii_digit (format_comma_2f x)) = c.
Proof.
  destruct x as [s | s | | s m e]; cbn [exponent_ge]; try tauto.
  - intros _ Hc Hclose. cbn [units] in Hclose.
    assert (0 < 2 ^ 1074) by reflexivity.
    assert (c = 0) by nia. subst c. destruct s; reflexivity.
  - intros [-> He] Hc Hclose. rewrite format_comma_2f_pence.
    apply round_to_pence; [exact He | exact Hc | exact Hclose].
Qed.

(** ** The interest and the formula of the spec *)

Lemma spec_round2_half_up_near num den :
  0 < den ->
  2 * Z.abs (spec_round2_half_up num den * den - num) <= den.
Proof.
  intros Hden. unfold spec_round2_half_up.
  assert (H := Z.div_mod (2 * num + den) (2 * den) ltac:(lia)).
  assert (Hr := Z.mod_pos_bound (2 * num + den) (2 * den) ltac:(lia)).
  set (n := (2 * num + den) / (2 * den)) in *.
  set (r := (2 * num + den) mod (2 * den)) in *. clearbody n r.
  lia.
Qed.

Lemma spec_round2_half_even_near num den :
  0 < den ->
  2 * Z.abs (spec_round2_half_even num den * den - num) <= den.
Proof.
  intros Hden. unfold spec_round2_half_even. cbv zeta.
  assert (H := Z.div_mod num den ltac:(lia)).
  assert (Hr := Z.mod_pos_bound num den ltac:(lia)).
  set (q := num / den) in *. set (r := num mod den) in *. clearbody q r.
  destruct (Z.compare_spec (2 * r) den) as [E | E | E];
    [destruct (Z.even q)| |]; lia.
Qed.

(** Two integers each within about half of the same quotient are at
    most one apart. *)
Lemma pence_at_most_one_apart cents n num den :
  0 < den -> 0 <= num <= 2 ^ 38 * den ->
  2 * Z.abs (cents * den - num) * 2 ^ 48 <= den * 2 ^ 48 + 2 * num ->
  2 * Z.abs (n * den - num) <= den ->
  Z.abs (cents - n) <= 1.
Proof.
  intros Hden Hnum Hc Hn.
  change (2 ^ 48) with 281474976710656 in Hc.
  change (2 ^ 38) with 274877906944 in Hnum.
  destruct (Z.le_gt_cases (Z.abs (cents - n)) 1) as [|Hgt]; [assumption|].
  exfalso.
  assert (Hd : 2 * den <= Z.abs (cents * den - n * den)).
  { replace (cents * den - n * den) with ((cents - n) * den) by ring.
    rewrite Z.abs_mul, (Z.abs_eq den) by lia. nia. }
  assert (Ht : Z.abs (cents * den - n * den)
               <= Z.abs (cents * den - num) + Z.abs (n * den - num)).
  { replace (cents * den - n * den)
      with ((cents * den - num) + - (n * den - num)) by ring.
    eapply Z.le_trans; [apply Z.abs_triangle|]. rewrite Z.abs_opp. lia. }
  lia.
Qed.

(** C1, as the code has it. Whenever the calculator returns, the due
    date parsed and the days overdue are the whole days from the due
    date to the date of the clock, none when that is negative. The
    interest is a whole number of pence over 100, the pence being the
    integer nearest (ties to even) to the product
    [p * (0.1275 / 365) * days_overdue * 100] as binary64 computes it,
    each operation rounded. It is 0 when the due date is not before the
    date of the clock and 69.86 for 5000 due 40 days before. It is not
    [round2] of the exact product: for a principal that is zero or a
    positive float from [2^-848] on, the pence returned are within a
    half plus [2^-48] of the exact interest in pence, and so, up to
    [2^38] pence of interest, at most one penny from the spec's
    [round2], half-up or banker's. *)
Theorem statutory_interest_formula env p s w r w' :
  datetime_ok (clock env (clock_reads w)) = true ->
  calculate_statutory_claim env p s w = (inr r, w') ->
  let today := clock env (clock_reads w) in
  exists due cents,
    strptime env s = inr due /\
    Claim.days_overdue r = Z.max 0 (toordinal today - toordinal due) /\
    round (mul (mul (mul p (div (of_decimal 1275 4) (of_int 365)))
                    (of_int (Claim.days_overdue r)))
               (of_int 100)) = inr cents /\
    nearest_integer
      (mul (mul (mul p (div (of_decimal 1275 4) (of_int 365)))
                (of_int (Claim.days_overdue r)))
           (of_int 100)) cents /\
    Claim.statutory_interest_gbp r = int_truediv cents 100 /\
    (date_leb (date_of today) (date_of due) = true ->
     Claim.statutory_interest_gbp r = S754_zero false) /\
    (p = of_int 5000 -> toordinal today - toordinal due = 40 ->
     Claim.statutory_interest_gbp r = of_decimal 6986 2) /\
    (exponent_ge (-900) p ->
     let num := spec_interest_num p (Claim.days_overdue r) in
     let den := spec_interest_den in
     0 <= cents /\
     2 * Z.abs (cents * den - num) * 2 ^ 48 <= den * 2 ^ 48 + 2 * num /\
     (num <= 2 ^ 38 * den ->
      Z.abs (cents - spec_round2_half_up num den) <= 1 /\
      Z.abs (cents - spec_round2_half_even num den) <= 1)).
Proof.
  intros Hok Hcalc today.
  apply calculate_inr in Hcalc
    as (due & i & Hs & Hdays & Hi & Hint & _).
  assert (Hd0 : 0 <= Claim.days_overdue r) by (rewrite Hdays; lia).
  rewrite (days_overdue_ordinals env s w due Hok Hs) in Hdays.
  fold today in Hdays.
  assert (Hi0 := Hi).
  unfold interest in Hi.
  change daily_rate with (div (of_decimal 1275 4) (of_int 365)) in Hi.
  destruct (round _) as [e | cents] eqn:Hround; [discriminate Hi|].
  injection Hi as Hi.
  exists due, cents. cbv zeta.
  split; [exact Hs|]. split; [exact Hdays|].
  split; [reflexivity|].
  split; [apply round_nearest; exact Hround|].
  split; [congruence|].
  split; [|split].
  - intros Hle.
    assert (Hord : toordinal today <= toordinal due).
    { apply toordinal_mono; [exact Hok | | exact Hle].
      apply (strptime_inr env s due Hs). }
    rewrite Hint. apply (interest_zero_days p).
    replace (Claim.days_overdue r) with 0 in Hi0 by lia. exact Hi0.
  - intros -> H40. rewrite H40 in Hdays. change (Z.max 0 40) with 40 in Hdays.
    rewrite Hdays in Hi0. rewrite Hint.
    vm_compute in Hi0. injection Hi0 as <-. reflexivity.
  - intros Hp.
    change (round (scaled_product p (Claim.days_overdue r)) = inr cents)
      in Hround.
    set (days := Claim.days_overdue r) in *. clearbody days.
    assert (Hfin := round_inr_finite _ _ Hround).
    destruct (scaled_product_close p days Hp Hd0 Hfin) as [Hx Hclose].
    destruct (round_close _ _ Hx Hround) as [Hcents Hhalf].
    split; [exact Hcents|].
    assert (HA := units_nonneg _ _ Hp).
    unfold spec_interest_num, spec_interest_den.
    assert (Hbound : 2 * Z.abs (cents * (3650000 * 2 ^ 1074)
                                - units p * 1275 * days * 100) * 2 ^ 48
                     <= 3650000 * 2 ^ 1074 * 2 ^ 48
                        + 2 * (units p * 1275 * days * 100)).
    { set (A := units p) in *.
      set (U := units (scaled_product p days)) in *. clearbody A U.
      set (W := 2 ^ 1074) in *.
      assert (HW : 0 < W) by reflexivity. clearbody W.
      set (T := A * 1275 * days * 100) in *.
      assert (HT : 0 <= T) by (unfold T; nia). clearbody T.
      assert (Hsplit : Z.abs (cents * (3650000 * W) - T)
                       <= Z.abs (cents * W - U) * 3650000
                          + Z.abs (U * 3650000 - T)).
      { replace (cents * (3650000 * W) - T)
          with ((cents * W - U) * 3650000 + (U * 3650000 - T)) by ring.
        eapply Z.le_trans; [apply Z.abs_triangle|].
        rewrite Z.abs_mul, (Z.abs_eq 3650000) by lia. lia. }
      set (X := Z.abs (cents * (3650000 * W) - T)) in *.
      set (Y := Z.abs (cents * W - U)) in *.
      set (Z' := Z.abs (U * 3650000 - T)) in *.
      clearbody X Y Z'.
      change (2 ^ 52) with 4503599627370496 in Hclose.
      change (2 ^ 48) with 281474976710656. lia. }
    split; [exact Hbound|].
    intros Hsmall.
    assert (Hden : 0 < 3650000 * 2 ^ 1074) by reflexivity.
    assert (Hnum : 0 <= units p * 1275 * days * 100) by nia.
    split.
    + apply (pence_at_most_one_apart _ _ _ _ Hden (conj Hnum Hsmall) Hbound).
      apply spec_round2_half_up_near, Hden.
    + apply (pence_at_most_one_apart _ _ _ _ Hden (conj Hnum Hsmall) Hbound).
      apply spec_round2_half_even_near, Hden.
Qed.

Lemma statutory_interest_formula_witness :
  datetime_ok (clock Example.env 0) = true /\
  calculate_statutory_claim Example.env (of_int 5000) (str "2024-01-31")
    Example.world
  = (inr Example.claim_5000, Example.world_after_calculation) /\
  Claim.statutory_interest_gbp Example.claim_5000 = of_decimal 6986 2.
Proof.
  assert (H1 : datetime_ok (clock Example.env (clock_reads Example.world)) = true)
    by reflexivity.
  assert (H2 : calculate_statutory_claim Example.env (of_int 5000)
                 (str "2024-01-31") Example.world
               = (inr Example.claim_5000, Example.world_after_calculation))
    by (vm_compute; reflexivity).
  split; [exact H1|]. split; [exact H2|].
  destruct (statutory_interest_formula _ _ _ _ _ _ H1 H2)
    as (due & cents & Hs & _ & _ & _ & _ & _ & H & _).
  vm_compute in Hs. injection Hs as <-.
  apply H; reflexivity.
Defined.

(** C1, as the spec has it, fails on an ordinary amount. 365.00 pounds
    are exactly a float; ten days overdue the exact interest is 127.5
    pence, which [round2] makes 128 pence, 1.28, by half-up and by
    banker's rounding alike. The calculator returns 127 pence, 1.27:
    the daily rate and the products are rounded on the way, and the
    float it rounds to pence lies just below 127.5. *)
Lemma interest_is_not_round2_of_the_exact_product :
  exists r w',
    units (of_int 365) = pounds 365 /\
    calculate_statutory_claim Example.env (of_int 365) (str "2024-03-01")
      Example.world = (inr r, w') /\
    Claim.days_overdue r = 10 /\
    2 * spec_interest_num (of_int 365) 10 = 255 * spec_interest_den /\
    spec_round2_half_up (spec_interest_num (of_int 365) 10) spec_interest_den
    = 128 /\
    spec_round2_half_even (spec_interest_num (of_int 365) 10) spec_interest_den
    = 128 /\
    Claim.statutory_interest_gbp r = int_truediv 127 100 /\
    Claim.statutory_interest_gbp r = of_decimal 127 2 /\
    Claim.statutory_interest_gbp r <> of_decimal 128 2.
Proof.
  eexists _, _.
  split; [vm_compute; reflexivity|].
  split; [vm_compute; reflexivity|].
  cbn [Claim.days_overdue Claim.statutory_interest_gbp].
  split; [reflexivity|].
  split; [vm_compute; reflexivity|].
  split; [vm_compute; reflexivity|].
  split; [vm_compute; reflexivity|].
  split; [vm_compute; reflexivity|].
  split; [vm_compute; reflexivity|].
  vm_compute. discriminate.
Qed.

(** ** The accuracy of the interest *)

(** X23. The interest is accurate to the penny. For a principal that
    is zero or a positive float from [2^-848] on, the whole number of
    pence the calculator rounds to differs from the exact statutory
    interest in pence, [p * 0.1275 / 365 * days_overdue * 100], by at
    most a half plus [2^-48] of that interest; up to [2^38] pence of
    interest that is at most 0.501 pence. The interest returned is
    that number of pence over 100 as a float, within [2^-52] of it,
    and below [2^48] pence the letter prints it with exactly the
    digits of that number. *)
Theorem interest_is_accurate env p s w r w' :
  exponent_ge (-900) p ->
  calculate_statutory_claim env p s w = (inr r, w') ->
  exists cents,
    Claim.statutory_interest_gbp r = int_truediv cents 100 /\
    0 <= cents /\
    let exact := units p * 1275 * Claim.days_overdue r * 100 in
    let penny := 3650000 * 2 ^ 1074 in
    2 * Z.abs (cents * penny - exact) * 2 ^ 48
    <= penny * 2 ^ 48 + 2 * exact /\
    (exact <= 2 ^ 38 * penny ->
     1000 * Z.abs (cents * penny - exact) <= 501 * penny) /\
    (cents < 2 ^ 60 ->
     Z.abs (units (Claim.statutory_interest_gbp r) * 100 - cents * 2 ^ 1074)
     * 2 ^ 52 <= cents * 2 ^ 1074) /\
    (cents < 2 ^ 48 ->
     int_of_digits
       (List.filter is_ascii_digit
          (format_comma_2f (Claim.statutory_interest_gbp r))) = cents).
Proof.
  intros Hp Hc.
  destruct (calculate_inr _ _ _ _ _ _ Hc)
    as (due & i & _ & Hdays & Hi & Hi' & _).
  assert (Hd : 0 <= Claim.days_overdue r) by (rewrite Hdays; lia).
  set (days := Claim.days_overdue r) in *. clearbody days.
  unfold interest in Hi. fold (scaled_product p days) in Hi.
  destruct (round (scaled_product p days)) as [e | cents] eqn:Hr;
    [discriminate Hi|].
  injection Hi as <-.
  assert (Hfin := round_inr_finite _ _ Hr).
  destruct (scaled_product_close p days Hp Hd Hfin) as [Hx Hclose].
  destruct (round_close _ _ Hx Hr) as [Hcents Hhalf].
  exists cents. split; [exact Hi'|]. split; [exact Hcents|].
  cbv zeta. rewrite Hi'.
  assert (Hdiv : cents < 2 ^ 60 ->
                 exponent_ge (-1074) (int_truediv cents 100) /\
                 Z.abs (units (int_truediv cents 100) * 100 - cents * 2 ^ 1074)
                 * 2 ^ 52 <= cents * 2 ^ 1074).
  { intros Hlt. destruct (Z.eq_dec cents 0) as [-> | Hne].
    - cbn. split; [exact I | lia].
    - destruct (int_truediv_100_close cents ltac:(lia)) as (He & _ & H).
      split; [exact He | exact H]. }
  assert (Hprint : cents < 2 ^ 48 ->
                   int_of_digits
                     (List.filter is_ascii_digit
                        (format_comma_2f (int_truediv cents 100))) = cents).
  { intros Hlt.
    destruct (Hdiv ltac:(apply Z.lt_trans with (2 ^ 48); [lia | reflexivity]))
      as [He H].
    apply prints_pence; [exact He | lia |].
    assert (0 <= cents * 2 ^ 1074)
      by (apply Z.mul_nonneg_nonneg; [lia | discriminate]).
    set (X := Z.abs _) in *. set (Y := cents * 2 ^ 1074) in *. clearbody X Y.
    change (2 ^ 52) with 4503599627370496 in H.
    change (2 ^ 50) with 1125899906842624. lia. }
  assert (Hdiv' := fun H => proj2 (Hdiv H)).
  revert Hdiv' Hprint. generalize (int_truediv cents 100). intros i Hdiv' Hprint.
  clear Hdiv.
  assert (HA := units_nonneg _ _ Hp).
  set (A := units p) in *. set (U := units (scaled_product p days)) in *.
  clearbody A U.
  set (W := 2 ^ 1074) in *.
  assert (HW : 0 < W) by (apply Z.pow_pos_nonneg; lia). clearbody W.
  set (T := A * 1275 * days * 100) in *.
  assert (HT : 0 <= T) by (unfold T; nia). clearbody T.
  assert (Hsplit : Z.abs (cents * (3650000 * W) - T)
                   <= Z.abs (cents * W - U) * 3650000
                      + Z.abs (U * 3650000 - T)).
  { replace (cents * (3650000 * W) - T)
      with ((cents * W - U) * 3650000 + (U * 3650000 - T)) by ring.
    eapply Z.le_trans; [apply Z.abs_triangle|].
    rewrite Z.abs_mul, (Z.abs_eq 3650000) by lia. lia. }
  set (X := Z.abs (cents * (3650000 * W) - T)) in *.
  set (Y := Z.abs (cents * W - U)) in *.
  set (Z' := Z.abs (U * 3650000 - T)) in *.
  clearbody X Y Z'.
  change (2 ^ 52) with 4503599627370496 in Hclose.
  change (2 ^ 48) with 281474976710656.
  change (2 ^ 38) with 274877906944.
  split; [lia|]. split; [intros Hsmall; lia|].
  split; [exact Hdiv' | exact Hprint].
Qed.

Lemma interest_is_accurate_witness :
  exists cents,
    Claim.statutory_interest_gbp Example.claim_5000 = int_truediv cents 100 /\
    0 <= cents /\
    1000 * Z.abs (cents * (3650000 * 2 ^ 1074)
                  - units (of_int 5000) * 1275 * 40 * 100)
    <= 501 * (3650000 * 2 ^ 1074).
Proof.
  assert (Hp : exponent_ge (-900) (of_int 5000))
    by (vm_compute; split; [reflexivity | discriminate]).
  assert (Hc : calculate_statutory_claim Example.env (of_int 5000)
                 (str "2024-01-31") Example.world
               = (inr Example.claim_5000, Example.world_after_calculation))
    by (vm_compute; reflexivity).
  destruct (interest_is_accurate _ _ _ _ _ _ Hp Hc)
    as (cents & Hi & Hn & _ & Hsmall & _).
  exists cents. split; [exact Hi|]. split; [exact Hn|].
  apply Hsmall. vm_compute. discriminate.
Defined.

(** ** A principal of nothing *)

Lemma interest_zero_principal sgn days :
  is_finite (of_int days) = true ->
  interest (S754_zero sgn) days = inr (S754_zero false).
Proof.
  intros Hd. unfold interest. rewrite daily_rate_eq, of_int_100_eq.
  destruct (of_int days) as [sd | sd | | sd md ed];
    [| discriminate Hd | discriminate Hd |];
    destruct sgn, sd; reflexivity.
Qed.

Lemma zero_principal_figures sgn :
  compensation (S754_zero sgn) = 40 /\
  add (add (S754_zero sgn) (S754_zero false)) (of_int 40) = of_int 40.
Proof. destruct sgn; vm_compute; split; reflexivity. Qed.

(** X24. A principal of zero is not refused: for every well-formed due
    date, however long past, the calculator returns no interest, the
    compensation of 40 and a total of exactly 40. *)
Theorem zero_principal_claims_forty env sgn s w due :
  strptime env s = inr due ->
  datetime_ok (clock env (clock_reads w)) = true ->
  calculate_statutory_claim env (S754_zero sgn) s w
  = (inr {| Claim.days_overdue :=
              Z.max 0 (toordinal (clock env (clock_reads w)) - toordinal due);
            Claim.statutory_interest_gbp := S754_zero false;
            Claim.compensation_gbp := 40;
            Claim.total_claim_gbp := of_int 40 |},
     {| clock_reads := S (clock_reads w); files := files w;
        outbox := outbox w; log := log w |}).
Proof.
  intros Hs Hok. unfold calculate_statutory_claim. rewrite Hs.
  unfold bind, now, ret. cbv beta iota.
  rewrite (days_overdue_ordinals env s w due Hok Hs).
  set (days := Z.max 0 (toordinal (clock env (clock_reads w)) - toordinal due)).
  assert (Hdays : 0 <= days < 2 ^ 22).
  { assert (H1 := toordinal_range _ Hok).
    assert (H2 := toordinal_range _ (proj1 (strptime_inr env _ _ Hs))).
    unfold days. change (2 ^ 22) with 4194304. lia. }
  assert (Hfin : is_finite (of_int days) = true).
  { assert (H := of_int_bounded days Hdays).
    destruct (of_int days); [reflexivity | contradiction | contradiction
                            | reflexivity]. }
  rewrite (interest_zero_principal sgn days Hfin).
  destruct (zero_principal_figures sgn) as [-> ->]. reflexivity.
Qed.

Lemma zero_principal_claims_forty_witness :
  calculate_statutory_claim Example.env (S754_zero false) (str "2024-01-31")
    Example.world
  = (inr {| Claim.days_overdue := 40;
            Claim.statutory_interest_gbp := S754_zero false;
            Claim.compensation_gbp := 40;
            Claim.total_claim_gbp := of_int 40 |},
     Example.world_after_calculation).
Proof.
  exact (zero_principal_claims_forty Example.env false (str "2024-01-31")
           Example.world (mk_datetime 2024 1 31 0 0 0 0)
           ltac:(vm_compute; reflexivity) eq_refl).
Defined.

(** ** Amounts to the penny *)

(** X25. Whole pence are printed to the digit. For a whole number of
    pence [c] below [2^48], the float [c / 100] of the true division,
    which is what the calculator returns as interest, and the float
    nearest to the decimal [c / 100], which is an amount stated to the
    penny, are both printed by [:,.2f] with exactly the digits of
    [c]. *)
Theorem pence_are_printed_to_the_digit c :
  0 <= c < 2 ^ 48 ->
  int_of_digits
    (List.filter is_ascii_digit (format_comma_2f (int_truediv c 100))) = c /\
  int_of_digits
    (List.filter is_ascii_digit (format_comma_2f (of_decimal c 2))) = c.
Proof.
  intros Hc.
  destruct (Z.eq_dec c 0) as [-> | Hne]; [split; vm_compute; reflexivity|].
  assert (Hc60 : 0 < c < 2 ^ 60)
    by (split; [lia|]; apply Z.lt_trans with (2 ^ 48); [lia | reflexivity]).
  assert (HW : 0 < c * 2 ^ 1074)
    by (apply Z.mul_pos_pos; [lia | reflexivity]).
  split.
  - destruct (int_truediv_100_close c Hc60) as (He & _ & Hclose).
    apply prints_pence; [exact He | exact Hc |].
    set (X := Z.abs _) in *. set (Y := c * 2 ^ 1074) in *. clearbody X Y.
    change (2 ^ 52) with 4503599627370496 in Hclose.
    change (2 ^ 50) with 1125899906842624. lia.
  - destruct (of_decimal_2_close c Hc60) as (He & _ & Hclose).
    apply prints_pence; [exact He | exact Hc |].
    set (X := Z.abs _) in *. set (Y := c * 2 ^ 1074) in *. clearbody X Y.
    change (2 ^ 52) with 4503599627370496 in Hclose.
    change (2 ^ 50) with 1125899906842624. lia.
Qed.

Lemma pence_are_printed_to_the_digit_witness :
  format_comma_2f (int_truediv 123456789 100) = str "1,234,567.89" /\
  int_of_digits
    (List.filter is_ascii_digit (format_comma_2f (int_truediv 123456789 100)))
  = 123456789 /\
  int_of_digits
    (List.filter is_ascii_digit (format_comma_2f (of_decimal 123456789 2)))
  = 123456789.
Proof.
  split; [vm_compute; reflexivity|].
  apply (pence_are_printed_to_the_digit 123456789). vm_compute.
  split; [discriminate | reflexivity].
Defined.
